(** * SceneManager: a shallow embedding of [Final Project/Source/SceneManager.cpp]

    The scene manager owns a 16-slot table of loaded textures, a vector of
    object materials and a pointer to the shader manager.  Everything it
    talks to (the OpenGL context, the image decoder, the shader manager, the
    mesh library, standard output) is kept in an explicit environment record,
    and every method is a function from the object and the environment to an
    outcome: either a result with the new object and environment, or a crash
    (a null pointer dereferenced, an array indexed outside its bounds).

    Conventions
    - [float] values are real numbers: the development is about which
      quantities are computed and written, in exact arithmetic, and says
      nothing about rounding.  The theorems on the model matrix state the
      entries that come out of products with 0 and 1 and of sums with 0
      only, on which the two arithmetics agree for finite values.
    - [int] and [GLuint] values are integers of [Z]; the two conversions the
      code performs between them are written out.
    - [std::string] is [string]; [a.compare(b) == 0] is [String.eqb].
    - [m_basicMeshes] points to the mesh library from construction to
      destruction; the library's calls are recorded in the environment.
    - A local [OBJECT_MATERIAL] that is declared and not assigned holds
      whatever the environment says such a local holds. *)

From Stdlib Require Import ZArith List String Bool Lia Reals Lra.
Import ListNotations.
Local Open Scope string_scope.
Local Open Scope list_scope.
Local Open Scope Z_scope.

(* ------------------------------------------------------------------ *)
(** * The parts of GLM the scene manager uses *)
(* ------------------------------------------------------------------ *)

Module Glm.
Local Open Scope R_scope.

Record vec2 := mkvec2 { v2x : R; v2y : R }.
Record vec3 := mkvec3 { v3x : R; v3y : R; v3z : R }.
Record vec4 := mkvec4 { v4x : R; v4y : R; v4z : R; v4w : R }.

(** A [mat4] is four columns, as in GLM ([m[c][r]], column major). *)
Record mat4 := mkmat4 { col0 : vec4; col1 : vec4; col2 : vec4; col3 : vec4 }.

Definition vec4_add (a b : vec4) : vec4 :=
  mkvec4 (v4x a + v4x b) (v4y a + v4y b) (v4z a + v4z b) (v4w a + v4w b).

Definition vec4_scale (a : vec4) (k : R) : vec4 :=
  mkvec4 (v4x a * k) (v4y a * k) (v4z a * k) (v4w a * k).

(** [mat4(1.0f)] *)
Definition mat4_identity : mat4 :=
  mkmat4 (mkvec4 1 0 0 0) (mkvec4 0 1 0 0) (mkvec4 0 0 1 0) (mkvec4 0 0 0 1).

(** [operator*(mat4, vec4)]: the linear combination of the columns. *)
Definition mat4_mul_vec (m : mat4) (v : vec4) : vec4 :=
  vec4_add
    (vec4_add (vec4_scale (col0 m) (v4x v)) (vec4_scale (col1 m) (v4y v)))
    (vec4_add (vec4_scale (col2 m) (v4z v)) (vec4_scale (col3 m) (v4w v))).

(** [operator*(mat4, mat4)]: column [j] of the product is [a] applied to
    column [j] of [b]. *)
Definition mat4_mul (a b : mat4) : mat4 :=
  mkmat4 (mat4_mul_vec a (col0 b)) (mat4_mul_vec a (col1 b))
         (mat4_mul_vec a (col2 b)) (mat4_mul_vec a (col3 b)).

(** [glm::radians]: the constant GLM multiplies by is pi / 180. *)
Definition radians (degrees : R) : R := degrees * (PI / 180).

Definition dot (a b : vec3) : R := v3x a * v3x b + v3y a * v3y b + v3z a * v3z b.

Definition inversesqrt (x : R) : R := 1 / sqrt x.

(** [glm::normalize(v)] is [v * inversesqrt(dot(v, v))]. *)
Definition normalize (v : vec3) : vec3 :=
  let k := inversesqrt (dot v v) in
  mkvec3 (v3x v * k) (v3y v * k) (v3z v * k).

(** [glm::translate(m, v)]: the last column becomes
    [m[0]*v.x + m[1]*v.y + m[2]*v.z + m[3]]. *)
Definition translate_mat (m : mat4) (v : vec3) : mat4 :=
  mkmat4 (col0 m) (col1 m) (col2 m)
    (vec4_add
       (vec4_add (vec4_add (vec4_scale (col0 m) (v3x v))
                           (vec4_scale (col1 m) (v3y v)))
                 (vec4_scale (col2 m) (v3z v)))
       (col3 m)).

(** [glm::scale(m, v)]: the first three columns are scaled. *)
Definition scale_mat (m : mat4) (v : vec3) : mat4 :=
  mkmat4 (vec4_scale (col0 m) (v3x v)) (vec4_scale (col1 m) (v3y v))
         (vec4_scale (col2 m) (v3z v)) (col3 m).

(** [glm::rotate(m, angle, v)]: the rotation about the normalised axis,
    written entry by entry as GLM does, then applied to the first three
    columns of [m]. *)
Definition rotate_mat (m : mat4) (angle : R) (v : vec3) : mat4 :=
  let c := cos angle in
  let s := sin angle in
  let axis := normalize v in
  let temp := mkvec3 ((1 - c) * v3x axis) ((1 - c) * v3y axis) ((1 - c) * v3z axis) in
  let r00 := c + v3x temp * v3x axis in
  let r01 := v3x temp * v3y axis + s * v3z axis in
  let r02 := v3x temp * v3z axis - s * v3y axis in
  let r10 := v3y temp * v3x axis - s * v3z axis in
  let r11 := c + v3y temp * v3y axis in
  let r12 := v3y temp * v3z axis + s * v3x axis in
  let r20 := v3z temp * v3x axis + s * v3y axis in
  let r21 := v3z temp * v3y axis - s * v3x axis in
  let r22 := c + v3z temp * v3z axis in
  mkmat4
    (vec4_add (vec4_add (vec4_scale (col0 m) r00) (vec4_scale (col1 m) r01))
              (vec4_scale (col2 m) r02))
    (vec4_add (vec4_add (vec4_scale (col0 m) r10) (vec4_scale (col1 m) r11))
              (vec4_scale (col2 m) r12))
    (vec4_add (vec4_add (vec4_scale (col0 m) r20) (vec4_scale (col1 m) r21))
              (vec4_scale (col2 m) r22))
    (col3 m).

(** The one-argument forms of [glm/gtx/transform.hpp] start from the
    identity. *)
Definition translate (v : vec3) : mat4 := translate_mat mat4_identity v.
Definition scale (v : vec3) : mat4 := scale_mat mat4_identity v.
Definition rotate (angle : R) (v : vec3) : mat4 := rotate_mat mat4_identity angle v.

End Glm.
Import Glm.

(* ------------------------------------------------------------------ *)
(** * The collaborators: decoder, OpenGL context, shader, meshes *)
(* ------------------------------------------------------------------ *)

(** What [stbi_load] reports about a decoded file (the pixels themselves are
    never inspected by the scene manager). *)
Record Image := mkImage { width : Z; height : Z; colorChannels : Z }.

(** The three lines [CreateGLTexture] can print. *)
Inductive Message :=
| SuccessfullyLoaded (filename : string) (w h channels : Z)
| NotImplemented (channels : Z)
| CouldNotLoad (filename : string).

Inductive GLenum :=
| GL_TEXTURE_2D | GL_TEXTURE_WRAP_S | GL_TEXTURE_WRAP_T
| GL_TEXTURE_MIN_FILTER | GL_TEXTURE_MAG_FILTER
| GL_REPEAT | GL_LINEAR | GL_RGB8 | GL_RGBA8 | GL_RGB | GL_RGBA
| GL_UNSIGNED_BYTE.

Inductive GLCall :=
| GenTextures (name : Z)
| BindTexture (target : GLenum) (texture : Z)
| TexParameteri (target pname param : GLenum)
| TexImage2D (target : GLenum) (level : Z) (internalformat : GLenum)
             (w h border : Z) (format type : GLenum)
| GenerateMipmap (target : GLenum)
| ActiveTexture (unit : Z).

(** A recording OpenGL context.  Texture names are handed out from a counter
    and stay alive until deleted; each texture unit remembers the texture
    bound to its 2D target. *)
Record GLContext := mkGL {
  gl_next : Z;                 (* the name the next glGenTextures returns *)
  gl_textures : list Z;        (* names generated and not deleted, oldest first *)
  gl_active : Z;               (* the active texture unit *)
  gl_bound : list (Z * Z);     (* unit -> texture bound to GL_TEXTURE_2D *)
  gl_calls : list GLCall       (* every call received, oldest first *)
}.

Definition gl_binding (unit : Z) (g : GLContext) : Z :=
  match find (fun p => fst p =? unit) (gl_bound g) with
  | Some p => snd p
  | None => 0
  end.

(** [glIsTexture] *)
Definition gl_is_texture (name : Z) (g : GLContext) : bool :=
  existsb (Z.eqb name) (gl_textures g).

Definition gl_GenTextures (g : GLContext) : Z * GLContext :=
  (gl_next g,
   mkGL (gl_next g + 1) (gl_textures g ++ [gl_next g]) (gl_active g)
        (gl_bound g) (gl_calls g ++ [GenTextures (gl_next g)])).

Definition gl_BindTexture (target : GLenum) (texture : Z) (g : GLContext) : GLContext :=
  mkGL (gl_next g) (gl_textures g) (gl_active g)
       ((gl_active g, texture) :: gl_bound g)
       (gl_calls g ++ [BindTexture target texture]).

Definition gl_ActiveTexture (unit : Z) (g : GLContext) : GLContext :=
  mkGL (gl_next g) (gl_textures g) unit (gl_bound g)
       (gl_calls g ++ [ActiveTexture unit]).

(** Calls that only configure or fill the bound texture object. *)
Definition gl_record (c : GLCall) (g : GLContext) : GLContext :=
  mkGL (gl_next g) (gl_textures g) (gl_active g) (gl_bound g) (gl_calls g ++ [c]).

Inductive UniformValue :=
| IntValue (i : Z)
| FloatValue (f : R)
| Vec2Value (v : vec2)
| Vec3Value (v : vec3)
| Vec4Value (v : vec4)
| Mat4Value (m : mat4)
| Sampler2DValue (slot : Z).

Inductive Shape :=
| Plane | Box | Prism | Cylinder | TaperedCylinder | Cone | Sphere | Torus.

Record OBJECT_MATERIAL := mkMaterial {
  ambientColor : vec3;
  ambientStrength : R;
  diffuseColor : vec3;
  specularColor : vec3;
  shininess : R;
  material_tag : string
}.

Record TEXTURE_INFO := mkTexture { texture_tag : string; texture_ID : Z }.

(** Everything outside the scene manager object. *)
Record Env := mkEnv {
  files : string -> option Image;  (* what the decoder finds at a path *)
  stbi_flip : bool;                (* flip-vertically-on-load mode *)
  stbi_images : Z;                 (* decoded buffers not yet freed *)
  cout : list Message;             (* lines printed, oldest first *)
  gl : GLContext;
  uniforms : list (string * UniformValue);
                                   (* writes the shader manager received,
                                      oldest first *)
  meshes_loaded : list Shape;      (* Load...Mesh calls, oldest first *)
  meshes_drawn : list Shape;       (* Draw...Mesh calls, oldest first *)
  uninitialized : OBJECT_MATERIAL  (* what a local OBJECT_MATERIAL holds
                                      before anything is assigned to it *)
}.

Definition with_gl (g : GLContext) (e : Env) : Env :=
  mkEnv (files e) (stbi_flip e) (stbi_images e) (cout e) g (uniforms e)
        (meshes_loaded e) (meshes_drawn e) (uninitialized e).

Definition with_uniforms (u : list (string * UniformValue)) (e : Env) : Env :=
  mkEnv (files e) (stbi_flip e) (stbi_images e) (cout e) (gl e) u
        (meshes_loaded e) (meshes_drawn e) (uninitialized e).

Definition with_cout (c : list Message) (e : Env) : Env :=
  mkEnv (files e) (stbi_flip e) (stbi_images e) c (gl e) (uniforms e)
        (meshes_loaded e) (meshes_drawn e) (uninitialized e).

Definition with_stbi (flip : bool) (n : Z) (e : Env) : Env :=
  mkEnv (files e) flip n (cout e) (gl e) (uniforms e)
        (meshes_loaded e) (meshes_drawn e) (uninitialized e).

Definition with_meshes (l d : list Shape) (e : Env) : Env :=
  mkEnv (files e) (stbi_flip e) (stbi_images e) (cout e) (gl e) (uniforms e)
        l d (uninitialized e).

(* ------------------------------------------------------------------ *)
(** * The scene manager object and the monad of its methods *)
(* ------------------------------------------------------------------ *)

Inductive ShaderPtr := NullShader | TheShader.

Record SceneManager := mkSceneManager {
  m_pShaderManager : ShaderPtr;
  m_textureIDs : list TEXTURE_INFO;        (* the fixed array of slots *)
  m_loadedTextures : Z;
  m_objectMaterials : list OBJECT_MATERIAL
}.

Inductive Fault := NullDereference | OutOfBounds.

Inductive Outcome (A : Type) :=
| Ok (a : A)
| Crash (f : Fault).
Arguments Ok {A} a.
Arguments Crash {A} f.

(** A method reads and updates the object and the environment, and may
    crash. *)
Definition M (A : Type) : Type :=
  SceneManager -> Env -> Outcome (A * SceneManager * Env).

Definition ret {A} (a : A) : M A := fun sm e => Ok (a, sm, e).

Definition bind {A B} (m : M A) (k : A -> M B) : M B :=
  fun sm e =>
    match m sm e with
    | Ok (a, sm', e') => k a sm' e'
    | Crash f => Crash f
    end.

Definition crash {A} (f : Fault) : M A := fun _ _ => Crash f.

Declare Scope scene_scope.
Delimit Scope scene_scope with scene.
Notation "x <- m ;; k" := (bind m (fun x => k))
  (at level 61, m at next level, right associativity) : scene_scope.
Notation "m ;; k" := (bind m (fun _ => k))
  (at level 61, right associativity) : scene_scope.
Local Open Scope scene_scope.

Definition this : M SceneManager := fun sm e => Ok (sm, sm, e).
Definition env : M Env := fun sm e => Ok (e, sm, e).
Definition set_this (sm' : SceneManager) : M unit := fun _ e => Ok (tt, sm', e).
Definition on_env (f : Env -> Env) : M unit := fun sm e => Ok (tt, sm, f e).

(** ** Calls into the collaborators *)

Definition stbi_set_flip_vertically_on_load (b : bool) : M unit :=
  on_env (fun e => with_stbi b (stbi_images e) e).

Definition stbi_load (filename : string) : M (option Image) :=
  e <- env ;;
  match files e filename with
  | Some img => on_env (fun e => with_stbi (stbi_flip e) (stbi_images e + 1) e) ;;
                ret (Some img)
  | None => ret None
  end.

Definition stbi_image_free : M unit :=
  on_env (fun e => with_stbi (stbi_flip e) (stbi_images e - 1) e).

Definition print (m : Message) : M unit :=
  on_env (fun e => with_cout (cout e ++ [m]) e).

Definition glGenTextures : M Z :=
  e <- env ;;
  let (name, g) := gl_GenTextures (gl e) in
  on_env (with_gl g) ;; ret name.

Definition glBindTexture (target : GLenum) (texture : Z) : M unit :=
  on_env (fun e => with_gl (gl_BindTexture target texture (gl e)) e).

Definition glActiveTexture (texture : Z) : M unit :=
  on_env (fun e => with_gl (gl_ActiveTexture texture (gl e)) e).

Definition glTexParameteri (target pname param : GLenum) : M unit :=
  on_env (fun e => with_gl (gl_record (TexParameteri target pname param) (gl e)) e).

Definition glTexImage2D (target : GLenum) (level : Z) (internalformat : GLenum)
    (w h border : Z) (format type : GLenum) : M unit :=
  on_env (fun e => with_gl
    (gl_record (TexImage2D target level internalformat w h border format type) (gl e)) e).

Definition glGenerateMipmap (target : GLenum) : M unit :=
  on_env (fun e => with_gl (gl_record (GenerateMipmap target) (gl e)) e).

(** [m_pShaderManager->set...Value(name, value)]: dereferences the pointer. *)
Definition shader_set (name : string) (v : UniformValue) : M unit :=
  sm <- this ;;
  match m_pShaderManager sm with
  | NullShader => crash NullDereference
  | TheShader => on_env (fun e => with_uniforms (uniforms e ++ [(name, v)]) e)
  end.

Definition LoadMesh (s : Shape) : M unit :=
  on_env (fun e => with_meshes (meshes_loaded e ++ [s]) (meshes_drawn e) e).

Definition DrawMesh (s : Shape) : M unit :=
  on_env (fun e => with_meshes (meshes_loaded e) (meshes_drawn e ++ [s]) e).

(* ------------------------------------------------------------------ *)
(** * Texture slots *)
(* ------------------------------------------------------------------ *)

(** [GLuint]/[uint32_t] from [int], and back. *)
Definition uint32_of_int (z : Z) : Z := z mod 2 ^ 32.
Definition int_of_uint32 (z : Z) : Z := if z <? 2 ^ 31 then z else z - 2 ^ 32.

(** Modelled from the spec: the declaration of the array [m_textureIDs] is in
    SceneManager.h, which is not among the sources; it has the 16 slots the
    constructor initialises. *)
Definition TEXTURE_SLOTS : nat := 16.

(** [a[i]], when [i] is inside the array. *)
Definition slot (a : list TEXTURE_INFO) (i : Z) : option TEXTURE_INFO :=
  if i <? 0 then None else nth_error a (Z.to_nat i).

Fixpoint replace_nth (n : nat) (t : TEXTURE_INFO) (a : list TEXTURE_INFO)
  : list TEXTURE_INFO :=
  match a, n with
  | [], _ => []
  | _ :: r, O => t :: r
  | x :: r, S k => x :: replace_nth k t r
  end.

(** [m_textureIDs[i]] read: outside the array it is a crash. *)
Definition textureIDs_at (i : Z) : M TEXTURE_INFO :=
  sm <- this ;;
  match slot (m_textureIDs sm) i with
  | Some t => ret t
  | None => crash OutOfBounds
  end.

(** An assignment to a member of [m_textureIDs[i]]. *)
Definition textureIDs_assign (i : Z) (f : TEXTURE_INFO -> TEXTURE_INFO) : M unit :=
  sm <- this ;;
  match slot (m_textureIDs sm) i with
  | Some t =>
      set_this (mkSceneManager (m_pShaderManager sm)
                  (replace_nth (Z.to_nat i) (f t) (m_textureIDs sm))
                  (m_loadedTextures sm) (m_objectMaterials sm))
  | None => crash OutOfBounds
  end.

Definition set_ID (id : Z) (t : TEXTURE_INFO) : TEXTURE_INFO :=
  mkTexture (texture_tag t) id.
Definition set_tag (tag : string) (t : TEXTURE_INFO) : TEXTURE_INFO :=
  mkTexture tag (texture_ID t).

Definition set_loadedTextures (n : Z) : M unit :=
  sm <- this ;;
  set_this (mkSceneManager (m_pShaderManager sm) (m_textureIDs sm) n
              (m_objectMaterials sm)).

Definition materials_push_back (m : OBJECT_MATERIAL) : M unit :=
  sm <- this ;;
  set_this (mkSceneManager (m_pShaderManager sm) (m_textureIDs sm)
              (m_loadedTextures sm) (m_objectMaterials sm ++ [m])).

(** [for (int i = lo; i < hi; i++) body(i)], for a bound the body does not
    change: [count] is the number of iterations left. *)
Fixpoint for_count (count : nat) (i : Z) (body : Z -> M unit) : M unit :=
  match count with
  | O => ret tt
  | S c => body i ;; for_count c (i + 1) body
  end.

Definition for_range (lo hi : Z) (body : Z -> M unit) : M unit :=
  for_count (Z.to_nat (hi - lo)) lo body.

(** ** SceneManager::SceneManager *)
Definition SceneManager_new (pShaderManager : ShaderPtr) : SceneManager :=
  mkSceneManager pShaderManager
    (repeat (mkTexture "/0" (uint32_of_int (-1))) TEXTURE_SLOTS)
    0 [].

(** ** CreateGLTexture *)
Definition CreateGLTexture (filename : string) (tag : string) : M bool :=
  stbi_set_flip_vertically_on_load true ;;
  image <- stbi_load filename ;;
  match image with
  | Some img =>
      print (SuccessfullyLoaded filename (width img) (height img) (colorChannels img)) ;;
      textureID <- glGenTextures ;;
      glBindTexture GL_TEXTURE_2D textureID ;;
      glTexParameteri GL_TEXTURE_2D GL_TEXTURE_WRAP_S GL_REPEAT ;;
      glTexParameteri GL_TEXTURE_2D GL_TEXTURE_WRAP_T GL_REPEAT ;;
      glTexParameteri GL_TEXTURE_2D GL_TEXTURE_MIN_FILTER GL_LINEAR ;;
      glTexParameteri GL_TEXTURE_2D GL_TEXTURE_MAG_FILTER GL_LINEAR ;;
      uploaded <-
        (if colorChannels img =? 3 then
           glTexImage2D GL_TEXTURE_2D 0 GL_RGB8 (width img) (height img) 0
                        GL_RGB GL_UNSIGNED_BYTE ;;
           ret true
         else if colorChannels img =? 4 then
           glTexImage2D GL_TEXTURE_2D 0 GL_RGBA8 (width img) (height img) 0
                        GL_RGBA GL_UNSIGNED_BYTE ;;
           ret true
         else
           print (NotImplemented (colorChannels img)) ;;
           ret false) ;;
      if uploaded then
        glGenerateMipmap GL_TEXTURE_2D ;;
        stbi_image_free ;;
        glBindTexture GL_TEXTURE_2D 0 ;;
        sm <- this ;;
        textureIDs_assign (m_loadedTextures sm) (set_ID textureID) ;;
        textureIDs_assign (m_loadedTextures sm) (set_tag tag) ;;
        set_loadedTextures (m_loadedTextures sm + 1) ;;
        ret true
      else
        (* the [return false] of the last branch above *)
        ret false
  | None =>
      print (CouldNotLoad filename) ;;
      ret false
  end.

(** ** BindGLTextures
    The unit [GL_TEXTURE0 + i] is recorded as [i]. *)
Definition BindGLTextures : M unit :=
  sm <- this ;;
  for_range 0 (m_loadedTextures sm) (fun i =>
    glActiveTexture i ;;
    t <- textureIDs_at i ;;
    glBindTexture GL_TEXTURE_2D (texture_ID t)).

(** ** DestroyGLTextures *)
Definition DestroyGLTextures : M unit :=
  sm <- this ;;
  for_range 0 (m_loadedTextures sm) (fun i =>
    (* glGenTextures(1, &m_textureIDs[i].ID) *)
    name <- glGenTextures ;;
    textureIDs_assign i (set_ID name)).

(** ** FindTextureID
    [steps] is the loop's variant [m_loadedTextures - index]; the loop ends
    when it reaches zero or when the tag is found. *)
Fixpoint FindTextureID_loop (steps : nat) (tag : string) (index : Z) : M Z :=
  match steps with
  | O => ret (-1)
  | S n =>
      t <- textureIDs_at index ;;
      if String.eqb (texture_tag t) tag
      then ret (int_of_uint32 (texture_ID t))
      else FindTextureID_loop n tag (index + 1)
  end.

Definition FindTextureID (tag : string) : M Z :=
  sm <- this ;;
  FindTextureID_loop (Z.to_nat (m_loadedTextures sm)) tag 0.

(** ** FindTextureSlot *)
Fixpoint FindTextureSlot_loop (steps : nat) (tag : string) (index : Z) : M Z :=
  match steps with
  | O => ret (-1)
  | S n =>
      t <- textureIDs_at index ;;
      if String.eqb (texture_tag t) tag
      then ret index
      else FindTextureSlot_loop n tag (index + 1)
  end.

Definition FindTextureSlot (tag : string) : M Z :=
  sm <- this ;;
  FindTextureSlot_loop (Z.to_nat (m_loadedTextures sm)) tag 0.

(* ------------------------------------------------------------------ *)
(** * Materials *)
(* ------------------------------------------------------------------ *)

(** The five member assignments of [FindMaterial]; the tag of [material] is
    not assigned. *)
Definition copy_coefficients (from material : OBJECT_MATERIAL) : OBJECT_MATERIAL :=
  mkMaterial (ambientColor from) (ambientStrength from) (diffuseColor from)
             (specularColor from) (shininess from) (material_tag material).

(** The search loop over the entries from [index] on: the final [bFound] and
    the final contents of [material]. *)
Fixpoint FindMaterial_loop (rest : list OBJECT_MATERIAL) (tag : string)
    (material : OBJECT_MATERIAL) : bool * OBJECT_MATERIAL :=
  match rest with
  | [] => (false, material)
  | m :: rest' =>
      if String.eqb (material_tag m) tag
      then (true, copy_coefficients m material)
      else FindMaterial_loop rest' tag material
  end.

(** ** FindMaterial
    The reference parameter is passed in and handed back.  The function ends
    in [return(true)] whatever [bFound] is. *)
Definition FindMaterial (tag : string) (material : OBJECT_MATERIAL)
  : M (bool * OBJECT_MATERIAL) :=
  sm <- this ;;
  if Z.of_nat (List.length (m_objectMaterials sm)) =? 0 then
    ret (false, material)
  else
    let (bFound, material') := FindMaterial_loop (m_objectMaterials sm) tag material in
    ret (true, material').

(* ------------------------------------------------------------------ *)
(** * Writing uniforms *)
(* ------------------------------------------------------------------ *)

Definition g_ModelName := "model".
Definition g_ColorValueName := "objectColor".
Definition g_TextureValueName := "objectTexture".
Definition g_UseTextureName := "bUseTexture".
Definition g_UseLightingName := "bUseLighting".

Definition int_of_bool (b : bool) : Z := if b then 1 else 0.

(** The matrix [SetTransformations] computes. *)
Definition modelView (scaleXYZ : vec3) (XrotationDegrees YrotationDegrees
    ZrotationDegrees : R) (positionXYZ : vec3) : mat4 :=
  let scale := Glm.scale scaleXYZ in
  let rotationX := rotate (radians XrotationDegrees) (mkvec3 1 0 0) in
  let rotationY := rotate (radians YrotationDegrees) (mkvec3 0 1 0) in
  let rotationZ := rotate (radians ZrotationDegrees) (mkvec3 0 0 1) in
  let translation := translate positionXYZ in
  mat4_mul (mat4_mul (mat4_mul (mat4_mul translation rotationX) rotationY) rotationZ)
           scale.

(** ** SetTransformations *)
Definition SetTransformations (scaleXYZ : vec3) (XrotationDegrees
    YrotationDegrees ZrotationDegrees : R) (positionXYZ : vec3) : M unit :=
  sm <- this ;;
  match m_pShaderManager sm with
  | NullShader => ret tt
  | TheShader =>
      shader_set g_ModelName
        (Mat4Value (modelView scaleXYZ XrotationDegrees YrotationDegrees
                              ZrotationDegrees positionXYZ))
  end.

(** ** SetShaderColor *)
Definition SetShaderColor (redColorValue greenColorValue blueColorValue
    alphaValue : R) : M unit :=
  let currentColor := mkvec4 redColorValue greenColorValue blueColorValue alphaValue in
  sm <- this ;;
  match m_pShaderManager sm with
  | NullShader => ret tt
  | TheShader =>
      shader_set g_UseTextureName (IntValue (int_of_bool false)) ;;
      shader_set g_ColorValueName (Vec4Value currentColor)
  end.

(** ** SetShaderTexture *)
Definition SetShaderTexture (textureTag : string) : M unit :=
  sm <- this ;;
  match m_pShaderManager sm with
  | NullShader => ret tt
  | TheShader =>
      shader_set g_UseTextureName (IntValue (int_of_bool true)) ;;
      textureID <- FindTextureSlot textureTag ;;
      shader_set g_TextureValueName (Sampler2DValue textureID)
  end.

(** ** SetTextureUVScale *)
Definition SetTextureUVScale (u v : R) : M unit :=
  sm <- this ;;
  match m_pShaderManager sm with
  | NullShader => ret tt
  | TheShader => shader_set "UVscale" (Vec2Value (mkvec2 u v))
  end.

(** ** SetShaderMaterial
    There is no test of [m_pShaderManager] here. *)
Definition SetShaderMaterial (materialTag : string) : M unit :=
  sm <- this ;;
  if Z.of_nat (List.length (m_objectMaterials sm)) >? 0 then
    e <- env ;;
    r <- FindMaterial materialTag (uninitialized e) ;;
    let (bReturn, material) := r in
    if bReturn then
      shader_set "material.ambientColor" (Vec3Value (ambientColor material)) ;;
      shader_set "material.ambientStrength" (FloatValue (ambientStrength material)) ;;
      shader_set "material.diffuseColor" (Vec3Value (diffuseColor material)) ;;
      shader_set "material.specularColor" (Vec3Value (specularColor material)) ;;
      shader_set "material.shininess" (FloatValue (shininess material))
    else ret tt
  else ret tt.

(* ------------------------------------------------------------------ *)
(** * Preparing the scene *)
(* ------------------------------------------------------------------ *)

(** ** LoadSceneTextures
    Each [bReturn] is assigned and never read. *)
Definition LoadSceneTextures : M unit :=
  bReturn <- CreateGLTexture "../../Utilities/textures/bluefur.jpg" "fur" ;;
  bReturn <- CreateGLTexture "../../Utilities/textures/blackplastic.jpg" "black" ;;
  bReturn <- CreateGLTexture "../../Utilities/textures/glass.jpg" "glass" ;;
  bReturn <- CreateGLTexture "../../Utilities/textures/drywall.jpg" "wall" ;;
  bReturn <- CreateGLTexture "../../Utilities/textures/keyboard.jpg" "keyboard" ;;
  bReturn <- CreateGLTexture "../../Utilities/textures/screen.jpg" "screen" ;;
  bReturn <- CreateGLTexture "../../Utilities/textures/book.jpg" "book" ;;
  bReturn <- CreateGLTexture "../../Utilities/textures/pages.jpg" "pages" ;;
  bReturn <- CreateGLTexture "../../Utilities/textures/headphones.jpg" "headphones" ;;
  bReturn <- CreateGLTexture "../../Utilities/textures/room.jpg" "floor" ;;
  BindGLTextures.

Definition furmaterial : OBJECT_MATERIAL :=
  mkMaterial (mkvec3 0.1 0.1 0.1) 0.3 (mkvec3 0.1 0.1 0.1) (mkvec3 0.1 0.1 0.1)
             0.2 "fur".

Definition wallmaterial : OBJECT_MATERIAL :=
  mkMaterial (mkvec3 0.01 0.01 0.01) 0.1 (mkvec3 0.0 0.0 0.0) (mkvec3 0.0 0.0 0.0)
             0.1 "wall".

(** ** DefineObjectMaterials
    [wallmaterial] is built and not used: both [push_back]s are given
    [furmaterial]. *)
Definition DefineObjectMaterials : M unit :=
  materials_push_back furmaterial ;;
  let unused := wallmaterial in
  materials_push_back furmaterial.

(** ** SetupSceneLights
    There is no test of [m_pShaderManager] here. *)
Definition SetupSceneLights : M unit :=
  shader_set "lightSources[0].position" (Vec3Value (mkvec3 0.0 3.0 20.0)) ;;
  shader_set "lightSources[0].ambientColor" (Vec3Value (mkvec3 0.1 0.1 0.1)) ;;
  shader_set "lightSources[0].diffuseColor" (Vec3Value (mkvec3 0.2 0.2 0.2)) ;;
  shader_set "lightSources[0].specularColor" (Vec3Value (mkvec3 0.0 0.0 0.0)) ;;
  shader_set "lightSources[0].focalStrength" (FloatValue 12.0) ;;
  shader_set "lightSources[0].specularIntensity" (FloatValue 0.2) ;;
  shader_set "lightSources[1].position" (Vec3Value (mkvec3 (-3.0) 4.0 6.0)) ;;
  shader_set "lightSources[1].ambientColor" (Vec3Value (mkvec3 0.01 0.01 0.01)) ;;
  shader_set "lightSources[1].diffuseColor" (Vec3Value (mkvec3 0.5 0.5 0.5)) ;;
  shader_set "lightSources[1].specularColor" (Vec3Value (mkvec3 0.2 0.2 0.2)) ;;
  shader_set "lightSources[1].focalStrength" (FloatValue 32.0) ;;
  shader_set "lightSources[1].specularIntensity" (FloatValue 0.2).

(** ** PrepareScene *)
Definition PrepareScene : M unit :=
  LoadSceneTextures ;;
  DefineObjectMaterials ;;
  SetupSceneLights ;;
  LoadMesh Plane ;;
  LoadMesh Box ;;
  LoadMesh Prism ;;
  LoadMesh Cylinder ;;
  LoadMesh TaperedCylinder ;;
  LoadMesh Cone ;;
  LoadMesh Sphere ;;
  LoadMesh Torus.

(* ------------------------------------------------------------------ *)
(** * Rendering the scene *)
(* ------------------------------------------------------------------ *)

(** The render methods are straight-line sequences of five kinds of call.
    Each method is given as the list of its calls, in source order, with the
    values its local variables hold at the call. *)
Inductive Call :=
| SetTransformations' (scaleXYZ : vec3) (XrotationDegrees YrotationDegrees
                       ZrotationDegrees : R) (positionXYZ : vec3)
| SetShaderTexture' (textureTag : string)
| SetShaderMaterial' (materialTag : string)
| SetTextureUVScale' (u v : R)
| Draw (mesh : Shape).

Definition perform (c : Call) : M unit :=
  match c with
  | SetTransformations' s rx ry rz p => SetTransformations s rx ry rz p
  | SetShaderTexture' t => SetShaderTexture t
  | SetShaderMaterial' t => SetShaderMaterial t
  | SetTextureUVScale' u v => SetTextureUVScale u v
  | Draw mesh => DrawMesh mesh
  end.

Fixpoint perform_all (cs : list Call) : M unit :=
  match cs with
  | [] => ret tt
  | c :: rest => perform c ;; perform_all rest
  end.

(** The calls of [RenderScene] before it calls the four composers. *)
Definition RenderScene_own : list Call :=
  [ SetTransformations' (mkvec3 15.0 0.5 15.0) 0.0 0.0 0.0 (mkvec3 0.0 (-2.0) 0.0);
    SetShaderTexture' "glass";
    SetShaderMaterial' "wall";
    SetTextureUVScale' 1 1;
    Draw Cylinder;

    SetTransformations' (mkvec3 50.0 1.0 50.0) 90.0 0.0 0.0 (mkvec3 0.0 15.0 (-20.0));
    SetShaderTexture' "wall";
    SetShaderMaterial' "wall";
    SetTextureUVScale' 1 1;
    Draw Plane;

    (* the floor *)
    SetTransformations' (mkvec3 50.0 1.0 50.0) 0.0 0.0 0.0 (mkvec3 0.0 (-27.5) 0.0);
    SetShaderTexture' "floor";
    SetTextureUVScale' 1 1;
    SetShaderMaterial' "wall";
    Draw Plane ].

Definition RenderDolphin_calls : list Call :=
  [ (* main body *)
    SetTransformations' (mkvec3 2.0 5.0 2.0) 0.0 45.0 90.0 (mkvec3 7.0 1.0 7.0);
    SetShaderTexture' "fur";
    SetTextureUVScale' 1 1;
    SetShaderMaterial' "fur";
    Draw Cylinder;

    (* end of the dolphin *)
    SetTransformations' (mkvec3 2.0 4.0 2.0) 0.0 45.0 270.0 (mkvec3 7.0 1.0 7.0);
    SetShaderTexture' "fur";
    SetTextureUVScale' 1 1;
    SetShaderMaterial' "fur";
    Draw TaperedCylinder;

    (* head *)
    SetTransformations' (mkvec3 2.0 2.0 2.0) 0.0 0.0 0.0 (mkvec3 3.0 1.0 11.0);
    SetShaderTexture' "fur";
    SetTextureUVScale' 1 1;
    SetShaderMaterial' "fur";
    Draw Sphere;

    (* snout *)
    SetTransformations' (mkvec3 1.0 2.0 1.0) 0.0 45.0 100.0 (mkvec3 2 0.5 12.0);
    SetShaderTexture' "fur";
    SetTextureUVScale' 1 1;
    SetShaderMaterial' "fur";
    Draw Cone;

    (* tail area *)
    SetTransformations' (mkvec3 0.9 0.9 0.9) 0.0 0.0 0.0 (mkvec3 9.95 1.05 4.25);
    SetShaderTexture' "fur";
    SetTextureUVScale' 1 1;
    SetShaderMaterial' "fur";
    Draw Sphere;

    (* top fin *)
    SetTransformations' (mkvec3 1.0 0.25 1.5) (-90.0) 0.0 45.0 (mkvec3 5.0 3.5 9.0);
    SetShaderTexture' "fur";
    SetTextureUVScale' 1 1;
    SetShaderMaterial' "fur";
    Draw Prism;

    (* left fin *)
    SetTransformations' (mkvec3 1.0 0.5 2.0) 15.0 25.0 0.0 (mkvec3 6.0 0.0 11.5);
    SetShaderTexture' "fur";
    SetTextureUVScale' 1 1;
    SetShaderMaterial' "fur";
    Draw Prism;

    (* tail fins *)
    SetTransformations' (mkvec3 2.0 0.5 2.0) 10.0 (-45.0) 0.0 (mkvec3 10.8 1.0 4.0);
    SetShaderTexture' "fur";
    SetShaderMaterial' "fur";
    SetTextureUVScale' 1 1;
    Draw Prism;

    (* eyes *)
    SetTransformations' (mkvec3 0.25 0.45 0.25) 0.0 0.0 0.0 (mkvec3 3.25 1.60 13.15);
    SetShaderTexture' "black";
    SetShaderMaterial' "fur";
    SetTextureUVScale' 1 1;
    Draw Sphere;

    SetTransformations' (mkvec3 0.25 0.45 0.25) 0.0 0.0 0.0 (mkvec3 1.25 1.60 11.0);
    SetShaderTexture' "black";
    SetShaderMaterial' "fur";
    SetTextureUVScale' 1 1;
    Draw Sphere ].

Definition RenderLaptop_calls : list Call :=
  [ (* bottom part *)
    SetTransformations' (mkvec3 10.25 0.2 8.25) 5.0 0.0 0.0 (mkvec3 (-0.5) 0.0 4.0);
    SetShaderTexture' "keyboard";
    SetTextureUVScale' 1 1;
    Draw Box;

    (* screen *)
    SetTransformations' (mkvec3 10.25 0.2 8.25) 90.0 0.0 0.0 (mkvec3 (-0.5) 3.0 (-0.5));
    SetShaderTexture' "screen";
    SetTextureUVScale' 1 1;
    Draw Box ].

Definition RenderBook_calls : list Call :=
  [ SetTransformations' (mkvec3 7.0 1.5 5.0) 0.0 (-20.0) 0.0 (mkvec3 (-5.5) 0.0 9.75);
    SetShaderTexture' "book";
    SetTextureUVScale' 1 1;
    Draw Box;

    SetTransformations' (mkvec3 6.8 1.3 4.8) 0.0 (-20.0) 0.0 (mkvec3 (-5.375) 0.0 9.75);
    SetShaderTexture' "pages";
    SetTextureUVScale' 1 1;
    Draw Box ].

Definition RenderHeadPhones_calls : list Call :=
  [ (* top part *)
    SetTransformations' (mkvec3 2.5 2.5 1.5) 90.0 0.0 0.0 (mkvec3 (-5.375) 1.0 9.75);
    SetShaderTexture' "black";
    SetTextureUVScale' 1 1;
    Draw Torus;

    (* right part *)
    SetTransformations' (mkvec3 1.65 0.75 1.65) 0.0 0.0 0.0 (mkvec3 (-3.75) 0.8 11.5);
    SetShaderTexture' "headphones";
    SetTextureUVScale' 1 1;
    Draw TaperedCylinder;

    (* left part *)
    SetTransformations' (mkvec3 1.65 0.75 1.65) 0.0 0.0 0.0 (mkvec3 (-3.0) 0.8 9.75);
    SetShaderTexture' "headphones";
    SetTextureUVScale' 1 1;
    Draw TaperedCylinder ].

Definition RenderDolphin : M unit := perform_all RenderDolphin_calls.
Definition RenderLaptop : M unit := perform_all RenderLaptop_calls.
Definition RenderBook : M unit := perform_all RenderBook_calls.
Definition RenderHeadPhones : M unit := perform_all RenderHeadPhones_calls.

(** ** RenderScene *)
Definition RenderScene : M unit :=
  perform_all RenderScene_own ;;
  RenderDolphin ;;
  RenderLaptop ;;
  RenderBook ;;
  RenderHeadPhones.

(** Every call one frame makes, in order. *)
Definition RenderScene_calls : list Call :=
  RenderScene_own ++ RenderDolphin_calls ++ RenderLaptop_calls
    ++ RenderBook_calls ++ RenderHeadPhones_calls.

(* ------------------------------------------------------------------ *)
(** * Vocabulary of the statements *)
(* ------------------------------------------------------------------ *)

(** The five writes [SetShaderMaterial] makes for the material [m]. *)
Definition material_writes (m : OBJECT_MATERIAL) : list (string * UniformValue) :=
  [ ("material.ambientColor", Vec3Value (ambientColor m));
    ("material.ambientStrength", FloatValue (ambientStrength m));
    ("material.diffuseColor", Vec3Value (diffuseColor m));
    ("material.specularColor", Vec3Value (specularColor m));
    ("material.shininess", FloatValue (shininess m)) ].

(** The environment after the common beginning of a load that decodes: flip
    mode set, one more image buffer, the first message printed, a texture name
    generated, bound and configured. *)
Definition after_configure (filename : string) (img : Image) (e : Env) : Env :=
  mkEnv (files e) true (stbi_images e + 1)
    (cout e ++ [SuccessfullyLoaded filename (width img) (height img) (colorChannels img)])
    (gl_record (TexParameteri GL_TEXTURE_2D GL_TEXTURE_MAG_FILTER GL_LINEAR)
       (gl_record (TexParameteri GL_TEXTURE_2D GL_TEXTURE_MIN_FILTER GL_LINEAR)
          (gl_record (TexParameteri GL_TEXTURE_2D GL_TEXTURE_WRAP_T GL_REPEAT)
             (gl_record (TexParameteri GL_TEXTURE_2D GL_TEXTURE_WRAP_S GL_REPEAT)
                (gl_BindTexture GL_TEXTURE_2D (gl_next (gl e))
                   (snd (gl_GenTextures (gl e))))))))
    (uniforms e) (meshes_loaded e) (meshes_drawn e) (uninitialized e).

(** The environment at the end of a load of an image with 3 or 4 channels. *)
Definition after_upload (filename : string) (img : Image) (e : Env) : Env :=
  let e1 := after_configure filename img e in
  let internalformat := if colorChannels img =? 3 then GL_RGB8 else GL_RGBA8 in
  let format := if colorChannels img =? 3 then GL_RGB else GL_RGBA in
  mkEnv (files e) true (stbi_images e1 - 1) (cout e1)
    (gl_BindTexture GL_TEXTURE_2D 0
       (gl_record (GenerateMipmap GL_TEXTURE_2D)
          (gl_record (TexImage2D GL_TEXTURE_2D 0 internalformat (width img)
                        (height img) 0 format GL_UNSIGNED_BYTE)
             (gl e1))))
    (uniforms e) (meshes_loaded e) (meshes_drawn e) (uninitialized e).

(** The environment at the end of a load of an image with another channel
    count. *)
Definition after_rejection (filename : string) (img : Image) (e : Env) : Env :=
  let e1 := after_configure filename img e in
  with_cout (cout e1 ++ [NotImplemented (colorChannels img)]) e1.

(** A sequence of [CreateGLTexture] calls, with the flag each returned. *)
Fixpoint LoadAll (loads : list (string * string)) : M (list bool) :=
  match loads with
  | [] => ret []
  | (filename, tag) :: rest =>
      b <- CreateGLTexture filename tag ;;
      bs <- LoadAll rest ;;
      ret (b :: bs)
  end.

(** The first entry of [l] carrying [tag], with its index counted from [i]. *)
Fixpoint position (tag : string) (l : list TEXTURE_INFO) (i : Z)
  : option (Z * TEXTURE_INFO) :=
  match l with
  | [] => None
  | t :: r => if String.eqb (texture_tag t) tag then Some (i, t)
              else position tag r (i + 1)
  end.

(** The entries a sequence of successful loads appends, given the names the
    context generated for them. *)
Definition loaded_entries (loads : list (string * string)) (handles : list Z)
  : list TEXTURE_INFO :=
  map (fun p => mkTexture (snd (fst p)) (snd p)) (combine loads handles).

(** What a recorder of draw calls notes for each draw: the mesh, and the tags
    of the [SetShaderTexture] and [SetShaderMaterial] calls made since the
    previous draw, if any. *)
Record DrawRecord := mkDraw {
  drawn_mesh : Shape;
  drawn_texture : option string;
  drawn_material : option string
}.

Fixpoint draw_records_from (cs : list Call) (texture material : option string)
  : list DrawRecord :=
  match cs with
  | [] => []
  | SetShaderTexture' t :: rest => draw_records_from rest (Some t) material
  | SetShaderMaterial' t :: rest => draw_records_from rest texture (Some t)
  | Draw mesh :: rest => mkDraw mesh texture material :: draw_records_from rest None None
  | _ :: rest => draw_records_from rest texture material
  end.

Definition draw_records (cs : list Call) : list DrawRecord :=
  draw_records_from cs None None.

(** The calls split at each draw: every group ends with its draw. *)
Fixpoint groups_from (cs : list Call) (current : list Call) : list (list Call) :=
  match cs with
  | [] => match current with [] => [] | _ => [current] end
  | Draw mesh :: rest => (current ++ [Draw mesh]) :: groups_from rest []
  | c :: rest => groups_from rest (current ++ [c])
  end.

Definition is_SetTransformations (c : Call) : bool :=
  match c with SetTransformations' _ _ _ _ _ => true | _ => false end.

(** A group that sets its transform first and once, and ends with its draw. *)
Definition transform_first (g : list Call) : bool :=
  match g with
  | SetTransformations' _ _ _ _ _ :: rest =>
      forallb (fun c => negb (is_SetTransformations c)) rest
      && match rev rest with Draw _ :: _ => true | _ => false end
  | _ => false
  end.

Definition draws_of (cs : list Call) : list Shape :=
  flat_map (fun c => match c with Draw mesh => [mesh] | _ => [] end) cs.

(** The sequence expected of one frame. *)
Definition expected_frame : list DrawRecord :=
  [ mkDraw Cylinder (Some "glass") (Some "wall");
    mkDraw Plane (Some "wall") (Some "wall");
    mkDraw Plane (Some "floor") (Some "wall");
    mkDraw Cylinder (Some "fur") (Some "fur");
    mkDraw TaperedCylinder (Some "fur") (Some "fur");
    mkDraw Sphere (Some "fur") (Some "fur");
    mkDraw Cone (Some "fur") (Some "fur");
    mkDraw Sphere (Some "fur") (Some "fur");
    mkDraw Prism (Some "fur") (Some "fur");
    mkDraw Prism (Some "fur") (Some "fur");
    mkDraw Prism (Some "fur") (Some "fur");
    mkDraw Sphere (Some "black") (Some "fur");
    mkDraw Sphere (Some "black") (Some "fur");
    mkDraw Box (Some "keyboard") None;
    mkDraw Box (Some "screen") None;
    mkDraw Box (Some "book") None;
    mkDraw Box (Some "pages") None;
    mkDraw Torus (Some "black") None;
    mkDraw TaperedCylinder (Some "headphones") None;
    mkDraw TaperedCylinder (Some "headphones") None ].

(** The count of loaded textures does not exceed the array. *)
Definition within_slots (sm : SceneManager) : Prop :=
  m_loadedTextures sm <= Z.of_nat (List.length (m_textureIDs sm)).

(** Either a shader is bound or no material is registered. *)
Definition can_set_material (sm : SceneManager) : Prop :=
  m_pShaderManager sm = TheShader \/ m_objectMaterials sm = [].

(** ** The matrices the specification names *)
Module Textbook.
Local Open Scope R_scope.

(** The matrices the specification names, written column by column. *)
Definition T (t : vec3) : mat4 :=
  mkmat4 (mkvec4 1 0 0 0) (mkvec4 0 1 0 0) (mkvec4 0 0 1 0)
         (mkvec4 (v3x t) (v3y t) (v3z t) 1).

Definition S (s : vec3) : mat4 :=
  mkmat4 (mkvec4 (v3x s) 0 0 0) (mkvec4 0 (v3y s) 0 0) (mkvec4 0 0 (v3z s) 0)
         (mkvec4 0 0 0 1).

(** Rotation by [a] radians about the x axis. *)
Definition Rx (a : R) : mat4 :=
  mkmat4 (mkvec4 1 0 0 0) (mkvec4 0 (cos a) (sin a) 0)
         (mkvec4 0 (- sin a) (cos a) 0) (mkvec4 0 0 0 1).

Definition Ry (a : R) : mat4 :=
  mkmat4 (mkvec4 (cos a) 0 (- sin a) 0) (mkvec4 0 1 0 0)
         (mkvec4 (sin a) 0 (cos a) 0) (mkvec4 0 0 0 1).

Definition Rz (a : R) : mat4 :=
  mkmat4 (mkvec4 (cos a) (sin a) 0 0) (mkvec4 (- sin a) (cos a) 0 0)
         (mkvec4 0 0 1 0) (mkvec4 0 0 0 1).

(** Degrees to radians. *)
Definition rad (degrees : R) : R := degrees * PI / 180.

(** T(t) . Rx(rx) . Ry(ry) . Rz(rz) . S(s), angles in degrees. *)
Definition model (s : vec3) (rx ry rz : R) (t : vec3) : mat4 :=
  mat4_mul (mat4_mul (mat4_mul (mat4_mul (T t) (Rx (rad rx))) (Ry (rad ry)))
                     (Rz (rad rz)))
           (S s).

End Textbook.

(* ------------------------------------------------------------------ *)
(** * Concrete states *)
(* ------------------------------------------------------------------ *)

Definition zero_material : OBJECT_MATERIAL :=
  mkMaterial (mkvec3 0 0 0) 0 (mkvec3 0 0 0) (mkvec3 0 0 0) 0 "".

(** A context that has not generated any texture yet. *)
Definition new_context : GLContext := mkGL 1 [] 0 [] [].

(** A decoder that knows an RGB image, an RGBA image and a one-channel
    image. *)
Definition example_files (filename : string) : option Image :=
  if String.eqb filename "fur.jpg" then Some (mkImage 256 256 3)
  else if String.eqb filename "pages.jpg" then Some (mkImage 128 128 4)
  else if String.eqb filename "gray.jpg" then Some (mkImage 64 64 1)
  else None.

Definition example_env : Env :=
  mkEnv example_files false 0 [] new_context [] [] [] zero_material.

(** A manager with one material registered, with and without a shader. *)
Definition one_material (p : ShaderPtr) : SceneManager :=
  mkSceneManager p (m_textureIDs (SceneManager_new p)) 0 [furmaterial].

(** Sixteen loads of the RGB image under sixteen tags. *)
Definition sixteen_loads : list (string * string) :=
  map (fun tag => ("fur.jpg", tag))
    ["t0"; "t1"; "t2"; "t3"; "t4"; "t5"; "t6"; "t7";
     "t8"; "t9"; "t10"; "t11"; "t12"; "t13"; "t14"; "t15"].

Definition two_loads : list (string * string) :=
  [("fur.jpg", "fur"); ("pages.jpg", "pages")].

(* ------------------------------------------------------------------ *)
(** * Further vocabulary *)
(* ------------------------------------------------------------------ *)

(** The slots in use: the first [m_loadedTextures] of the array. *)
Definition loaded (sm : SceneManager) : list TEXTURE_INFO :=
  firstn (Z.to_nat (m_loadedTextures sm)) (m_textureIDs sm).

(** The array has its 16 slots and the count is between 0 and 16. *)
Definition slots_ok (sm : SceneManager) : Prop :=
  List.length (m_textureIDs sm) = TEXTURE_SLOTS /\ 0 <= m_loadedTextures sm <= 16.

(** The value a uniform holds after the writes of [log]: its last write. *)
Fixpoint last_write (name : string) (log : list (string * UniformValue))
  : option UniformValue :=
  match log with
  | [] => None
  | (n, v) :: rest =>
      match last_write name rest with
      | Some v' => Some v'
      | None => if String.eqb n name then Some v else None
      end
  end.

(** The files [LoadSceneTextures] asks for, with their tags, in order. *)
Definition scene_textures : list (string * string) :=
  [ ("../../Utilities/textures/bluefur.jpg", "fur");
    ("../../Utilities/textures/blackplastic.jpg", "black");
    ("../../Utilities/textures/glass.jpg", "glass");
    ("../../Utilities/textures/drywall.jpg", "wall");
    ("../../Utilities/textures/keyboard.jpg", "keyboard");
    ("../../Utilities/textures/screen.jpg", "screen");
    ("../../Utilities/textures/book.jpg", "book");
    ("../../Utilities/textures/pages.jpg", "pages");
    ("../../Utilities/textures/headphones.jpg", "headphones");
    ("../../Utilities/textures/room.jpg", "floor") ].

(** The file decodes, with 3 or 4 channels. *)
Definition loads_in (e : Env) (filename : string) : bool :=
  match files e filename with
  | Some img => (colorChannels img =? 3) || (colorChannels img =? 4)
  | None => false
  end.

(** The twelve writes of [SetupSceneLights]. *)
Definition light_writes : list (string * UniformValue) :=
  [ ("lightSources[0].position", Vec3Value (mkvec3 0.0 3.0 20.0));
    ("lightSources[0].ambientColor", Vec3Value (mkvec3 0.1 0.1 0.1));
    ("lightSources[0].diffuseColor", Vec3Value (mkvec3 0.2 0.2 0.2));
    ("lightSources[0].specularColor", Vec3Value (mkvec3 0.0 0.0 0.0));
    ("lightSources[0].focalStrength", FloatValue 12.0);
    ("lightSources[0].specularIntensity", FloatValue 0.2);
    ("lightSources[1].position", Vec3Value (mkvec3 (-3.0) 4.0 6.0));
    ("lightSources[1].ambientColor", Vec3Value (mkvec3 0.01 0.01 0.01));
    ("lightSources[1].diffuseColor", Vec3Value (mkvec3 0.5 0.5 0.5));
    ("lightSources[1].specularColor", Vec3Value (mkvec3 0.2 0.2 0.2));
    ("lightSources[1].focalStrength", FloatValue 32.0);
    ("lightSources[1].specularIntensity", FloatValue 0.2) ].

Definition all_meshes : list Shape :=
  [Plane; Box; Prism; Cylinder; TaperedCylinder; Cone; Sphere; Torus].

(** [n] frames, one after the other. *)
Fixpoint frames (n : nat) : M unit :=
  match n with
  | O => ret tt
  | S k => RenderScene ;; frames k
  end.

(** [n] copies of a list, one after the other. *)
Fixpoint copies {A} (n : nat) (l : list A) : list A :=
  match n with
  | O => []
  | S k => l ++ copies k l
  end.

(** [e'] differs from [e] at most in the uniform writes received and the
    meshes drawn: decoder, output, context and loaded meshes are the same. *)
Definition only_uniforms_and_draws (e e' : Env) : Prop :=
  files e' = files e /\ stbi_flip e' = stbi_flip e /\
  stbi_images e' = stbi_images e /\ cout e' = cout e /\ gl e' = gl e /\
  meshes_loaded e' = meshes_loaded e /\ uninitialized e' = uninitialized e.

(** The nine OpenGL calls of a load that succeeds, for the texture name
    [name] and the image [img]. *)
Definition upload_calls (name : Z) (img : Image) : list GLCall :=
  [ GenTextures name;
    BindTexture GL_TEXTURE_2D name;
    TexParameteri GL_TEXTURE_2D GL_TEXTURE_WRAP_S GL_REPEAT;
    TexParameteri GL_TEXTURE_2D GL_TEXTURE_WRAP_T GL_REPEAT;
    TexParameteri GL_TEXTURE_2D GL_TEXTURE_MIN_FILTER GL_LINEAR;
    TexParameteri GL_TEXTURE_2D GL_TEXTURE_MAG_FILTER GL_LINEAR;
    TexImage2D GL_TEXTURE_2D 0
      (if colorChannels img =? 3 then GL_RGB8 else GL_RGBA8)
      (width img) (height img) 0
      (if colorChannels img =? 3 then GL_RGB else GL_RGBA) GL_UNSIGNED_BYTE;
    GenerateMipmap GL_TEXTURE_2D;
    BindTexture GL_TEXTURE_2D 0 ].

(** A decoder for which every one of the scene's files is an RGB image. *)
Definition all_rgb (filename : string) : option Image := Some (mkImage 256 256 3).

Definition rgb_env : Env :=
  mkEnv all_rgb false 0 [] new_context [] [] [] zero_material.

(** Two loads under one tag. *)
Definition same_tag_loads : list (string * string) :=
  [("fur.jpg", "fur"); ("pages.jpg", "fur")].

(** A manager with two textures in use and both materials of the scene. *)
Definition two_textures (p : ShaderPtr) : SceneManager :=
  mkSceneManager p
    (mkTexture "fur" 1 :: mkTexture "pages" 2
       :: repeat (mkTexture "/0" (uint32_of_int (-1))) 14)
    2 [furmaterial; furmaterial].

(** An environment in which the textures 1 and 2 have been generated. *)
Definition two_textures_env : Env :=
  mkEnv example_files true 0 [] (mkGL 3 [1; 2] 0 [] []) [] [] [] zero_material.

(* ------------------------------------------------------------------ *)
(** * What a frame is seen to do: vocabulary *)
(* ------------------------------------------------------------------ *)

(** What the shader manager and the mesh library receive from the scene
    manager, in the order they receive it. *)
Inductive Event :=
| Wrote (name : string) (value : UniformValue)
| Drew (mesh : Shape).

Definition wrote (w : string * UniformValue) : Event := Wrote (fst w) (snd w).

(** What was received between [e] and a later environment [e'] of the same
    run: the uniform writes and the draws appended to the two logs. *)
Definition events_between (e e' : Env) : list Event :=
  map wrote (skipn (List.length (uniforms e)) (uniforms e'))
  ++ map Drew (skipn (List.length (meshes_drawn e)) (meshes_drawn e')).

(** The calls performed one after the other, noting after each call what it
    made the collaborators receive. *)
Fixpoint observe (cs : list Call) : M (list Event) :=
  match cs with
  | [] => ret []
  | c :: rest =>
      e <- env ;;
      perform c ;;
      e' <- env ;;
      events <- observe rest ;;
      ret (events_between e e' ++ events)
  end.

(** A draw as the collaborators saw it: the mesh, and the uniform writes
    received since the previous draw, in order. *)
Record Observed := mkObserved {
  observed_mesh : Shape;
  observed_writes : list (string * UniformValue)
}.

Fixpoint observed_from (events : list Event) (pending : list (string * UniformValue))
  : list Observed :=
  match events with
  | [] => []
  | Wrote name value :: rest => observed_from rest (pending ++ [(name, value)])
  | Drew mesh :: rest => mkObserved mesh pending :: observed_from rest []
  end.

Definition observed (events : list Event) : list Observed := observed_from events [].

(** The first write is a matrix written to [model], and no later write is to
    [model]. *)
Definition model_first (writes : list (string * UniformValue)) : bool :=
  match writes with
  | (name, Mat4Value _) :: rest =>
      String.eqb name g_ModelName
      && forallb (fun w => negb (String.eqb (fst w) g_ModelName)) rest
  | _ => false
  end.

(** The writes that select a texture, and those of a material. *)
Definition texture_part (writes : list (string * UniformValue)) :=
  filter (fun w => String.eqb (fst w) g_UseTextureName
                   || String.eqb (fst w) g_TextureValueName) writes.

Definition material_part (writes : list (string * UniformValue)) :=
  filter (fun w => String.prefix "material." (fst w)) writes.

(** What is kept of a draw as it was seen: its mesh, whether it came after
    its own transform write, and the texture and material writes it came
    after. *)
Record Seen := mkSeen {
  seen_mesh : Shape;
  seen_model_first : bool;
  seen_texture : list (string * UniformValue);
  seen_material : list (string * UniformValue)
}.

Definition seen (o : Observed) : Seen :=
  mkSeen (observed_mesh o) (model_first (observed_writes o))
         (texture_part (observed_writes o)) (material_part (observed_writes o)).

(** The slot the search for a tag ends on: the first slot in use with the
    tag, or -1. *)
Definition found_slot (tag : string) (sm : SceneManager) : Z :=
  match position tag (loaded sm) 0 with Some (j, _) => j | None => -1 end.

(** What [SetShaderMaterial] writes for a tag with a shader bound: nothing
    on an empty registry, else the five values the lookup leaves in its
    reference parameter, which held [u] before. *)
Definition material_written (tag : string) (materials : list OBJECT_MATERIAL)
    (u : OBJECT_MATERIAL) : list (string * UniformValue) :=
  match materials with
  | [] => []
  | _ :: _ => material_writes (snd (FindMaterial_loop materials tag u))
  end.

(** A record of the expected sequence as it is seen with a shader bound:
    [slot] is the lookup of texture slots, [materials] the registry and [u]
    what an unassigned local material holds. *)
Definition expected_seen (slot : string -> Z) (materials : list OBJECT_MATERIAL)
    (u : OBJECT_MATERIAL) (r : DrawRecord) : Seen :=
  mkSeen (drawn_mesh r) true
    (match drawn_texture r with
     | Some tag => [(g_UseTextureName, IntValue 1);
                    (g_TextureValueName, Sampler2DValue (slot tag))]
     | None => []
     end)
    (match drawn_material r with
     | Some tag => material_written tag materials u
     | None => []
     end).

(** What a call makes the collaborators receive when a shader is bound. *)
Definition events_of (slot : string -> Z) (materials : list OBJECT_MATERIAL)
    (u : OBJECT_MATERIAL) (c : Call) : list Event :=
  match c with
  | SetTransformations' s rx ry rz p =>
      [Wrote g_ModelName (Mat4Value (modelView s rx ry rz p))]
  | SetShaderTexture' tag =>
      [Wrote g_UseTextureName (IntValue 1);
       Wrote g_TextureValueName (Sampler2DValue (slot tag))]
  | SetShaderMaterial' tag => map wrote (material_written tag materials u)
  | SetTextureUVScale' a b => [Wrote "UVscale" (Vec2Value (mkvec2 a b))]
  | Draw mesh => [Drew mesh]
  end.

(** The least the specification says of a frame: it returns, its draws are
    the expected meshes in order, and each draw comes after its own write of
    the transform. *)
Definition frame_as_specified (sm : SceneManager) (e : Env) : Prop :=
  exists events sm' e',
    observe RenderScene_calls sm e = Ok (events, sm', e') /\
    map observed_mesh (observed events) = map drawn_mesh expected_frame /\
    forallb (fun o => model_first (observed_writes o)) (observed events) = true.

(* ------------------------------------------------------------------ *)
(** * Running methods: basic facts *)
(* ------------------------------------------------------------------ *)

Lemma bind_Ok {A B} (m : M A) (k : A -> M B) sm e a sm' e' :
  m sm e = Ok (a, sm', e') -> bind m k sm e = k a sm' e'.
Proof. intros H. unfold bind. rewrite H. reflexivity. Qed.

Lemma bind_Crash {A B} (m : M A) (k : A -> M B) sm e f :
  m sm e = Crash f -> bind m k sm e = Crash f.
Proof. intros H. unfold bind. rewrite H. reflexivity. Qed.

Lemma this_Ok sm e : this sm e = Ok (sm, sm, e).
Proof. reflexivity. Qed.

Lemma env_Ok sm e : env sm e = Ok (e, sm, e).
Proof. reflexivity. Qed.

Lemma ret_Ok {A} (a : A) sm e : ret a sm e = Ok (a, sm, e).
Proof. reflexivity. Qed.

Lemma on_env_Ok f sm e : on_env f sm e = Ok (tt, sm, f e).
Proof. reflexivity. Qed.

Lemma shader_set_bound name v sm e :
  m_pShaderManager sm = TheShader ->
  shader_set name v sm e = Ok (tt, sm, with_uniforms (uniforms e ++ [(name, v)]) e).
Proof.
  intros H. unfold shader_set. rewrite (bind_Ok _ _ _ _ _ _ _ (this_Ok sm e)). rewrite H.
  reflexivity.
Qed.

Lemma shader_set_null name v sm e :
  m_pShaderManager sm = NullShader ->
  shader_set name v sm e = Crash NullDereference.
Proof.
  intros H. unfold shader_set. rewrite (bind_Ok _ _ _ _ _ _ _ (this_Ok sm e)). rewrite H.
  reflexivity.
Qed.

Create HintDb scene discriminated.
#[local] Hint Resolve this_Ok env_Ok ret_Ok on_env_Ok shader_set_bound : scene.

(** One step of a [bind] whose first action is known to succeed. *)
Ltac step :=
  erewrite bind_Ok by (first [ reflexivity | eassumption | solve [eauto with scene] ]).

Ltac steps := repeat step.

(** Projections of updated environments. *)
Ltac env_simpl :=
  cbn [files stbi_flip stbi_images cout gl uniforms meshes_loaded meshes_drawn
       uninitialized with_gl with_uniforms with_cout with_stbi with_meshes].

Lemma material_writes_bound m sm e :
  m_pShaderManager sm = TheShader ->
  (shader_set "material.ambientColor" (Vec3Value (ambientColor m)) ;;
   shader_set "material.ambientStrength" (FloatValue (ambientStrength m)) ;;
   shader_set "material.diffuseColor" (Vec3Value (diffuseColor m)) ;;
   shader_set "material.specularColor" (Vec3Value (specularColor m)) ;;
   shader_set "material.shininess" (FloatValue (shininess m))) sm e
  = Ok (tt, sm, with_uniforms (uniforms e ++ material_writes m) e).
Proof.
  intros H. steps. rewrite shader_set_bound by exact H.
  unfold material_writes. env_simpl. rewrite <- !app_assoc. reflexivity.
Qed.

(* ------------------------------------------------------------------ *)
(** * Materials: lookup and [SetShaderMaterial] *)
(* ------------------------------------------------------------------ *)

Lemma FindMaterial_loop_miss ms tag material :
  (forall m, In m ms -> material_tag m <> tag) ->
  FindMaterial_loop ms tag material = (false, material).
Proof.
  induction ms as [|m ms IH]; intros Hmiss; simpl.
  - reflexivity.
  - destruct (String.eqb_spec (material_tag m) tag) as [Heq|Hne].
    + exfalso. apply (Hmiss m); [left; reflexivity | exact Heq].
    + apply IH. intros m' Hin. apply Hmiss. right. exact Hin.
Qed.

(** On an empty registry the lookup answers [false] and hands the reference
    parameter back as it was; [SetShaderMaterial] then does nothing, whatever
    the shader pointer is. *)
Lemma FindMaterial_empty tag material sm e :
  m_objectMaterials sm = [] ->
  FindMaterial tag material sm e = Ok ((false, material), sm, e).
Proof.
  intros H. unfold FindMaterial. step. rewrite H. reflexivity.
Qed.

Lemma SetShaderMaterial_empty tag sm e :
  m_objectMaterials sm = [] ->
  SetShaderMaterial tag sm e = Ok (tt, sm, e).
Proof.
  intros H. unfold SetShaderMaterial. step. rewrite H. reflexivity.
Qed.

(** On a registry with at least one entry the lookup answers [true], found or
    not. *)
Lemma FindMaterial_nonempty tag material sm e :
  m_objectMaterials sm <> [] ->
  FindMaterial tag material sm e
  = Ok ((true, snd (FindMaterial_loop (m_objectMaterials sm) tag material)), sm, e).
Proof.
  intros H. unfold FindMaterial. step.
  destruct (m_objectMaterials sm) as [|m ms] eqn:Hms; [congruence|].
  cbn [List.length Z.of_nat Z.eqb].
  destruct (FindMaterial_loop (m :: ms) tag material). reflexivity.
Qed.

Lemma SetShaderMaterial_nonempty tag sm e :
  m_objectMaterials sm <> [] ->
  SetShaderMaterial tag sm e
  = (let material := snd (FindMaterial_loop (m_objectMaterials sm) tag (uninitialized e)) in
     shader_set "material.ambientColor" (Vec3Value (ambientColor material)) ;;
     shader_set "material.ambientStrength" (FloatValue (ambientStrength material)) ;;
     shader_set "material.diffuseColor" (Vec3Value (diffuseColor material)) ;;
     shader_set "material.specularColor" (Vec3Value (specularColor material)) ;;
     shader_set "material.shininess" (FloatValue (shininess material))) sm e.
Proof.
  intros H. unfold SetShaderMaterial. step.
  pose proof (FindMaterial_nonempty tag (uninitialized e) sm e H) as Hfind.
  destruct (m_objectMaterials sm) as [|m ms] eqn:Hms; [congruence|].
  cbn [List.length Z.of_nat Z.gtb Z.compare]. step.
  rewrite (bind_Ok _ _ _ _ _ _ _ Hfind). reflexivity.
Qed.

Lemma SetShaderMaterial_miss sm e tag :
  m_pShaderManager sm = TheShader ->
  m_objectMaterials sm <> [] ->
  (forall m, In m (m_objectMaterials sm) -> material_tag m <> tag) ->
  SetShaderMaterial tag sm e
  = Ok (tt, sm, with_uniforms (uniforms e ++ material_writes (uninitialized e)) e).
Proof.
  intros Hsh Hne Hmiss.
  rewrite SetShaderMaterial_nonempty by exact Hne.
  rewrite FindMaterial_loop_miss by exact Hmiss.
  cbn [snd]. apply material_writes_bound. exact Hsh.
Qed.

Lemma SetShaderMaterial_null_nonempty sm e tag :
  m_pShaderManager sm = NullShader ->
  m_objectMaterials sm <> [] ->
  SetShaderMaterial tag sm e = Crash NullDereference.
Proof.
  intros Hsh Hne.
  rewrite SetShaderMaterial_nonempty by exact Hne.
  cbv zeta. apply bind_Crash. apply shader_set_null. exact Hsh.
Qed.

(** C1 (the registry is not empty and the tag is not in it).  With a shader
    bound, [FindMaterial] answers [true] and leaves its reference parameter as
    it was, and [SetShaderMaterial] then writes all five material uniforms,
    with the values its uninitialised local happens to hold. *)
Theorem C1_miss_on_nonempty_registry_writes_five_uniforms :
  forall sm e tag,
    m_pShaderManager sm = TheShader ->
    m_objectMaterials sm <> [] ->
    (forall m, In m (m_objectMaterials sm) -> material_tag m <> tag) ->
    FindMaterial tag (uninitialized e) sm e = Ok ((true, uninitialized e), sm, e) /\
    SetShaderMaterial tag sm e
    = Ok (tt, sm, with_uniforms (uniforms e ++ material_writes (uninitialized e)) e) /\
    uniforms (with_uniforms (uniforms e ++ material_writes (uninitialized e)) e)
    <> uniforms e.
Proof.
  intros sm e tag Hsh Hne Hmiss. split; [|split].
  - rewrite FindMaterial_nonempty by exact Hne.
    rewrite FindMaterial_loop_miss by exact Hmiss. reflexivity.
  - apply SetShaderMaterial_miss; assumption.
  - env_simpl. intros Heq. apply (f_equal (@List.length _)) in Heq.
    rewrite length_app in Heq. cbn [material_writes List.length] in Heq. lia.
Qed.

(** C2.  With a null shader pointer, [SetTransformations], [SetShaderColor],
    [SetShaderTexture] and [SetTextureUVScale] return without doing anything;
    [SetShaderMaterial] does so only on an empty material registry and
    otherwise dereferences the null pointer; [SetupSceneLights] always
    dereferences it. *)
Theorem C2_null_shader_pointer :
  forall sm e,
    m_pShaderManager sm = NullShader ->
    (forall s rx ry rz p, SetTransformations s rx ry rz p sm e = Ok (tt, sm, e)) /\
    (forall r g b a, SetShaderColor r g b a sm e = Ok (tt, sm, e)) /\
    (forall t, SetShaderTexture t sm e = Ok (tt, sm, e)) /\
    (forall u v, SetTextureUVScale u v sm e = Ok (tt, sm, e)) /\
    (forall t, m_objectMaterials sm = [] -> SetShaderMaterial t sm e = Ok (tt, sm, e)) /\
    (forall t, m_objectMaterials sm <> [] ->
               SetShaderMaterial t sm e = Crash NullDereference) /\
    SetupSceneLights sm e = Crash NullDereference.
Proof.
  intros sm e Hnull. repeat split; intros.
  - unfold SetTransformations. step. rewrite Hnull. reflexivity.
  - unfold SetShaderColor. step. rewrite Hnull. reflexivity.
  - unfold SetShaderTexture. step. rewrite Hnull. reflexivity.
  - unfold SetTextureUVScale. step. rewrite Hnull. reflexivity.
  - apply SetShaderMaterial_empty. assumption.
  - apply SetShaderMaterial_null_nonempty; assumption.
  - unfold SetupSceneLights. apply bind_Crash. apply shader_set_null. exact Hnull.
Qed.

Lemma DefineObjectMaterials_Ok sm e :
  DefineObjectMaterials sm e
  = Ok (tt,
        mkSceneManager (m_pShaderManager sm) (m_textureIDs sm) (m_loadedTextures sm)
                       ((m_objectMaterials sm ++ [furmaterial]) ++ [furmaterial]),
        e).
Proof. reflexivity. Qed.

(** C9.  Material setup on an empty registry leaves exactly two entries, both
    tagged "fur", and none tagged "wall"; with a shader bound, every later
    [SetShaderMaterial("wall")] nevertheless writes the five material
    uniforms, with the values of its uninitialised local. *)
Theorem C9_wall_is_not_registered_but_is_written :
  forall sm e,
    m_objectMaterials sm = [] ->
    m_pShaderManager sm = TheShader ->
    exists sm',
      DefineObjectMaterials sm e = Ok (tt, sm', e) /\
      m_objectMaterials sm' = [furmaterial; furmaterial] /\
      map material_tag (m_objectMaterials sm') = ["fur"; "fur"] /\
      ~ In "wall" (map material_tag (m_objectMaterials sm')) /\
      forall e',
        SetShaderMaterial "wall" sm' e'
        = Ok (tt, sm',
              with_uniforms (uniforms e' ++ material_writes (uninitialized e')) e').
Proof.
  intros sm e Hempty Hsh. eexists. split; [apply DefineObjectMaterials_Ok|].
  cbn [m_objectMaterials]. rewrite Hempty. cbn [app].
  split; [reflexivity|]. split; [reflexivity|]. split.
  - cbn. intros [H|[H|[]]]; discriminate.
  - intros e'. apply SetShaderMaterial_miss.
    + exact Hsh.
    + cbn [m_objectMaterials]. discriminate.
    + cbn [m_objectMaterials]. intros m [<-|[<-|[]]]; cbn; discriminate.
Qed.

(* ------------------------------------------------------------------ *)
(** * Loading textures *)
(* ------------------------------------------------------------------ *)

Lemma slot_outside a i :
  Z.of_nat (List.length a) <= i -> slot a i = None.
Proof.
  intros H. unfold slot. destruct (Z.ltb_spec i 0) as [|Hi]; [reflexivity|].
  apply nth_error_None. lia.
Qed.

Lemma slot_inside a i :
  0 <= i < Z.of_nat (List.length a) -> exists t, slot a i = Some t.
Proof.
  intros H. unfold slot. destruct (Z.ltb_spec i 0) as [|Hi]; [lia|].
  destruct (nth_error a (Z.to_nat i)) eqn:E; [eauto|].
  apply nth_error_None in E. lia.
Qed.

Lemma length_replace_nth n t a :
  List.length (replace_nth n t a) = List.length a.
Proof.
  revert n. induction a as [|x a IH]; intros [|n]; simpl; auto.
Qed.

Lemma nth_error_replace_nth_same n t a :
  (n < List.length a)%nat -> nth_error (replace_nth n t a) n = Some t.
Proof.
  revert n. induction a as [|x a IH]; intros [|n] H; simpl in *; try lia; auto.
  apply IH. lia.
Qed.

Lemma replace_nth_twice n t u a :
  replace_nth n u (replace_nth n t a) = replace_nth n u a.
Proof.
  revert n. induction a as [|x a IH]; intros [|n]; simpl; auto.
  rewrite IH. reflexivity.
Qed.

Lemma slot_replace_nth a i t u :
  slot a i = Some t -> slot (replace_nth (Z.to_nat i) u a) i = Some u.
Proof.
  unfold slot. destruct (Z.ltb_spec i 0) as [|Hi]; [discriminate|].
  intros H. apply nth_error_replace_nth_same.
  apply nth_error_Some. congruence.
Qed.

Ltac run_primitives :=
  cbv [bind ret this env on_env set_this crash
       stbi_set_flip_vertically_on_load stbi_load stbi_image_free print
       glGenTextures glBindTexture glActiveTexture glTexParameteri glTexImage2D
       glGenerateMipmap textureIDs_at textureIDs_assign set_loadedTextures];
  env_simpl.

Lemma CreateGLTexture_missing filename tag sm e :
  files e filename = None ->
  CreateGLTexture filename tag sm e
  = Ok (false, sm, with_cout (cout e ++ [CouldNotLoad filename]) (with_stbi true (stbi_images e) e)).
Proof.
  intros H. unfold CreateGLTexture. run_primitives. rewrite H. reflexivity.
Qed.

Lemma CreateGLTexture_rejected filename tag sm e img :
  files e filename = Some img ->
  colorChannels img <> 3 -> colorChannels img <> 4 ->
  CreateGLTexture filename tag sm e = Ok (false, sm, after_rejection filename img e).
Proof.
  intros H H3 H4. unfold CreateGLTexture. run_primitives. rewrite H.
  cbv [gl_GenTextures]. env_simpl.
  destruct (Z.eqb_spec (colorChannels img) 3) as [|_]; [contradiction|].
  destruct (Z.eqb_spec (colorChannels img) 4) as [|_]; [contradiction|].
  reflexivity.
Qed.

Lemma CreateGLTexture_outside filename tag sm e img :
  files e filename = Some img ->
  colorChannels img = 3 \/ colorChannels img = 4 ->
  slot (m_textureIDs sm) (m_loadedTextures sm) = None ->
  CreateGLTexture filename tag sm e = Crash OutOfBounds.
Proof.
  intros H Hc Hs. unfold CreateGLTexture. run_primitives. rewrite H.
  cbv [gl_GenTextures]. env_simpl.
  destruct Hc as [Hc|Hc]; rewrite Hc; cbn [Z.eqb Pos.eqb]; cbv iota beta;
    rewrite Hs; reflexivity.
Qed.

Lemma CreateGLTexture_stored filename tag sm e img t :
  files e filename = Some img ->
  colorChannels img = 3 \/ colorChannels img = 4 ->
  slot (m_textureIDs sm) (m_loadedTextures sm) = Some t ->
  CreateGLTexture filename tag sm e
  = Ok (true,
        mkSceneManager (m_pShaderManager sm)
          (replace_nth (Z.to_nat (m_loadedTextures sm))
             (mkTexture tag (gl_next (gl e))) (m_textureIDs sm))
          (m_loadedTextures sm + 1) (m_objectMaterials sm),
        after_upload filename img e).
Proof.
  intros H Hc Hs. unfold CreateGLTexture. run_primitives. rewrite H.
  cbv [gl_GenTextures]. env_simpl.
  assert (Hs' := slot_replace_nth _ _ _ (set_ID (gl_next (gl e)) t) Hs).
  destruct Hc as [Hc|Hc]; unfold after_upload, after_configure; rewrite Hc;
    cbn [Z.eqb Pos.eqb]; cbv iota beta; rewrite Hs;
    cbn [m_textureIDs m_loadedTextures m_pShaderManager m_objectMaterials];
    rewrite Hs'; rewrite replace_nth_twice; reflexivity.
Qed.

(** C8.  An image that decodes with a channel count other than 3 or 4 makes
    [CreateGLTexture] print its two messages and return false with the
    registry untouched; but the texture name it generated stays alive in the
    context, that texture stays bound to the active unit, and the decoded
    buffer is not freed. *)
Theorem C8_unsupported_channel_count :
  forall filename tag sm e img,
    files e filename = Some img ->
    colorChannels img <> 3 -> colorChannels img <> 4 ->
    exists e',
      CreateGLTexture filename tag sm e = Ok (false, sm, e') /\
      cout e' = cout e ++
        [SuccessfullyLoaded filename (width img) (height img) (colorChannels img);
         NotImplemented (colorChannels img)] /\
      gl_textures (gl e') = gl_textures (gl e) ++ [gl_next (gl e)] /\
      gl_binding (gl_active (gl e')) (gl e') = gl_next (gl e) /\
      stbi_images e' = stbi_images e + 1.
Proof.
  intros filename tag sm e img H H3 H4.
  exists (after_rejection filename img e).
  split; [apply CreateGLTexture_rejected; assumption|].
  unfold after_rejection, after_configure. env_simpl.
  split; [rewrite <- app_assoc; reflexivity|].
  split; [reflexivity|]. split; [|reflexivity].
  unfold gl_binding. cbn [gl_record gl_BindTexture gl_GenTextures snd gl_active
                          gl_bound find fst].
  rewrite Z.eqb_refl. reflexivity.
Qed.

(** C3.  When all 16 slots are in use, a further load of a decodable RGB or
    RGBA image is not turned away: it goes on to assign to
    [m_textureIDs[16]], outside the array. *)
Theorem C3_load_into_full_registry_goes_out_of_bounds :
  forall filename tag sm e img,
    List.length (m_textureIDs sm) = TEXTURE_SLOTS ->
    m_loadedTextures sm = 16 ->
    files e filename = Some img ->
    colorChannels img = 3 \/ colorChannels img = 4 ->
    CreateGLTexture filename tag sm e = Crash OutOfBounds.
Proof.
  intros filename tag sm e img Hlen Hn Hf Hc.
  apply CreateGLTexture_outside with (img := img); try assumption.
  apply slot_outside. rewrite Hlen, Hn. unfold TEXTURE_SLOTS. lia.
Qed.

(* ------------------------------------------------------------------ *)
(** * Tearing textures down *)
(* ------------------------------------------------------------------ *)

Lemma map_tag_replace_nth_set_ID n id t a :
  nth_error a n = Some t ->
  map texture_tag (replace_nth n (set_ID id t) a) = map texture_tag a.
Proof.
  revert n. induction a as [|x a IH]; intros [|n] H; simpl in *; try discriminate.
  - injection H as ->. reflexivity.
  - rewrite IH by exact H. reflexivity.
Qed.

Lemma existsb_app_l {A} (f : A -> bool) l r :
  existsb f l = true -> existsb f (l ++ r) = true.
Proof. intros H. rewrite existsb_app, H. reflexivity. Qed.

(** The loop of [DestroyGLTextures] over [count] slots from [i] on: each
    iteration generates one more name and stores it over the slot's ID. *)
Lemma DestroyGLTextures_loop count :
  forall i sm e,
    0 <= i ->
    i + Z.of_nat count <= Z.of_nat (List.length (m_textureIDs sm)) ->
    exists sm' e' names,
      for_count count i
        (fun i => name <- glGenTextures ;; textureIDs_assign i (set_ID name)) sm e
      = Ok (tt, sm', e') /\
      gl_textures (gl e') = gl_textures (gl e) ++ names /\
      List.length names = count /\
      m_loadedTextures sm' = m_loadedTextures sm /\
      List.length (m_textureIDs sm') = List.length (m_textureIDs sm) /\
      map texture_tag (m_textureIDs sm') = map texture_tag (m_textureIDs sm).
Proof.
  induction count as [|count IH]; intros i sm e Hi Hbound.
  - exists sm, e, []. cbn [for_count]. rewrite app_nil_r. repeat split; reflexivity.
  - destruct (slot_inside (m_textureIDs sm) i) as [t Ht]; [lia|].
    set (sm1 := mkSceneManager (m_pShaderManager sm)
                  (replace_nth (Z.to_nat i) (set_ID (gl_next (gl e)) t) (m_textureIDs sm))
                  (m_loadedTextures sm) (m_objectMaterials sm)).
    set (e1 := with_gl (snd (gl_GenTextures (gl e))) e).
    assert (Hbody :
      (name <- glGenTextures ;; textureIDs_assign i (set_ID name)) sm e
      = Ok (tt, sm1, e1)).
    { run_primitives. cbv [gl_GenTextures]. rewrite Ht. reflexivity. }
    destruct (IH (i + 1) sm1 e1) as (sm' & e' & names & Hrun & Hgl & Hlen & Hn & Hl & Htags).
    { lia. }
    { subst sm1. cbn [m_textureIDs]. rewrite length_replace_nth. lia. }
    exists sm', e', (gl_next (gl e) :: names).
    cbn [for_count]. rewrite (bind_Ok _ _ _ _ _ _ _ Hbody).
    split; [exact Hrun|]. split.
    { rewrite Hgl. subst e1. cbn. rewrite <- app_assoc. reflexivity. }
    split; [cbn; congruence|]. split; [exact Hn|]. split.
    { rewrite Hl. subst sm1. cbn [m_textureIDs]. apply length_replace_nth. }
    rewrite Htags. subst sm1. cbn [m_textureIDs].
    apply map_tag_replace_nth_set_ID.
    unfold slot in Ht. destruct (i <? 0); [discriminate | exact Ht].
Qed.

(** C7.  [DestroyGLTextures] deletes nothing: for each loaded slot it
    generates one more texture name and stores it over the slot's ID.  Every
    texture that was alive in the context is still alive afterwards, and the
    registry keeps its count and its tags. *)
Theorem C7_DestroyGLTextures_releases_nothing :
  forall sm e,
    List.length (m_textureIDs sm) = TEXTURE_SLOTS ->
    0 <= m_loadedTextures sm <= 16 ->
    exists sm' e' names,
      DestroyGLTextures sm e = Ok (tt, sm', e') /\
      gl_textures (gl e') = gl_textures (gl e) ++ names /\
      List.length names = Z.to_nat (m_loadedTextures sm) /\
      (forall h, gl_is_texture h (gl e) = true -> gl_is_texture h (gl e') = true) /\
      m_loadedTextures sm' = m_loadedTextures sm /\
      map texture_tag (m_textureIDs sm') = map texture_tag (m_textureIDs sm).
Proof.
  intros sm e Hlen Hn.
  destruct (DestroyGLTextures_loop (Z.to_nat (m_loadedTextures sm - 0)) 0 sm e)
    as (sm' & e' & names & Hrun & Hgl & Hnames & Hcount & _ & Htags).
  { lia. }
  { rewrite Hlen. unfold TEXTURE_SLOTS. lia. }
  exists sm', e', names. unfold DestroyGLTextures. step. unfold for_range.
  split; [exact Hrun|]. split; [exact Hgl|].
  split; [rewrite Hnames; f_equal; lia|].
  split; [|split; assumption].
  intros h Hh. unfold gl_is_texture in *. rewrite Hgl.
  apply existsb_app_l. exact Hh.
Qed.

(* ------------------------------------------------------------------ *)
(** * Resolving tags after a sequence of loads *)
(* ------------------------------------------------------------------ *)

Lemma slot_app_length pre suf :
  slot (pre ++ suf) (Z.of_nat (List.length pre)) = nth_error suf 0.
Proof.
  unfold slot. destruct (Z.ltb_spec (Z.of_nat (List.length pre)) 0); [lia|].
  rewrite Nat2Z.id. rewrite nth_error_app2 by lia. rewrite Nat.sub_diag. reflexivity.
Qed.

Lemma replace_nth_app_length pre t x r :
  replace_nth (List.length pre) x (pre ++ t :: r) = pre ++ x :: r.
Proof. induction pre as [|y pre IH]; simpl; [reflexivity | rewrite IH; reflexivity]. Qed.

Lemma FindTextureSlot_loop_position tag suf :
  forall pre rest sm e,
    m_textureIDs sm = pre ++ suf ++ rest ->
    FindTextureSlot_loop (List.length suf) tag (Z.of_nat (List.length pre)) sm e
    = Ok (match position tag suf (Z.of_nat (List.length pre)) with
          | Some (j, _) => j
          | None => -1
          end, sm, e).
Proof.
  induction suf as [|t suf IH]; intros pre rest sm e Harr.
  - reflexivity.
  - cbn [List.length FindTextureSlot_loop position].
    assert (Hat : textureIDs_at (Z.of_nat (List.length pre)) sm e = Ok (t, sm, e)).
    { unfold textureIDs_at. step. rewrite Harr, slot_app_length. reflexivity. }
    rewrite (bind_Ok _ _ _ _ _ _ _ Hat).
    destruct (String.eqb (texture_tag t) tag); [reflexivity|].
    specialize (IH (pre ++ [t]) rest sm e).
    rewrite length_app in IH. cbn [List.length] in IH.
    replace (Z.of_nat (List.length pre + 1)) with (Z.of_nat (List.length pre) + 1) in IH by lia.
    apply IH. rewrite Harr, <- app_assoc. reflexivity.
Qed.

Lemma FindTextureID_loop_position tag suf :
  forall pre rest sm e,
    m_textureIDs sm = pre ++ suf ++ rest ->
    FindTextureID_loop (List.length suf) tag (Z.of_nat (List.length pre)) sm e
    = Ok (match position tag suf (Z.of_nat (List.length pre)) with
          | Some (_, t) => int_of_uint32 (texture_ID t)
          | None => -1
          end, sm, e).
Proof.
  induction suf as [|t suf IH]; intros pre rest sm e Harr.
  - reflexivity.
  - cbn [List.length FindTextureID_loop position].
    assert (Hat : textureIDs_at (Z.of_nat (List.length pre)) sm e = Ok (t, sm, e)).
    { unfold textureIDs_at. step. rewrite Harr, slot_app_length. reflexivity. }
    rewrite (bind_Ok _ _ _ _ _ _ _ Hat).
    destruct (String.eqb (texture_tag t) tag); [reflexivity|].
    specialize (IH (pre ++ [t]) rest sm e).
    rewrite length_app in IH. cbn [List.length] in IH.
    replace (Z.of_nat (List.length pre + 1)) with (Z.of_nat (List.length pre) + 1) in IH by lia.
    apply IH. rewrite Harr, <- app_assoc. reflexivity.
Qed.

(** The two lookups on a manager whose first [m_loadedTextures] slots are
    [entries]. *)
Lemma Find_on_registry tag entries rest sm e :
  m_textureIDs sm = entries ++ rest ->
  m_loadedTextures sm = Z.of_nat (List.length entries) ->
  FindTextureSlot tag sm e
  = Ok (match position tag entries 0 with Some (j, _) => j | None => -1 end, sm, e) /\
  FindTextureID tag sm e
  = Ok (match position tag entries 0 with
        | Some (_, t) => int_of_uint32 (texture_ID t)
        | None => -1
        end, sm, e).
Proof.
  intros Harr Hn. unfold FindTextureSlot, FindTextureID. split; step;
    rewrite Hn, Nat2Z.id.
  - apply (FindTextureSlot_loop_position tag entries [] rest sm e Harr).
  - apply (FindTextureID_loop_position tag entries [] rest sm e Harr).
Qed.

Lemma position_absent tag l i :
  ~ In tag (map texture_tag l) -> position tag l i = None.
Proof.
  revert i. induction l as [|t l IH]; intros i H; simpl; [reflexivity|].
  destruct (String.eqb_spec (texture_tag t) tag) as [Heq|Hne].
  - exfalso. apply H. left. exact Heq.
  - apply IH. intros Hin. apply H. right. exact Hin.
Qed.

Lemma position_unique l :
  NoDup (map texture_tag l) ->
  forall n t i, nth_error l n = Some t ->
    position (texture_tag t) l i = Some (i + Z.of_nat n, t).
Proof.
  induction l as [|x l IH]; intros Hnd n t i Hnth.
  - destruct n; discriminate.
  - cbn [map] in Hnd. inversion Hnd as [|? ? Hnotin Hnd']; subst.
    destruct n as [|n]; cbn [nth_error] in Hnth; cbn [position].
    + injection Hnth as ->. rewrite String.eqb_refl. f_equal. f_equal. lia.
    + destruct (String.eqb_spec (texture_tag x) (texture_tag t)) as [Heq|Hne].
      * exfalso. apply Hnotin. rewrite Heq. apply in_map.
        eapply nth_error_In. exact Hnth.
      * rewrite (IH Hnd' n t (i + 1) Hnth). f_equal. f_equal. lia.
Qed.

Lemma map_tag_loaded_entries loads :
  forall handles, List.length handles = List.length loads ->
    map texture_tag (loaded_entries loads handles) = map snd loads.
Proof.
  unfold loaded_entries.
  induction loads as [|l loads IH]; intros [|h handles] H; simpl in *;
    try discriminate; [reflexivity|].
  rewrite IH by congruence. reflexivity.
Qed.

Lemma nth_error_loaded_entries loads :
  forall handles i filename tag h,
    nth_error loads i = Some (filename, tag) ->
    nth_error handles i = Some h ->
    nth_error (loaded_entries loads handles) i = Some (mkTexture tag h).
Proof.
  unfold loaded_entries.
  induction loads as [|l loads IH]; intros [|h0 handles] [|i] filename tag h Hl Hh;
    simpl in *; try discriminate.
  - injection Hl as ->. injection Hh as ->. reflexivity.
  - eapply IH; eassumption.
Qed.

Lemma loaded_entries_cons filename tag loads h handles :
  loaded_entries ((filename, tag) :: loads) (h :: handles)
  = mkTexture tag h :: loaded_entries loads handles.
Proof. reflexivity. Qed.

(** What a [true] from [CreateGLTexture] tells. *)
Lemma CreateGLTexture_true filename tag sm e sm' e' :
  CreateGLTexture filename tag sm e = Ok (true, sm', e') ->
  exists img t,
    files e filename = Some img /\
    slot (m_textureIDs sm) (m_loadedTextures sm) = Some t /\
    sm' = mkSceneManager (m_pShaderManager sm)
            (replace_nth (Z.to_nat (m_loadedTextures sm))
               (mkTexture tag (gl_next (gl e))) (m_textureIDs sm))
            (m_loadedTextures sm + 1) (m_objectMaterials sm) /\
    e' = after_upload filename img e.
Proof.
  intros H.
  destruct (files e filename) as [img|] eqn:Hf.
  2:{ rewrite CreateGLTexture_missing in H by exact Hf. discriminate. }
  destruct (Z.eq_dec (colorChannels img) 3) as [H3|H3];
    [|destruct (Z.eq_dec (colorChannels img) 4) as [H4|H4]].
  3:{ rewrite (CreateGLTexture_rejected _ _ _ _ _ Hf H3 H4) in H. discriminate. }
  all: destruct (slot (m_textureIDs sm) (m_loadedTextures sm)) as [t|] eqn:Hs.
  all: try (rewrite (CreateGLTexture_outside filename tag sm e img) in H
              by (auto; tauto); discriminate).
  all: rewrite (CreateGLTexture_stored filename tag sm e img t) in H
         by (auto; tauto).
  all: injection H as <- <-; exists img, t; repeat split; reflexivity.
Qed.

Lemma LoadAll_registry loads :
  forall sm e flags sm' e' entries rest,
    m_textureIDs sm = entries ++ rest ->
    m_loadedTextures sm = Z.of_nat (List.length entries) ->
    LoadAll loads sm e = Ok (flags, sm', e') ->
    Forall (fun b => b = true) flags ->
    exists handles rest',
      List.length handles = List.length loads /\
      gl_textures (gl e') = gl_textures (gl e) ++ handles /\
      m_textureIDs sm' = (entries ++ loaded_entries loads handles) ++ rest' /\
      m_loadedTextures sm'
      = Z.of_nat (List.length (entries ++ loaded_entries loads handles)).
Proof.
  induction loads as [|[filename tag] loads IH];
    intros sm e flags sm' e' entries rest Harr Hn Hrun Hflags.
  - cbn in Hrun. injection Hrun as <- <- <-. exists [], rest.
    unfold loaded_entries. cbn [combine map]. rewrite !app_nil_r. auto.
  - cbn [LoadAll] in Hrun. unfold bind at 1 in Hrun.
    destruct (CreateGLTexture filename tag sm e) as [[[b sm1] e1]|] eqn:Hload;
      [|discriminate].
    unfold bind at 1 in Hrun.
    destruct (LoadAll loads sm1 e1) as [[[bs sm2] e2]|] eqn:Hrest; [|discriminate].
    cbn in Hrun. injection Hrun as <- <- <-.
    inversion Hflags as [|? ? Hb Hbs]; subst.
    apply CreateGLTexture_true in Hload.
    destruct Hload as (img & t & Hf & Hs & -> & ->).
    rewrite Harr, Hn, slot_app_length in Hs.
    destruct rest as [|t0 rest]; [discriminate|]. cbn in Hs. injection Hs as ->.
    eapply (IH _ _ _ _ _ (entries ++ [mkTexture tag (gl_next (gl e))]) rest) in Hrest;
      [ | cbn [m_textureIDs]; rewrite Harr, Hn, Nat2Z.id, replace_nth_app_length,
            <- app_assoc; reflexivity
        | cbn [m_loadedTextures]; rewrite Hn, length_app; cbn [List.length]; lia
        | exact Hbs ].
    destruct Hrest as (handles & rest' & Hlen & Hgl & Harr' & Hn').
    exists (gl_next (gl e) :: handles), rest'.
    rewrite loaded_entries_cons.
    split; [cbn; congruence|]. split.
    { rewrite Hgl. cbn. rewrite <- app_assoc. reflexivity. }
    replace (entries ++ mkTexture tag (gl_next (gl e)) :: loaded_entries loads handles)
      with ((entries ++ [mkTexture tag (gl_next (gl e))]) ++ loaded_entries loads handles)
      by (rewrite <- app_assoc; reflexivity).
    split; assumption.
Qed.

(** A texture name below 2^31 is returned as it is. *)
Lemma int_of_uint32_small h : 0 <= h < 2 ^ 31 -> int_of_uint32 h = h.
Proof.
  intros H. unfold int_of_uint32. destruct (Z.ltb_spec h (2 ^ 31)); lia.
Qed.

(** C5.  After a sequence of loads from a new manager that all returned true,
    with pairwise distinct tags: the i-th tag resolves to slot [i] and to the
    i-th texture name the context generated (as the [int] the function
    returns); a tag that was not loaded resolves to -1 both ways. *)
Theorem C5_resolve_after_successful_loads :
  forall loads p e0 flags sm e,
    LoadAll loads (SceneManager_new p) e0 = Ok (flags, sm, e) ->
    Forall (fun b => b = true) flags ->
    NoDup (map snd loads) ->
    exists handles,
      List.length handles = List.length loads /\
      gl_textures (gl e) = gl_textures (gl e0) ++ handles /\
      (forall i filename tag h,
          nth_error loads i = Some (filename, tag) ->
          nth_error handles i = Some h ->
          forall e',
            FindTextureSlot tag sm e' = Ok (Z.of_nat i, sm, e') /\
            FindTextureID tag sm e' = Ok (int_of_uint32 h, sm, e')) /\
      (forall tag,
          ~ In tag (map snd loads) ->
          forall e',
            FindTextureSlot tag sm e' = Ok (-1, sm, e') /\
            FindTextureID tag sm e' = Ok (-1, sm, e')).
Proof.
  intros loads p e0 flags sm e Hrun Hflags Hnd.
  destruct (LoadAll_registry loads (SceneManager_new p) e0 flags sm e []
              (m_textureIDs (SceneManager_new p)) eq_refl eq_refl Hrun Hflags)
    as (handles & rest & Hlen & Hgl & Harr & Hn).
  cbn [app] in Harr, Hn.
  pose proof (map_tag_loaded_entries loads handles Hlen) as Htags.
  exists handles. split; [exact Hlen|]. split; [exact Hgl|]. split.
  - intros i filename tag h Hl Hh e'.
    pose proof (nth_error_loaded_entries loads handles i filename tag h Hl Hh) as Hnth.
    destruct (Find_on_registry tag _ _ sm e' Harr Hn) as [Hslot Hid].
    rewrite Hslot, Hid.
    assert (Hpos : position tag (loaded_entries loads handles) 0
                   = Some (0 + Z.of_nat i, mkTexture tag h)).
    { apply (position_unique (loaded_entries loads handles)) with (t := mkTexture tag h).
      - rewrite Htags. exact Hnd.
      - exact Hnth. }
    rewrite Hpos. split; reflexivity.
  - intros tag Hnot e'.
    destruct (Find_on_registry tag _ _ sm e' Harr Hn) as [Hslot Hid].
    rewrite Hslot, Hid, position_absent by (rewrite Htags; exact Hnot).
    split; reflexivity.
Qed.

(* ------------------------------------------------------------------ *)
(** * One frame *)
(* ------------------------------------------------------------------ *)

Lemma perform_all_app cs1 cs2 sm e :
  perform_all (cs1 ++ cs2) sm e = (perform_all cs1 ;; perform_all cs2) sm e.
Proof.
  revert sm e. induction cs1 as [|c cs1 IH]; intros sm e; cbn [app perform_all].
  - reflexivity.
  - unfold bind. destruct (perform c sm e) as [[[u sm1] e1]|]; [|reflexivity].
    rewrite IH. reflexivity.
Qed.

Lemma RenderScene_is_its_calls sm e :
  RenderScene sm e = perform_all RenderScene_calls sm e.
Proof.
  unfold RenderScene, RenderScene_calls, RenderDolphin, RenderLaptop, RenderBook,
    RenderHeadPhones.
  rewrite perform_all_app. unfold bind.
  destruct (perform_all RenderScene_own sm e) as [[[u1 sm1] e1]|]; [|reflexivity].
  rewrite perform_all_app. unfold bind.
  destruct (perform_all RenderDolphin_calls sm1 e1) as [[[u2 sm2] e2]|]; [|reflexivity].
  rewrite perform_all_app. unfold bind.
  destruct (perform_all RenderLaptop_calls sm2 e2) as [[[u3 sm3] e3]|]; [|reflexivity].
  rewrite perform_all_app. reflexivity.
Qed.

Lemma FindTextureSlot_loop_frame tag steps :
  forall index sm e j sm' e',
    FindTextureSlot_loop steps tag index sm e = Ok (j, sm', e') -> sm' = sm /\ e' = e.
Proof.
  induction steps as [|steps IH]; intros index sm e j sm' e' H.
  - cbv [FindTextureSlot_loop ret] in H. injection H as _ <- <-. auto.
  - cbn [FindTextureSlot_loop] in H. cbv [bind textureIDs_at this] in H.
    destruct (slot (m_textureIDs sm) index) as [t|]; [|discriminate].
    cbv [ret crash] in H. destruct (String.eqb (texture_tag t) tag).
    + injection H as _ <- <-. auto.
    + eapply IH. exact H.
Qed.

Lemma FindTextureSlot_within tag sm e :
  within_slots sm -> exists j, FindTextureSlot tag sm e = Ok (j, sm, e).
Proof.
  intros Hw. unfold within_slots in Hw. unfold FindTextureSlot. step.
  set (n := Z.to_nat (m_loadedTextures sm)).
  assert (Hn : (n <= List.length (m_textureIDs sm))%nat) by lia.
  pose proof (FindTextureSlot_loop_position tag (firstn n (m_textureIDs sm)) []
                (skipn n (m_textureIDs sm)) sm e) as H.
  rewrite length_firstn, Nat.min_l in H by exact Hn.
  eexists. apply H. cbn [app]. symmetry. apply firstn_skipn.
Qed.

Lemma FindTextureSlot_frame tag sm e j sm' e' :
  FindTextureSlot tag sm e = Ok (j, sm', e') -> sm' = sm /\ e' = e.
Proof.
  unfold FindTextureSlot. step. apply FindTextureSlot_loop_frame.
Qed.

(** No call of a frame changes the scene manager object, and the mesh library
    receives exactly the call's draw, if it is one. *)
Lemma perform_frame c sm e u sm' e' :
  perform c sm e = Ok (u, sm', e') ->
  sm' = sm /\ meshes_drawn e' = meshes_drawn e ++ draws_of [c].
Proof.
  destruct c as [s rx ry rz p | t | t | a b | mesh];
    cbn [perform draws_of flat_map app]; rewrite ?app_nil_r; intros H.
  - unfold SetTransformations in H. rewrite (bind_Ok _ _ _ _ _ _ _ (this_Ok sm e)) in H.
    destruct (m_pShaderManager sm) eqn:Hp.
    + injection H as _ <- <-. split; reflexivity.
    + rewrite shader_set_bound in H by exact Hp. injection H as _ <- <-.
      split; reflexivity.
  - unfold SetShaderTexture in H. rewrite (bind_Ok _ _ _ _ _ _ _ (this_Ok sm e)) in H.
    destruct (m_pShaderManager sm) eqn:Hp.
    + injection H as _ <- <-. split; reflexivity.
    + rewrite (bind_Ok _ _ _ _ _ _ _ (shader_set_bound _ _ sm e Hp)) in H.
      unfold bind at 1 in H.
      destruct (FindTextureSlot t sm _) as [[[j sm1] e1]|] eqn:Hfind; [|discriminate].
      apply FindTextureSlot_frame in Hfind. destruct Hfind as [-> ->].
      rewrite shader_set_bound in H by exact Hp. injection H as _ <- <-.
      split; reflexivity.
  - destruct (m_objectMaterials sm) as [|m ms] eqn:Hms.
    + rewrite SetShaderMaterial_empty in H by exact Hms. injection H as _ <- <-.
      split; reflexivity.
    + assert (Hne : m_objectMaterials sm <> []) by congruence.
      destruct (m_pShaderManager sm) eqn:Hp.
      * rewrite SetShaderMaterial_null_nonempty in H by assumption. discriminate.
      * rewrite SetShaderMaterial_nonempty in H by exact Hne. cbv zeta in H.
        rewrite material_writes_bound in H by exact Hp.
        injection H as _ <- <-. split; reflexivity.
  - unfold SetTextureUVScale in H. rewrite (bind_Ok _ _ _ _ _ _ _ (this_Ok sm e)) in H.
    destruct (m_pShaderManager sm) eqn:Hp.
    + injection H as _ <- <-. split; reflexivity.
    + rewrite shader_set_bound in H by exact Hp. injection H as _ <- <-.
      split; reflexivity.
  - injection H as _ <- <-. split; reflexivity.
Qed.

Lemma draws_of_cons c cs : draws_of (c :: cs) = draws_of [c] ++ draws_of cs.
Proof. unfold draws_of. cbn [flat_map]. rewrite app_nil_r. reflexivity. Qed.

Lemma perform_all_frame cs :
  forall sm e u sm' e',
    perform_all cs sm e = Ok (u, sm', e') ->
    sm' = sm /\ meshes_drawn e' = meshes_drawn e ++ draws_of cs.
Proof.
  induction cs as [|c cs IH]; intros sm e u sm' e' H; cbn [perform_all] in H.
  - injection H as _ <- <-. cbn. rewrite app_nil_r. split; reflexivity.
  - unfold bind in H.
    destruct (perform c sm e) as [[[u1 sm1] e1]|] eqn:Hc; [|discriminate].
    apply perform_frame in Hc. destruct Hc as [-> Hd1].
    apply IH in H. destruct H as [-> Hd2]. split; [reflexivity|].
    rewrite Hd2, Hd1, (draws_of_cons c cs), app_assoc. reflexivity.
Qed.

(** When the count of loaded textures is within the array, and a shader is
    bound or no material is registered, every call of a frame returns; the
    mesh library has received the call's draw, if it is one. *)
Lemma perform_returns c sm e :
  within_slots sm -> can_set_material sm ->
  exists e', perform c sm e = Ok (tt, sm, e') /\
             meshes_drawn e' = meshes_drawn e ++ draws_of [c].
Proof.
  intros Hw Hm.
  destruct c as [s rx ry rz p | t | t | a b | mesh]; cbn [perform draws_of flat_map app];
    rewrite ?app_nil_r.
  - unfold SetTransformations. step. destruct (m_pShaderManager sm) eqn:Hp.
    + eexists. split; reflexivity.
    + rewrite shader_set_bound by exact Hp. eexists. split; reflexivity.
  - unfold SetShaderTexture. step. destruct (m_pShaderManager sm) eqn:Hp.
    + eexists. split; reflexivity.
    + rewrite (bind_Ok _ _ _ _ _ _ _ (shader_set_bound _ _ sm e Hp)).
      destruct (FindTextureSlot_within t sm
                  (with_uniforms (uniforms e ++ [(g_UseTextureName, IntValue (int_of_bool true))]) e)
                  Hw) as [j Hj].
      rewrite (bind_Ok _ _ _ _ _ _ _ Hj).
      rewrite shader_set_bound by exact Hp. eexists. split; reflexivity.
  - destruct (m_objectMaterials sm) as [|m ms] eqn:Hms.
    + rewrite SetShaderMaterial_empty by exact Hms. eexists. split; reflexivity.
    + assert (Hne : m_objectMaterials sm <> []) by congruence.
      destruct Hm as [Hp|Hempty]; [|congruence].
      rewrite SetShaderMaterial_nonempty by exact Hne. cbv zeta.
      rewrite material_writes_bound by exact Hp. eexists. split; reflexivity.
  - unfold SetTextureUVScale. step. destruct (m_pShaderManager sm) eqn:Hp.
    + eexists. split; reflexivity.
    + rewrite shader_set_bound by exact Hp. eexists. split; reflexivity.
  - eexists. split; reflexivity.
Qed.

Lemma perform_all_returns cs :
  forall sm e,
    within_slots sm -> can_set_material sm ->
    exists e', perform_all cs sm e = Ok (tt, sm, e') /\
               meshes_drawn e' = meshes_drawn e ++ draws_of cs.
Proof.
  induction cs as [|c cs IH]; intros sm e Hw Hm; cbn [perform_all].
  - exists e. split; [reflexivity|]. cbn. rewrite app_nil_r. reflexivity.
  - destruct (perform_returns c sm e Hw Hm) as (e1 & Hc & Hd1).
    destruct (IH sm e1 Hw Hm) as (e2 & Hcs & Hd2).
    exists e2. rewrite (bind_Ok _ _ _ _ _ _ _ Hc). split; [exact Hcs|].
    rewrite Hd2, Hd1, (draws_of_cons c cs), app_assoc. reflexivity.
Qed.

(** A frame can only stop early on a null shader pointer with a material
    registered, or on a count of loaded textures beyond the array. *)
Lemma perform_all_crash cs sm e f :
  perform_all cs sm e = Crash f ->
  ~ (within_slots sm /\ can_set_material sm).
Proof.
  intros H [Hw Hm]. destruct (perform_all_returns cs sm e Hw Hm) as (e' & He & _).
  congruence.
Qed.

Lemma frame_draw_records : draw_records RenderScene_calls = expected_frame.
Proof. vm_compute. reflexivity. Qed.

Lemma frame_draws : draws_of RenderScene_calls = map drawn_mesh expected_frame.
Proof. vm_compute. reflexivity. Qed.

Lemma frame_groups :
  List.length (groups_from RenderScene_calls []) = 20%nat /\
  forallb transform_first (groups_from RenderScene_calls []) = true.
Proof. split; vm_compute; reflexivity. Qed.

(** C10.  A frame that returns leaves the scene manager object as it was: the
    texture slots, the count of loaded textures and the material registry are
    unchanged.  It returns whenever the count of loaded textures is within the
    array and a shader is bound or no material is registered; the same holds
    of each of the four composers. *)
Theorem C10_frame_keeps_the_registries :
  forall sm e,
    (forall u sm' e',
        RenderScene sm e = Ok (u, sm', e') ->
        m_textureIDs sm' = m_textureIDs sm /\
        m_loadedTextures sm' = m_loadedTextures sm /\
        m_objectMaterials sm' = m_objectMaterials sm) /\
    (forall composer,
        In composer [RenderDolphin; RenderLaptop; RenderBook; RenderHeadPhones] ->
        forall u sm' e', composer sm e = Ok (u, sm', e') -> sm' = sm) /\
    (within_slots sm -> can_set_material sm ->
     exists e', RenderScene sm e = Ok (tt, sm, e')).
Proof.
  intros sm e. split; [|split].
  - intros u sm' e' H. rewrite RenderScene_is_its_calls in H.
    apply perform_all_frame in H. destruct H as [-> _]. auto.
  - intros composer Hin u sm' e' H.
    cbn [In] in Hin. destruct Hin as [<-|[<-|[<-|[<-|[]]]]];
      apply perform_all_frame in H; apply H.
  - intros Hw Hm. rewrite RenderScene_is_its_calls.
    destruct (perform_all_returns RenderScene_calls sm e Hw Hm) as (e' & H & _).
    exists e'. exact H.
Qed.

(* ------------------------------------------------------------------ *)
(** * The model matrix *)
(* ------------------------------------------------------------------ *)


Section ModelMatrix.
Local Open Scope R_scope.

Ltac mat4_eq :=
  cbv [mat4_mul mat4_mul_vec vec4_add vec4_scale col0 col1 col2 col3
       v4x v4y v4z v4w v3x v3y v3z
       Textbook.T Textbook.S Textbook.Rx Textbook.Ry Textbook.Rz mat4_identity];
  repeat (f_equal; try ring).

Lemma radians_rad d : radians d = Textbook.rad d.
Proof. unfold radians, Textbook.rad. field. Qed.

Lemma inversesqrt_1 : inversesqrt (1 * 1 + 0 * 0 + 0 * 0) = 1.
Proof.
  unfold inversesqrt. replace (1 * 1 + 0 * 0 + 0 * 0) with 1 by ring.
  rewrite sqrt_1. field.
Qed.

Lemma normalize_x : normalize (mkvec3 1 0 0) = mkvec3 1 0 0.
Proof.
  unfold normalize, dot. cbn [v3x v3y v3z]. rewrite inversesqrt_1.
  f_equal; ring.
Qed.

Lemma normalize_y : normalize (mkvec3 0 1 0) = mkvec3 0 1 0.
Proof.
  unfold normalize, dot. cbn [v3x v3y v3z].
  replace (0 * 0 + 1 * 1 + 0 * 0) with (1 * 1 + 0 * 0 + 0 * 0) by ring.
  rewrite inversesqrt_1. f_equal; ring.
Qed.

Lemma normalize_z : normalize (mkvec3 0 0 1) = mkvec3 0 0 1.
Proof.
  unfold normalize, dot. cbn [v3x v3y v3z].
  replace (0 * 0 + 0 * 0 + 1 * 1) with (1 * 1 + 0 * 0 + 0 * 0) by ring.
  rewrite inversesqrt_1. f_equal; ring.
Qed.

Lemma translate_T t : translate t = Textbook.T t.
Proof. destruct t. unfold translate, translate_mat. mat4_eq. Qed.

Lemma scale_S s : Glm.scale s = Textbook.S s.
Proof. destruct s. unfold Glm.scale, scale_mat. mat4_eq. Qed.

Lemma rotate_x a : rotate a (mkvec3 1 0 0) = Textbook.Rx a.
Proof.
  unfold rotate, rotate_mat. rewrite normalize_x. cbv zeta. mat4_eq.
Qed.

Lemma rotate_y a : rotate a (mkvec3 0 1 0) = Textbook.Ry a.
Proof.
  unfold rotate, rotate_mat. rewrite normalize_y. cbv zeta. mat4_eq.
Qed.

Lemma rotate_z a : rotate a (mkvec3 0 0 1) = Textbook.Rz a.
Proof.
  unfold rotate, rotate_mat. rewrite normalize_z. cbv zeta. mat4_eq.
Qed.

Lemma modelView_model s rx ry rz t :
  modelView s rx ry rz t = Textbook.model s rx ry rz t.
Proof.
  unfold modelView, Textbook.model. cbv zeta.
  rewrite translate_T, scale_S, rotate_x, rotate_y, rotate_z, !radians_rad.
  reflexivity.
Qed.

(** The product can be bracketed either way. *)
Lemma model_without_rotation s t :
  Textbook.model s 0 0 0 t
  = mkmat4 (mkvec4 (v3x s) 0 0 0) (mkvec4 0 (v3y s) 0 0) (mkvec4 0 0 (v3z s) 0)
           (mkvec4 (v3x t) (v3y t) (v3z t) 1).
Proof.
  unfold Textbook.model.
  replace (Textbook.rad 0) with 0 by (unfold Textbook.rad; field).
  unfold Textbook.Rx, Textbook.Ry, Textbook.Rz. rewrite cos_0, sin_0.
  destruct s, t. mat4_eq.
Qed.

End ModelMatrix.

(* ------------------------------------------------------------------ *)
(** * The theorems at concrete states *)
(* ------------------------------------------------------------------ *)

(** One material registered, a shader bound, and a tag that is not there:
    five uniforms are written. *)
Lemma C1_unknown_tag_example :
  FindMaterial "unknown" zero_material (one_material TheShader) example_env
  = Ok ((true, zero_material), one_material TheShader, example_env) /\
  SetShaderMaterial "unknown" (one_material TheShader) example_env
  = Ok (tt, one_material TheShader,
        with_uniforms (material_writes zero_material) example_env).
Proof.
  assert (Hmiss : forall m, In m (m_objectMaterials (one_material TheShader)) ->
                            material_tag m <> "unknown").
  { intros m [<-|[]]. discriminate. }
  assert (Hne : m_objectMaterials (one_material TheShader) <> []) by discriminate.
  destruct (C1_miss_on_nonempty_registry_writes_five_uniforms
              (one_material TheShader) example_env "unknown" eq_refl Hne Hmiss)
    as (Hfind & Hset & _).
  split; [exact Hfind | exact Hset].
Defined.

Lemma C2_null_shader_example :
  SetTransformations (mkvec3 1 1 1) 0 0 0 (mkvec3 0 0 0) (one_material NullShader) example_env
  = Ok (tt, one_material NullShader, example_env) /\
  SetShaderMaterial "fur" (one_material NullShader) example_env = Crash NullDereference /\
  SetupSceneLights (one_material NullShader) example_env = Crash NullDereference /\
  PrepareScene (SceneManager_new NullShader) example_env = Crash NullDereference.
Proof.
  destruct (C2_null_shader_pointer (one_material NullShader) example_env eq_refl)
    as (Ht & _ & _ & _ & _ & Hm & Hl).
  split; [apply Ht|]. split; [apply Hm; discriminate|]. split; [exact Hl|].
  vm_compute. reflexivity.
Defined.

Lemma C3_seventeenth_load_example :
  exists sm e,
    LoadAll sixteen_loads (SceneManager_new TheShader) example_env
    = Ok (repeat true 16, sm, e) /\
    m_loadedTextures sm = 16 /\
    CreateGLTexture "fur.jpg" "t16" sm e = Crash OutOfBounds.
Proof.
  eexists. eexists. split; [vm_compute; reflexivity|]. split; [reflexivity|].
  apply C3_load_into_full_registry_goes_out_of_bounds with (img := mkImage 256 256 3).
  - reflexivity.
  - reflexivity.
  - reflexivity.
  - left. reflexivity.
Defined.

Lemma C5_two_loads_example :
  exists sm e,
    LoadAll two_loads (SceneManager_new TheShader) example_env = Ok ([true; true], sm, e) /\
    FindTextureSlot "fur" sm e = Ok (0, sm, e) /\
    FindTextureID "fur" sm e = Ok (1, sm, e) /\
    FindTextureSlot "pages" sm e = Ok (1, sm, e) /\
    FindTextureID "pages" sm e = Ok (2, sm, e) /\
    FindTextureSlot "glass" sm e = Ok (-1, sm, e) /\
    FindTextureID "glass" sm e = Ok (-1, sm, e).
Proof.
  eexists. eexists. split; [vm_compute; reflexivity|].
  match goal with
  | |- context [FindTextureSlot "fur" ?sm ?e] =>
      assert (Hrun : LoadAll two_loads (SceneManager_new TheShader) example_env
                     = Ok ([true; true], sm, e)) by (vm_compute; reflexivity);
      assert (Hnd : NoDup (map snd two_loads))
        by (repeat constructor; cbn; intuition discriminate);
      destruct (C5_resolve_after_successful_loads two_loads TheShader example_env
                  [true; true] sm e Hrun (Forall_cons _ eq_refl (Forall_cons _ eq_refl (Forall_nil _))) Hnd)
        as (handles & Hlen & Hgl & Hhit & Hmiss)
  end.
  cbn in Hgl. subst handles.
  match goal with
  | |- context [FindTextureSlot "fur" ?sm ?e] =>
      destruct (Hhit 0%nat "fur.jpg" "fur" 1 eq_refl eq_refl e) as [H0 H0'];
      destruct (Hhit 1%nat "pages.jpg" "pages" 2 eq_refl eq_refl e) as [H1 H1'];
      destruct (Hmiss "glass" ltac:(cbn; intuition discriminate) e) as [H2 H2']
  end.
  repeat split; assumption.
Defined.

Lemma C7_teardown_example :
  exists sm e,
    LoadAll two_loads (SceneManager_new TheShader) example_env = Ok ([true; true], sm, e) /\
    gl_textures (gl e) = [1; 2] /\
    exists sm' e' names,
      DestroyGLTextures sm e = Ok (tt, sm', e') /\
      gl_textures (gl e') = [1; 2] ++ names /\
      List.length names = 2%nat /\
      m_loadedTextures sm' = 2.
Proof.
  eexists. eexists. split; [vm_compute; reflexivity|]. split; [reflexivity|].
  match goal with
  | |- context [DestroyGLTextures ?sm ?e] =>
      destruct (C7_DestroyGLTextures_releases_nothing sm e eq_refl
                  ltac:(cbn; lia))
        as (sm' & e' & names & Hrun & Hgl & Hlen & _ & Hcount & _)
  end.
  exists sm', e', names. repeat split; assumption.
Defined.

Lemma C8_one_channel_example :
  exists e',
    CreateGLTexture "gray.jpg" "gray" (SceneManager_new TheShader) example_env
    = Ok (false, SceneManager_new TheShader, e') /\
    cout e' = [SuccessfullyLoaded "gray.jpg" 64 64 1; NotImplemented 1] /\
    gl_textures (gl e') = [1] /\
    gl_binding (gl_active (gl e')) (gl e') = 1 /\
    stbi_images e' = 1.
Proof.
  apply (C8_unsupported_channel_count "gray.jpg" "gray" (SceneManager_new TheShader)
           example_env (mkImage 64 64 1)).
  - reflexivity.
  - cbn. discriminate.
  - cbn. discriminate.
Defined.

Lemma C9_new_manager_example :
  exists sm',
    DefineObjectMaterials (SceneManager_new TheShader) example_env
    = Ok (tt, sm', example_env) /\
    map material_tag (m_objectMaterials sm') = ["fur"; "fur"] /\
    SetShaderMaterial "wall" sm' example_env
    = Ok (tt, sm', with_uniforms (material_writes zero_material) example_env).
Proof.
  destruct (C9_wall_is_not_registered_but_is_written
              (SceneManager_new TheShader) example_env eq_refl eq_refl)
    as (sm' & Hdef & _ & Htags & _ & Hwall).
  exists sm'. split; [exact Hdef|]. split; [exact Htags|]. apply Hwall.
Defined.

Lemma C10_frame_example :
  exists e',
    RenderScene (one_material TheShader) example_env
    = Ok (tt, one_material TheShader, e').
Proof.
  destruct (C10_frame_keeps_the_registries (one_material TheShader) example_env)
    as (_ & _ & Hreturns).
  apply Hreturns.
  - unfold within_slots. cbn. lia.
  - left. reflexivity.
Defined.

(* ------------------------------------------------------------------ *)
(** * Lookups in the texture table *)
(* ------------------------------------------------------------------ *)

Lemma loaded_split sm :
  within_slots sm ->
  m_textureIDs sm = loaded sm ++ skipn (Z.to_nat (m_loadedTextures sm)) (m_textureIDs sm) /\
  List.length (loaded sm) = Z.to_nat (m_loadedTextures sm).
Proof.
  intros Hw. unfold within_slots in Hw. unfold loaded. split.
  - symmetry. apply firstn_skipn.
  - rewrite length_firstn. apply Nat.min_l. lia.
Qed.

(** Within the slots, both loops are the search for the first entry of the
    slots in use that carries the tag. *)
Lemma Find_loaded tag sm e :
  within_slots sm ->
  FindTextureSlot tag sm e
  = Ok (match position tag (loaded sm) 0 with Some (j, _) => j | None => -1 end, sm, e) /\
  FindTextureID tag sm e
  = Ok (match position tag (loaded sm) 0 with
        | Some (_, t) => int_of_uint32 (texture_ID t)
        | None => -1
        end, sm, e).
Proof.
  intros Hw. destruct (loaded_split sm Hw) as [Harr Hlen].
  unfold FindTextureSlot, FindTextureID. split; step; rewrite <- Hlen.
  - apply (FindTextureSlot_loop_position tag (loaded sm) [] _ sm e Harr).
  - apply (FindTextureID_loop_position tag (loaded sm) [] _ sm e Harr).
Qed.

Lemma position_found tag l :
  forall i j t,
    position tag l i = Some (j, t) ->
    exists n, j = i + Z.of_nat n /\ nth_error l n = Some t /\ texture_tag t = tag /\
              forall k t', (k < n)%nat -> nth_error l k = Some t' -> texture_tag t' <> tag.
Proof.
  induction l as [|x l IH]; intros i j t H; cbn [position] in H; [discriminate|].
  destruct (String.eqb_spec (texture_tag x) tag) as [Heq|Hne].
  - injection H as <- <-. exists 0%nat.
    split; [lia|]. split; [reflexivity|]. split; [exact Heq|].
    intros k t' Hk. lia.
  - apply IH in H. destruct H as (n & -> & Hn & Ht & Hfirst).
    exists (S n). split; [lia|]. split; [exact Hn|]. split; [exact Ht|].
    intros [|k] t' Hk Hk'; cbn in Hk'.
    + injection Hk' as <-. exact Hne.
    + apply (Hfirst k t'); [lia | exact Hk'].
Qed.

Lemma position_none tag l i :
  position tag l i = None -> ~ In tag (map texture_tag l).
Proof.
  revert i. induction l as [|x l IH]; intros i H; cbn in *; [tauto|].
  destruct (String.eqb_spec (texture_tag x) tag) as [Heq|Hne]; [discriminate|].
  intros [Hx|Hin]; [contradiction | exact (IH _ H Hin)].
Qed.

(** The entry found is the first of its tag, whether or not the tag occurs
    again later. *)
Lemma position_first l :
  forall n t i,
    nth_error l n = Some t ->
    (forall k t', (k < n)%nat -> nth_error l k = Some t' -> texture_tag t' <> texture_tag t) ->
    position (texture_tag t) l i = Some (i + Z.of_nat n, t).
Proof.
  induction l as [|x l IH]; intros n t i Hn Hfirst.
  - destruct n; discriminate.
  - destruct n as [|n]; cbn [nth_error] in Hn; cbn [position].
    + injection Hn as ->. rewrite String.eqb_refl. f_equal. f_equal. lia.
    + destruct (String.eqb_spec (texture_tag x) (texture_tag t)) as [Heq|Hne].
      * exfalso. apply (Hfirst 0%nat x); [lia | reflexivity | exact Heq].
      * rewrite (IH n t (i + 1) Hn).
        -- f_equal. f_equal. lia.
        -- intros k t' Hk Hk'. apply (Hfirst (S k) t'); [lia | exact Hk'].
Qed.

(** X1.  Within the slots, [FindTextureSlot] and [FindTextureID] never crash
    and agree: either no slot in use carries the tag and both return -1, or
    the slot returned is in use, carries the tag, is the first that does, and
    [FindTextureID] returns the ID stored in that slot. *)
Theorem X1_lookups_return_the_first_slot_with_the_tag :
  forall tag sm e,
    within_slots sm ->
    (FindTextureSlot tag sm e = Ok (-1, sm, e) /\
     FindTextureID tag sm e = Ok (-1, sm, e) /\
     ~ In tag (map texture_tag (loaded sm)))
    \/
    (exists n t,
       FindTextureSlot tag sm e = Ok (Z.of_nat n, sm, e) /\
       FindTextureID tag sm e = Ok (int_of_uint32 (texture_ID t), sm, e) /\
       Z.of_nat n < m_loadedTextures sm /\
       nth_error (m_textureIDs sm) n = Some t /\
       texture_tag t = tag /\
       forall k t', (k < n)%nat -> nth_error (m_textureIDs sm) k = Some t' ->
                    texture_tag t' <> tag).
Proof.
  intros tag sm e Hw. destruct (Find_loaded tag sm e Hw) as [Hslot Hid].
  destruct (loaded_split sm Hw) as [Harr Hlen].
  destruct (position tag (loaded sm) 0) as [[j t]|] eqn:Hpos.
  - right. apply position_found in Hpos.
    destruct Hpos as (n & -> & Hn & Ht & Hfirst). cbn [Z.add] in Hslot.
    assert (Hlt : (n < List.length (loaded sm))%nat)
      by (apply nth_error_Some; congruence).
    exists n, t. split; [exact Hslot|]. split; [exact Hid|].
    split; [lia|]. split; [|split; [exact Ht|]].
    + rewrite Harr, nth_error_app1 by exact Hlt. exact Hn.
    + intros k t' Hk Hk'. apply (Hfirst k t' Hk).
      rewrite Harr, nth_error_app1 in Hk' by lia. exact Hk'.
  - left. split; [exact Hslot|]. split; [exact Hid|].
    apply position_none with (i := 0). exact Hpos.
Qed.

(** X2.  After a sequence of loads from a new manager that all returned true,
    tags repeated or not: a tag resolves to the earliest load that used it,
    to that load's slot and texture name.  A later load under the same tag
    takes a slot that no lookup reaches. *)
Theorem X2_the_earliest_load_of_a_tag_is_the_one_resolved :
  forall loads p e0 flags sm e,
    LoadAll loads (SceneManager_new p) e0 = Ok (flags, sm, e) ->
    Forall (fun b => b = true) flags ->
    exists handles,
      List.length handles = List.length loads /\
      gl_textures (gl e) = gl_textures (gl e0) ++ handles /\
      m_loadedTextures sm = Z.of_nat (List.length loads) /\
      forall i filename tag h,
        nth_error loads i = Some (filename, tag) ->
        nth_error handles i = Some h ->
        (forall k filename' tag', (k < i)%nat ->
            nth_error loads k = Some (filename', tag') -> tag' <> tag) ->
        forall e',
          FindTextureSlot tag sm e' = Ok (Z.of_nat i, sm, e') /\
          FindTextureID tag sm e' = Ok (int_of_uint32 h, sm, e').
Proof.
  intros loads p e0 flags sm e Hrun Hflags.
  destruct (LoadAll_registry loads (SceneManager_new p) e0 flags sm e []
              (m_textureIDs (SceneManager_new p)) eq_refl eq_refl Hrun Hflags)
    as (handles & rest & Hlen & Hgl & Harr & Hn).
  cbn [app] in Harr, Hn.
  assert (Hcount : List.length (loaded_entries loads handles) = List.length loads).
  { rewrite <- (length_map texture_tag), map_tag_loaded_entries by exact Hlen.
    apply length_map. }
  exists handles. split; [exact Hlen|]. split; [exact Hgl|].
  split; [rewrite Hn, Hcount; reflexivity|].
  intros i filename tag h Hl Hh Hfirst e'.
  pose proof (nth_error_loaded_entries loads handles i filename tag h Hl Hh) as Hnth.
  destruct (Find_on_registry tag _ _ sm e' Harr Hn) as [Hslot Hid].
  rewrite Hslot, Hid.
  assert (Hpos : position tag (loaded_entries loads handles) 0
                 = Some (0 + Z.of_nat i, mkTexture tag h)).
  { apply (position_first (loaded_entries loads handles) i (mkTexture tag h) 0 Hnth).
    intros k t' Hk Hk'. cbn [texture_tag].
    destruct (nth_error loads k) as [[filename' tag']|] eqn:Hlk.
    2:{ apply nth_error_None in Hlk.
        assert (i < List.length loads)%nat by (apply nth_error_Some; congruence). lia. }
    destruct (nth_error handles k) as [h'|] eqn:Hhk.
    2:{ apply nth_error_None in Hhk.
        assert (i < List.length handles)%nat by (apply nth_error_Some; congruence). lia. }
    rewrite (nth_error_loaded_entries loads handles k filename' tag' h' Hlk Hhk) in Hk'.
    injection Hk' as <-. cbn. apply (Hfirst k filename' tag' Hk Hlk). }
  rewrite Hpos. split; reflexivity.
Qed.

(* ------------------------------------------------------------------ *)
(** * Selecting colour, texture and material *)
(* ------------------------------------------------------------------ *)

Lemma SetShaderTexture_bound tag sm e :
  m_pShaderManager sm = TheShader ->
  within_slots sm ->
  SetShaderTexture tag sm e
  = Ok (tt, sm,
        with_uniforms
          (uniforms e ++
           [(g_UseTextureName, IntValue 1);
            (g_TextureValueName,
             Sampler2DValue (match position tag (loaded sm) 0 with
                             | Some (j, _) => j
                             | None => -1
                             end))]) e).
Proof.
  intros Hp Hw. unfold SetShaderTexture. step. rewrite Hp.
  rewrite (bind_Ok _ _ _ _ _ _ _ (shader_set_bound _ _ sm e Hp)).
  rewrite (bind_Ok _ _ _ _ _ _ _ (proj1 (Find_loaded tag sm _ Hw))).
  rewrite shader_set_bound by exact Hp. env_simpl.
  rewrite <- app_assoc. reflexivity.
Qed.

Lemma SetShaderColor_bound r g b a sm e :
  m_pShaderManager sm = TheShader ->
  SetShaderColor r g b a sm e
  = Ok (tt, sm,
        with_uniforms
          (uniforms e ++
           [(g_UseTextureName, IntValue 0);
            (g_ColorValueName, Vec4Value (mkvec4 r g b a))]) e).
Proof.
  intros Hp. unfold SetShaderColor. cbv zeta. step. rewrite Hp.
  rewrite (bind_Ok _ _ _ _ _ _ _ (shader_set_bound _ _ sm e Hp)).
  rewrite shader_set_bound by exact Hp. env_simpl.
  rewrite <- app_assoc. reflexivity.
Qed.

Lemma last_write_app name a b :
  last_write name (a ++ b)
  = match last_write name b with
    | Some v => Some v
    | None => last_write name a
    end.
Proof.
  induction a as [|[n v] a IH]; cbn [app last_write].
  - destruct (last_write name b); reflexivity.
  - rewrite IH. destruct (last_write name b); reflexivity.
Qed.

(** X3.  With a shader bound and the count within the slots,
    [SetShaderTexture] writes [bUseTexture] = 1 and then [objectTexture] =
    the very value [FindTextureSlot] returns; for a tag that no slot in use
    carries that value is -1, written as it is. *)
Theorem X3_SetShaderTexture_writes_the_slot_found :
  forall tag sm e,
    m_pShaderManager sm = TheShader ->
    within_slots sm ->
    exists j,
      FindTextureSlot tag sm e = Ok (j, sm, e) /\
      SetShaderTexture tag sm e
      = Ok (tt, sm,
            with_uniforms
              (uniforms e ++ [("bUseTexture", IntValue 1);
                              ("objectTexture", Sampler2DValue j)]) e) /\
      (~ In tag (map texture_tag (loaded sm)) -> j = -1).
Proof.
  intros tag sm e Hp Hw. eexists.
  split; [apply (proj1 (Find_loaded tag sm e Hw))|].
  split; [apply SetShaderTexture_bound; assumption|].
  intros Hnot. rewrite position_absent by exact Hnot. reflexivity.
Qed.

(** X4.  With a shader bound: after [SetShaderColor] then [SetShaderTexture]
    the last value written to [bUseTexture] is 1; after the same two calls
    in the other order it is 0.  Either way [objectColor] holds the colour
    given. *)
Theorem X4_the_later_of_colour_and_texture_decides :
  forall r g b a tag sm e,
    m_pShaderManager sm = TheShader ->
    within_slots sm ->
    exists e1 e2,
      (SetShaderColor r g b a ;; SetShaderTexture tag) sm e = Ok (tt, sm, e1) /\
      last_write "bUseTexture" (uniforms e1) = Some (IntValue 1) /\
      last_write "objectColor" (uniforms e1) = Some (Vec4Value (mkvec4 r g b a)) /\
      (SetShaderTexture tag ;; SetShaderColor r g b a) sm e = Ok (tt, sm, e2) /\
      last_write "bUseTexture" (uniforms e2) = Some (IntValue 0) /\
      last_write "objectColor" (uniforms e2) = Some (Vec4Value (mkvec4 r g b a)).
Proof.
  intros r g b a tag sm e Hp Hw. eexists. eexists.
  split.
  { rewrite (bind_Ok _ _ _ _ _ _ _ (SetShaderColor_bound r g b a sm e Hp)).
    apply SetShaderTexture_bound; assumption. }
  env_simpl. split.
  { rewrite !last_write_app. reflexivity. }
  split.
  { rewrite <- app_assoc, last_write_app. reflexivity. }
  split.
  { rewrite (bind_Ok _ _ _ _ _ _ _ (SetShaderTexture_bound tag sm e Hp Hw)).
    apply SetShaderColor_bound; assumption. }
  env_simpl. split.
  { rewrite !last_write_app. reflexivity. }
  rewrite !last_write_app. reflexivity.
Qed.

Lemma FindMaterial_loop_hit pre m post material :
  (forall x, In x pre -> material_tag x <> material_tag m) ->
  FindMaterial_loop (pre ++ m :: post) (material_tag m) material
  = (true, copy_coefficients m material).
Proof.
  induction pre as [|x pre IH]; intros Hpre; cbn [app FindMaterial_loop].
  - rewrite String.eqb_refl. reflexivity.
  - destruct (String.eqb_spec (material_tag x) (material_tag m)) as [Heq|Hne].
    + exfalso. apply (Hpre x); [left; reflexivity | exact Heq].
    + apply IH. intros y Hy. apply Hpre. right. exact Hy.
Qed.

(** X5.  A material that is the first of its tag in the registry is the one
    looked up: [FindMaterial] copies its five coefficients into the caller's
    material and leaves the caller's tag alone, and [SetShaderMaterial],
    with a shader bound, writes exactly those five coefficients.  Entries of
    the same tag further on are never used. *)
Theorem X5_the_first_material_of_a_tag_is_written :
  forall sm e pre m post material,
    m_pShaderManager sm = TheShader ->
    m_objectMaterials sm = pre ++ m :: post ->
    (forall x, In x pre -> material_tag x <> material_tag m) ->
    FindMaterial (material_tag m) material sm e
    = Ok ((true,
           mkMaterial (ambientColor m) (ambientStrength m) (diffuseColor m)
                      (specularColor m) (shininess m) (material_tag material)),
          sm, e) /\
    SetShaderMaterial (material_tag m) sm e
    = Ok (tt, sm, with_uniforms (uniforms e ++ material_writes m) e).
Proof.
  intros sm e pre m post material Hp Hms Hpre.
  assert (Hne : m_objectMaterials sm <> []).
  { rewrite Hms. destruct pre; discriminate. }
  split.
  - rewrite FindMaterial_nonempty by exact Hne.
    rewrite Hms, FindMaterial_loop_hit by exact Hpre. reflexivity.
  - rewrite SetShaderMaterial_nonempty by exact Hne.
    rewrite Hms, FindMaterial_loop_hit by exact Hpre.
    cbn [snd]. cbv zeta. rewrite material_writes_bound by exact Hp. reflexivity.
Qed.

(* ------------------------------------------------------------------ *)
(** * Binding the loaded textures *)
(* ------------------------------------------------------------------ *)

Lemma gl_binding_after_bind u i texture g :
  gl_binding u (gl_BindTexture GL_TEXTURE_2D texture (gl_ActiveTexture i g))
  = if i =? u then texture else gl_binding u g.
Proof.
  unfold gl_binding. cbn [gl_BindTexture gl_ActiveTexture gl_bound gl_active find fst snd].
  destruct (i =? u); reflexivity.
Qed.

Lemma BindGLTextures_loop count :
  forall i sm e,
    0 <= i ->
    i + Z.of_nat count <= Z.of_nat (List.length (m_textureIDs sm)) ->
    exists e',
      for_count count i
        (fun i => glActiveTexture i ;; t <- textureIDs_at i ;;
                  glBindTexture GL_TEXTURE_2D (texture_ID t)) sm e
      = Ok (tt, sm, e') /\
      (forall u t, i <= u < i + Z.of_nat count ->
                   slot (m_textureIDs sm) u = Some t ->
                   gl_binding u (gl e') = texture_ID t) /\
      (forall u, u < i -> gl_binding u (gl e') = gl_binding u (gl e)) /\
      gl_textures (gl e') = gl_textures (gl e) /\
      gl_next (gl e') = gl_next (gl e) /\
      e' = with_gl (gl e') e.
Proof.
  induction count as [|count IH]; intros i sm e Hi Hbound.
  - exists e. cbn [for_count]. split; [reflexivity|].
    split; [intros; lia|]. split; [reflexivity|]. split; [reflexivity|].
    split; [reflexivity|]. destruct e; reflexivity.
  - destruct (slot_inside (m_textureIDs sm) i) as [t Ht]; [lia|].
    set (e1 := with_gl (gl_BindTexture GL_TEXTURE_2D (texture_ID t)
                          (gl_ActiveTexture i (gl e))) e).
    assert (Hbody :
      (glActiveTexture i ;; t <- textureIDs_at i ;;
       glBindTexture GL_TEXTURE_2D (texture_ID t)) sm e = Ok (tt, sm, e1)).
    { run_primitives. rewrite Ht. reflexivity. }
    destruct (IH (i + 1) sm e1) as (e' & Hrun & Hin & Hbelow & Htex & Hnext & He');
      [lia | lia |].
    exists e'. cbn [for_count]. rewrite (bind_Ok _ _ _ _ _ _ _ Hbody).
    split; [exact Hrun|]. split; [|split; [|split; [|split]]].
    + intros u t' Hu Hu'. destruct (Z.eq_dec u i) as [->|Hne].
      * rewrite Hbelow by lia. subst e1. env_simpl.
        rewrite gl_binding_after_bind, Z.eqb_refl. congruence.
      * apply Hin; [lia | exact Hu'].
    + intros u Hu. rewrite Hbelow by lia. subst e1. env_simpl.
      rewrite gl_binding_after_bind.
      destruct (Z.eqb_spec i u); [lia | reflexivity].
    + rewrite Htex. reflexivity.
    + rewrite Hnext. reflexivity.
    + rewrite He'. subst e1. reflexivity.
Qed.

Lemma nth_error_loaded sm n t :
  within_slots sm ->
  nth_error (loaded sm) n = Some t ->
  slot (m_textureIDs sm) (Z.of_nat n) = Some t /\ Z.of_nat n < m_loadedTextures sm.
Proof.
  intros Hw Hn. destruct (loaded_split sm Hw) as [Harr Hlen].
  assert (Hlt : (n < List.length (loaded sm))%nat) by (apply nth_error_Some; congruence).
  split; [|lia].
  unfold slot. destruct (Z.ltb_spec (Z.of_nat n) 0); [lia|].
  rewrite Nat2Z.id, Harr, nth_error_app1 by exact Hlt. exact Hn.
Qed.

Lemma BindGLTextures_within sm e :
  within_slots sm ->
  exists e',
    BindGLTextures sm e = Ok (tt, sm, e') /\
    (forall n t, nth_error (loaded sm) n = Some t ->
                 gl_binding (Z.of_nat n) (gl e') = texture_ID t) /\
    gl_textures (gl e') = gl_textures (gl e) /\
    gl_next (gl e') = gl_next (gl e) /\
    e' = with_gl (gl e') e.
Proof.
  intros Hw. pose proof Hw as Hw'. unfold within_slots in Hw'.
  destruct (BindGLTextures_loop (Z.to_nat (m_loadedTextures sm - 0)) 0 sm e)
    as (e' & Hrun & Hin & _ & Htex & Hnext & He'); [lia | lia |].
  exists e'. unfold BindGLTextures. step. unfold for_range.
  split; [exact Hrun|]. split; [|auto].
  intros n t Hn. destruct (nth_error_loaded sm n t Hw Hn) as [Hs Hlt].
  apply Hin; [lia | exact Hs].
Qed.

(** X6.  Within the slots, [BindGLTextures] returns and leaves, for every
    slot [n] in use, texture unit [n] bound to the ID stored in that slot.
    It generates no texture and changes nothing but the context. *)
Theorem X6_BindGLTextures_binds_slot_n_to_unit_n :
  forall sm e,
    within_slots sm ->
    exists e',
      BindGLTextures sm e = Ok (tt, sm, e') /\
      (forall n t, nth_error (loaded sm) n = Some t ->
                   gl_binding (Z.of_nat n) (gl e') = texture_ID t) /\
      gl_textures (gl e') = gl_textures (gl e) /\
      e' = with_gl (gl e') e.
Proof.
  intros sm e Hw.
  destruct (BindGLTextures_within sm e Hw) as (e' & Hrun & Hbound & Htex & _ & He').
  exists e'. auto.
Qed.

(* ------------------------------------------------------------------ *)
(** * One load, in full *)
(* ------------------------------------------------------------------ *)

Lemma nth_error_replace_nth_other n k t a :
  n <> k -> nth_error (replace_nth n t a) k = nth_error a k.
Proof.
  revert n k. induction a as [|x a IH]; intros [|n] [|k] H; simpl; auto; try congruence.
Qed.

Lemma slot_replace_nth_other a i j u :
  0 <= i -> j <> i -> slot (replace_nth (Z.to_nat i) u a) j = slot a j.
Proof.
  intros Hi Hne. unfold slot. destruct (Z.ltb_spec j 0); [reflexivity|].
  apply nth_error_replace_nth_other. lia.
Qed.

Lemma slot_Some_bounds a i t :
  slot a i = Some t -> 0 <= i < Z.of_nat (List.length a).
Proof.
  unfold slot. destruct (Z.ltb_spec i 0) as [|Hi]; [discriminate|]. intros Hs.
  assert (Z.to_nat i < List.length a)%nat by (apply nth_error_Some; congruence). lia.
Qed.

(** X7.  A load of an image with 3 or 4 channels into a table with room
    returns true; the entry (tag, generated name) is stored in the first free
    slot, the other slots are untouched and the count goes up by one; the
    context receives exactly the nine calls of an upload, in order, with the
    formats that fit the channel count; on return the active unit has no
    texture bound and the decoded buffer has been freed. *)
Theorem X7_a_load_that_succeeds :
  forall filename tag sm e img,
    files e filename = Some img ->
    colorChannels img = 3 \/ colorChannels img = 4 ->
    0 <= m_loadedTextures sm < Z.of_nat (List.length (m_textureIDs sm)) ->
    exists sm' e',
      CreateGLTexture filename tag sm e = Ok (true, sm', e') /\
      m_loadedTextures sm' = m_loadedTextures sm + 1 /\
      slot (m_textureIDs sm') (m_loadedTextures sm)
      = Some (mkTexture tag (gl_next (gl e))) /\
      (forall j, j <> m_loadedTextures sm ->
                 slot (m_textureIDs sm') j = slot (m_textureIDs sm) j) /\
      gl_calls (gl e') = gl_calls (gl e) ++ upload_calls (gl_next (gl e)) img /\
      gl_textures (gl e') = gl_textures (gl e) ++ [gl_next (gl e)] /\
      gl_active (gl e') = gl_active (gl e) /\
      gl_binding (gl_active (gl e')) (gl e') = 0 /\
      stbi_images e' = stbi_images e.
Proof.
  intros filename tag sm e img Hf Hc Hroom.
  destruct (slot_inside (m_textureIDs sm) (m_loadedTextures sm) Hroom) as [t Ht].
  eexists. eexists.
  split; [apply (CreateGLTexture_stored filename tag sm e img t Hf Hc Ht)|].
  cbn [m_loadedTextures m_textureIDs]. split; [reflexivity|].
  split; [apply (slot_replace_nth _ _ t); exact Ht|].
  split; [intros j Hj; apply slot_replace_nth_other; [lia | exact Hj]|].
  unfold after_upload, after_configure. cbv zeta. env_simpl.
  split.
  { cbn [gl_BindTexture gl_record gl_GenTextures snd gl_calls].
    unfold upload_calls. rewrite <- !app_assoc. reflexivity. }
  split; [reflexivity|]. split; [reflexivity|]. split; [|lia].
  unfold gl_binding.
  cbn [gl_record gl_BindTexture gl_GenTextures snd gl_active gl_bound find fst].
  rewrite Z.eqb_refl. reflexivity.
Qed.

(** X8.  A load of a file the decoder cannot read returns false after one
    line of output; the manager is unchanged and the context has not been
    called at all: no texture is generated and no binding changes. *)
Theorem X8_a_load_of_a_missing_file :
  forall filename tag sm e,
    files e filename = None ->
    exists e',
      CreateGLTexture filename tag sm e = Ok (false, sm, e') /\
      cout e' = cout e ++ [CouldNotLoad filename] /\
      gl e' = gl e /\
      stbi_images e' = stbi_images e /\
      uniforms e' = uniforms e.
Proof.
  intros filename tag sm e Hf. eexists.
  split; [apply CreateGLTexture_missing; exact Hf|].
  repeat split; reflexivity.
Qed.

(** What any returning load tells. *)
Lemma CreateGLTexture_Ok filename tag sm e b sm' e' :
  CreateGLTexture filename tag sm e = Ok (b, sm', e') ->
  (b = false /\ sm' = sm /\ loads_in e filename = false) \/
  (b = true /\ loads_in e filename = true /\
   exists t,
     slot (m_textureIDs sm) (m_loadedTextures sm) = Some t /\
     sm' = mkSceneManager (m_pShaderManager sm)
             (replace_nth (Z.to_nat (m_loadedTextures sm))
                (mkTexture tag (gl_next (gl e))) (m_textureIDs sm))
             (m_loadedTextures sm + 1) (m_objectMaterials sm)).
Proof.
  intros H. unfold loads_in.
  destruct (files e filename) as [img|] eqn:Hf.
  2:{ rewrite CreateGLTexture_missing in H by exact Hf.
      injection H as <- <- _. left. auto. }
  destruct (Z.eqb_spec (colorChannels img) 3) as [H3|H3];
    [|destruct (Z.eqb_spec (colorChannels img) 4) as [H4|H4]].
  3:{ rewrite (CreateGLTexture_rejected _ _ _ _ _ Hf H3 H4) in H.
      injection H as <- <- _. left. auto. }
  all: destruct (slot (m_textureIDs sm) (m_loadedTextures sm)) as [t|] eqn:Hs.
  all: try (rewrite (CreateGLTexture_outside filename tag sm e img) in H
              by (auto; tauto); discriminate).
  all: rewrite (CreateGLTexture_stored filename tag sm e img t) in H
         by (auto; tauto).
  all: injection H as <- <- _; right; split; [reflexivity|]; split; [reflexivity|];
       exists t; split; reflexivity.
Qed.

Lemma CreateGLTexture_env filename tag sm e b sm' e' :
  CreateGLTexture filename tag sm e = Ok (b, sm', e') ->
  files e' = files e /\ uniforms e' = uniforms e /\
  meshes_loaded e' = meshes_loaded e /\ meshes_drawn e' = meshes_drawn e /\
  uninitialized e' = uninitialized e.
Proof.
  intros H.
  destruct (files e filename) as [img|] eqn:Hf.
  2:{ rewrite CreateGLTexture_missing in H by exact Hf.
      injection H as _ _ <-. repeat split; reflexivity. }
  destruct (Z.eq_dec (colorChannels img) 3) as [H3|H3];
    [|destruct (Z.eq_dec (colorChannels img) 4) as [H4|H4]].
  3:{ rewrite (CreateGLTexture_rejected _ _ _ _ _ Hf H3 H4) in H.
      injection H as _ _ <-. repeat split; reflexivity. }
  all: destruct (slot (m_textureIDs sm) (m_loadedTextures sm)) as [t|] eqn:Hs.
  all: try (rewrite (CreateGLTexture_outside filename tag sm e img) in H
              by (auto; tauto); discriminate).
  all: rewrite (CreateGLTexture_stored filename tag sm e img t) in H
         by (auto; tauto).
  all: injection H as _ _ <-; repeat split; reflexivity.
Qed.

(** With room in the table a load returns, true exactly when the file decodes
    with 3 or 4 channels. *)
Lemma CreateGLTexture_room filename tag sm e :
  0 <= m_loadedTextures sm < Z.of_nat (List.length (m_textureIDs sm)) ->
  exists sm' e', CreateGLTexture filename tag sm e = Ok (loads_in e filename, sm', e').
Proof.
  intros Hroom. unfold loads_in.
  destruct (files e filename) as [img|] eqn:Hf.
  2:{ rewrite CreateGLTexture_missing by exact Hf. eauto. }
  destruct (slot_inside (m_textureIDs sm) (m_loadedTextures sm) Hroom) as [t Ht].
  destruct (Z.eqb_spec (colorChannels img) 3) as [H3|H3];
    [|destruct (Z.eqb_spec (colorChannels img) 4) as [H4|H4]].
  - rewrite (CreateGLTexture_stored filename tag sm e img t) by (auto; tauto). eauto.
  - rewrite (CreateGLTexture_stored filename tag sm e img t) by (auto; tauto). eauto.
  - rewrite (CreateGLTexture_rejected _ _ _ _ _ Hf H3 H4). eauto.
Qed.

(* ------------------------------------------------------------------ *)
(** * The table stays within its sixteen slots *)
(* ------------------------------------------------------------------ *)

Lemma bind_inv {A B} (m : M A) (k : A -> M B) sm e r :
  bind m k sm e = Ok r ->
  exists a sm1 e1, m sm e = Ok (a, sm1, e1) /\ k a sm1 e1 = Ok r.
Proof.
  unfold bind. destruct (m sm e) as [[[a sm1] e1]|]; [|discriminate].
  intros H. exists a, sm1, e1. auto.
Qed.

Lemma slots_ok_within sm : slots_ok sm -> within_slots sm.
Proof.
  intros [Hlen Hn]. unfold within_slots. rewrite Hlen. unfold TEXTURE_SLOTS. lia.
Qed.

Lemma CreateGLTexture_slots filename tag sm e b sm' e' :
  CreateGLTexture filename tag sm e = Ok (b, sm', e') ->
  slots_ok sm -> slots_ok sm'.
Proof.
  intros H [Hlen Hn]. apply CreateGLTexture_Ok in H.
  destruct H as [(_ & -> & _)|(_ & _ & t & Ht & ->)]; [split; assumption|].
  apply slot_Some_bounds in Ht. rewrite Hlen in Ht. unfold TEXTURE_SLOTS in Ht.
  split; cbn [m_textureIDs m_loadedTextures].
  - rewrite length_replace_nth. exact Hlen.
  - lia.
Qed.

Lemma BindGLTextures_Ok sm e u sm' e' :
  within_slots sm ->
  BindGLTextures sm e = Ok (u, sm', e') ->
  sm' = sm /\ e' = with_gl (gl e') e.
Proof.
  intros Hw H. destruct (BindGLTextures_within sm e Hw) as (e1 & Hrun & _ & _ & _ & He1).
  rewrite Hrun in H. injection H as _ <- <-. auto.
Qed.

Lemma DestroyGLTextures_slots sm e u sm' e' :
  slots_ok sm ->
  DestroyGLTextures sm e = Ok (u, sm', e') ->
  slots_ok sm'.
Proof.
  intros [Hlen Hn] H.
  destruct (DestroyGLTextures_loop (Z.to_nat (m_loadedTextures sm - 0)) 0 sm e)
    as (sm1 & e1 & names & Hrun & _ & _ & Hcount & Hlen1 & _).
  { lia. }
  { rewrite Hlen. unfold TEXTURE_SLOTS. lia. }
  unfold DestroyGLTextures in H. rewrite (bind_Ok _ _ _ _ _ _ _ (this_Ok sm e)) in H.
  unfold for_range in H. rewrite Hrun in H. injection H as _ <- _.
  split; congruence.
Qed.

Lemma firstn_replace_nth n x a :
  (n < List.length a)%nat ->
  firstn (S n) (replace_nth n x a) = firstn n a ++ [x].
Proof.
  revert n. induction a as [|y a IH]; intros [|n] H; simpl in *; try lia.
  - reflexivity.
  - rewrite IH by lia. reflexivity.
Qed.

(** A sequence of loads that returns: the flags say which files decoded with
    3 or 4 channels, the tags of those files have been appended to the slots
    in use, in order, and nothing but the slots and the count has changed in
    the manager. *)
Lemma LoadAll_Ok loads :
  forall sm e flags sm' e',
    0 <= m_loadedTextures sm ->
    LoadAll loads sm e = Ok (flags, sm', e') ->
    flags = map (fun l => loads_in e (fst l)) loads /\
    map texture_tag (loaded sm')
    = map texture_tag (loaded sm)
      ++ map snd (filter (fun l => loads_in e (fst l)) loads) /\
    m_loadedTextures sm <= m_loadedTextures sm'
      <= m_loadedTextures sm + Z.of_nat (List.length loads) /\
    List.length (m_textureIDs sm') = List.length (m_textureIDs sm) /\
    m_pShaderManager sm' = m_pShaderManager sm /\
    m_objectMaterials sm' = m_objectMaterials sm /\
    files e' = files e /\ uniforms e' = uniforms e /\
    meshes_loaded e' = meshes_loaded e /\ meshes_drawn e' = meshes_drawn e /\
    uninitialized e' = uninitialized e.
Proof.
  induction loads as [|[filename tag] loads IH]; intros sm e flags sm' e' H0 H.
  - cbn in H. injection H as <- <- <-. cbn [map filter List.length].
    rewrite app_nil_r. repeat split; try reflexivity; lia.
  - cbn [LoadAll] in H. apply bind_inv in H.
    destruct H as (b & sm1 & e1 & Hload & H).
    apply bind_inv in H. destruct H as (bs & sm2 & e2 & Hrest & H).
    cbv [ret] in H. injection H as <- <- <-.
    destruct (CreateGLTexture_env _ _ _ _ _ _ _ Hload) as (Hf1 & Hu1 & Hl1 & Hd1 & Hi1).
    assert (Hin : forall f, loads_in e1 f = loads_in e f)
      by (intros f; unfold loads_in; rewrite Hf1; reflexivity).
    apply CreateGLTexture_Ok in Hload.
    destruct Hload as [(-> & -> & Hno)|(-> & Hyes & t & Ht & ->)].
    + apply IH in Hrest; [|exact H0].
      destruct Hrest as (Hflags & Htags & Hcount & Hlen & Hp & Hm & Hf & Hu & Hl & Hd & Hi).
      cbn [map filter fst List.length]. rewrite Hno.
      split; [rewrite Hflags; f_equal; apply map_ext; intros; apply Hin|].
      split; [rewrite Htags; do 2 f_equal; apply filter_ext; intros; apply Hin|].
      repeat split; try congruence; lia.
    + pose proof (slot_Some_bounds _ _ _ Ht) as Hb.
      apply IH in Hrest; [|cbn [m_loadedTextures]; lia].
      destruct Hrest as (Hflags & Htags & Hcount & Hlen & Hp & Hm & Hf & Hu & Hl & Hd & Hi).
      cbn [m_loadedTextures m_textureIDs m_pShaderManager m_objectMaterials] in *.
      cbn [map filter fst snd List.length]. rewrite Hyes.
      split; [rewrite Hflags; f_equal; apply map_ext; intros; apply Hin|].
      split.
      { rewrite Htags. unfold loaded at 1. cbn [m_loadedTextures m_textureIDs].
        replace (Z.to_nat (m_loadedTextures sm + 1))
          with (S (Z.to_nat (m_loadedTextures sm))) by lia.
        rewrite firstn_replace_nth by lia.
        rewrite map_app. cbn [map texture_tag]. rewrite <- app_assoc. cbn [app].
        unfold loaded. do 3 f_equal. apply filter_ext. intros; apply Hin. }
      rewrite length_replace_nth in Hlen.
      repeat split; try congruence; lia.
Qed.

(** With room for all of them, a sequence of loads returns. *)
Lemma LoadAll_room loads :
  forall sm e,
    0 <= m_loadedTextures sm ->
    m_loadedTextures sm + Z.of_nat (List.length loads)
      <= Z.of_nat (List.length (m_textureIDs sm)) ->
    exists flags sm' e', LoadAll loads sm e = Ok (flags, sm', e').
Proof.
  induction loads as [|[filename tag] loads IH]; intros sm e H0 Hroom.
  - exists [], sm, e. reflexivity.
  - cbn [List.length] in Hroom.
    destruct (CreateGLTexture_room filename tag sm e) as (sm1 & e1 & Hload); [lia|].
    pose proof Hload as Hload'. apply CreateGLTexture_Ok in Hload'.
    destruct (IH sm1 e1) as (bs & sm2 & e2 & Hrest).
    { destruct Hload' as [(_ & -> & _)|(_ & _ & t & _ & ->)]; cbn; lia. }
    { destruct Hload' as [(_ & -> & _)|(_ & _ & t & _ & ->)];
        cbn [m_loadedTextures m_textureIDs]; rewrite ?length_replace_nth; lia. }
    cbn [LoadAll]. rewrite (bind_Ok _ _ _ _ _ _ _ Hload).
    rewrite (bind_Ok _ _ _ _ _ _ _ Hrest). cbv [ret]. eauto.
Qed.

Lemma LoadSceneTextures_is_LoadAll sm e :
  LoadSceneTextures sm e = (LoadAll scene_textures ;; BindGLTextures) sm e.
Proof.
  unfold LoadSceneTextures, scene_textures. cbn [LoadAll]. unfold bind.
  repeat (match goal with
          | |- context [CreateGLTexture ?f ?t ?sm ?e] =>
              destruct (CreateGLTexture f t sm e) as [[[? ?] ?]|]; [|reflexivity]
          end; cbv beta iota).
  reflexivity.
Qed.

Lemma LoadSceneTextures_slots sm e u sm' e' :
  slots_ok sm ->
  LoadSceneTextures sm e = Ok (u, sm', e') ->
  slots_ok sm'.
Proof.
  intros Hok H. rewrite LoadSceneTextures_is_LoadAll in H.
  apply bind_inv in H. destruct H as (flags & sm1 & e1 & Hload & Hbind).
  assert (Hok1 : slots_ok sm1).
  { clear Hbind. revert sm e flags sm1 e1 Hok Hload.
    induction scene_textures as [|[f t] loads IH]; intros sm e flags sm1 e1 Hok Hload.
    - cbn in Hload. injection Hload as _ <- _. exact Hok.
    - cbn [LoadAll] in Hload. apply bind_inv in Hload.
      destruct Hload as (b & sm2 & e2 & Hone & Hload).
      apply bind_inv in Hload. destruct Hload as (bs & sm3 & e3 & Hrest & Hload).
      cbv [ret] in Hload. injection Hload as _ <- _.
      apply (IH sm2 e2 bs sm3 e3); [|exact Hrest].
      apply (CreateGLTexture_slots _ _ _ _ _ _ _ Hone Hok). }
  apply BindGLTextures_Ok in Hbind; [|apply slots_ok_within; exact Hok1].
  destruct Hbind as [-> _]. exact Hok1.
Qed.

Lemma SetupSceneLights_bound sm e :
  m_pShaderManager sm = TheShader ->
  SetupSceneLights sm e = Ok (tt, sm, with_uniforms (uniforms e ++ light_writes) e).
Proof.
  intros H. unfold SetupSceneLights. steps. rewrite shader_set_bound by exact H.
  unfold light_writes. env_simpl. rewrite <- !app_assoc. reflexivity.
Qed.

Lemma SetupSceneLights_null sm e :
  m_pShaderManager sm = NullShader ->
  SetupSceneLights sm e = Crash NullDereference.
Proof.
  intros H. unfold SetupSceneLights. apply bind_Crash. apply shader_set_null. exact H.
Qed.

(** The manager and the environment [PrepareScene] leaves, given those its
    loading of textures left. *)
Lemma PrepareScene_run sm e sm1 e1 :
  LoadSceneTextures sm e = Ok (tt, sm1, e1) ->
  m_pShaderManager sm1 = TheShader ->
  PrepareScene sm e
  = Ok (tt,
        mkSceneManager (m_pShaderManager sm1) (m_textureIDs sm1) (m_loadedTextures sm1)
          ((m_objectMaterials sm1 ++ [furmaterial]) ++ [furmaterial]),
        with_meshes (meshes_loaded e1 ++ all_meshes) (meshes_drawn e1)
          (with_uniforms (uniforms e1 ++ light_writes) e1)).
Proof.
  intros Hload Hp. unfold PrepareScene.
  rewrite (bind_Ok _ _ _ _ _ _ _ Hload).
  rewrite (bind_Ok _ _ _ _ _ _ _ (DefineObjectMaterials_Ok sm1 e1)).
  erewrite bind_Ok by (apply SetupSceneLights_bound; exact Hp).
  unfold LoadMesh. steps. rewrite on_env_Ok. env_simpl.
  unfold all_meshes. rewrite <- !app_assoc. reflexivity.
Qed.

Lemma PrepareScene_null sm e sm1 e1 :
  LoadSceneTextures sm e = Ok (tt, sm1, e1) ->
  m_pShaderManager sm1 = NullShader ->
  PrepareScene sm e = Crash NullDereference.
Proof.
  intros Hload Hp. unfold PrepareScene.
  rewrite (bind_Ok _ _ _ _ _ _ _ Hload).
  rewrite (bind_Ok _ _ _ _ _ _ _ (DefineObjectMaterials_Ok sm1 e1)).
  apply bind_Crash. apply SetupSceneLights_null. exact Hp.
Qed.

Lemma PrepareScene_slots sm e u sm' e' :
  slots_ok sm ->
  PrepareScene sm e = Ok (u, sm', e') ->
  slots_ok sm'.
Proof.
  intros Hok H.
  destruct (LoadSceneTextures sm e) as [[[[] sm1] e1]|f] eqn:Hload.
  2:{ unfold PrepareScene in H. rewrite (bind_Crash _ _ _ _ _ Hload) in H. discriminate. }
  pose proof (LoadSceneTextures_slots sm e tt sm1 e1 Hok Hload) as Hok1.
  destruct (m_pShaderManager sm1) eqn:Hp.
  - rewrite (PrepareScene_null sm e sm1 e1 Hload Hp) in H. discriminate.
  - rewrite (PrepareScene_run sm e sm1 e1 Hload Hp) in H.
    injection H as _ <- _. exact Hok1.
Qed.

(** With ten free slots the loading of the scene's textures returns. *)
Lemma LoadSceneTextures_room sm e :
  slots_ok sm ->
  m_loadedTextures sm <= 6 ->
  exists sm' e',
    LoadSceneTextures sm e = Ok (tt, sm', e') /\
    slots_ok sm' /\
    m_loadedTextures sm <= m_loadedTextures sm' <= m_loadedTextures sm + 10 /\
    m_pShaderManager sm' = m_pShaderManager sm.
Proof.
  intros [Hlen Hn] H6.
  destruct (LoadAll_room scene_textures sm e) as (flags & sm1 & e1 & Hload).
  { lia. }
  { rewrite Hlen. unfold TEXTURE_SLOTS. cbn. lia. }
  destruct (LoadAll_Ok scene_textures sm e flags sm1 e1 (proj1 Hn) Hload)
    as (_ & _ & Hcount & Hlen1 & Hp & _).
  cbn [List.length scene_textures Z.of_nat Pos.of_succ_nat Pos.succ] in Hcount.
  assert (Hok1 : slots_ok sm1) by (split; [congruence | lia]).
  destruct (BindGLTextures_within sm1 e1 (slots_ok_within sm1 Hok1)) as (e2 & Hbind & _).
  exists sm1, e2. rewrite LoadSceneTextures_is_LoadAll.
  rewrite (bind_Ok _ _ _ _ _ _ _ Hload).
  split; [exact Hbind|]. split; [exact Hok1|]. split; [lia | exact Hp].
Qed.

(** X9.  A new manager has its 16 slots and a count of 0.  From a table of
    16 slots with a count between 0 and 16, each method returns and leaves
    such a table, as long as every load finds a free slot: a load with the
    count below 16 returns the flag of the file and adds one to the count
    exactly when the flag is true; [BindGLTextures] leaves the manager as it
    was; [DestroyGLTextures] and [DefineObjectMaterials] leave the count;
    with the count at most 6, [LoadSceneTextures] and, with a shader bound,
    [PrepareScene] add at most ten; with a shader bound, a frame leaves the
    manager as it was.  A load into a full table is not covered. *)
Theorem X9_the_count_stays_within_the_sixteen_slots :
  (forall p, slots_ok (SceneManager_new p)) /\
  forall sm e,
    slots_ok sm ->
    (forall filename tag,
        m_loadedTextures sm < 16 ->
        exists sm' e',
          CreateGLTexture filename tag sm e = Ok (loads_in e filename, sm', e') /\
          slots_ok sm' /\
          m_loadedTextures sm'
          = m_loadedTextures sm + (if loads_in e filename then 1 else 0)) /\
    (exists e', BindGLTextures sm e = Ok (tt, sm, e')) /\
    (exists sm' e',
        DestroyGLTextures sm e = Ok (tt, sm', e') /\
        slots_ok sm' /\ m_loadedTextures sm' = m_loadedTextures sm) /\
    (m_loadedTextures sm <= 6 ->
     exists sm' e',
       LoadSceneTextures sm e = Ok (tt, sm', e') /\
       slots_ok sm' /\
       m_loadedTextures sm <= m_loadedTextures sm' <= m_loadedTextures sm + 10) /\
    (exists sm',
        DefineObjectMaterials sm e = Ok (tt, sm', e) /\
        slots_ok sm' /\ m_loadedTextures sm' = m_loadedTextures sm) /\
    (m_loadedTextures sm <= 6 ->
     m_pShaderManager sm = TheShader ->
     exists sm' e',
       PrepareScene sm e = Ok (tt, sm', e') /\
       slots_ok sm' /\
       m_loadedTextures sm <= m_loadedTextures sm' <= m_loadedTextures sm + 10) /\
    (m_pShaderManager sm = TheShader ->
     exists e', RenderScene sm e = Ok (tt, sm, e')).
Proof.
  split.
  - intros p. split; [reflexivity | cbn; lia].
  - intros sm e Hok. pose proof (slots_ok_within sm Hok) as Hw.
    pose proof Hok as [Hlen Hn].
    split; [|split; [|split; [|split; [|split; [|split]]]]].
    + intros filename tag Hroom.
      destruct (CreateGLTexture_room filename tag sm e) as (sm' & e' & Hload).
      { rewrite Hlen. unfold TEXTURE_SLOTS. lia. }
      exists sm', e'. split; [exact Hload|].
      split; [apply (CreateGLTexture_slots _ _ _ _ _ _ _ Hload Hok)|].
      apply CreateGLTexture_Ok in Hload.
      destruct Hload as [(Hb & -> & _)|(Hb & _ & t & _ & ->)]; rewrite Hb;
        cbn [m_loadedTextures]; lia.
    + destruct (BindGLTextures_within sm e Hw) as (e' & Hbind & _).
      exists e'. exact Hbind.
    + destruct (DestroyGLTextures_loop (Z.to_nat (m_loadedTextures sm - 0)) 0 sm e)
        as (sm1 & e1 & names & Hrun & _ & _ & Hcount & Hlen1 & _).
      { lia. }
      { rewrite Hlen. unfold TEXTURE_SLOTS. lia. }
      exists sm1, e1. unfold DestroyGLTextures.
      rewrite (bind_Ok _ _ _ _ _ _ _ (this_Ok sm e)). unfold for_range.
      split; [exact Hrun|]. split; [|exact Hcount].
      split; congruence.
    + intros H6.
      destruct (LoadSceneTextures_room sm e Hok H6) as (sm' & e' & Hrun & Hok' & Hc & _).
      exists sm', e'. auto.
    + eexists. rewrite DefineObjectMaterials_Ok.
      split; [reflexivity|]. split; [exact Hok | reflexivity].
    + intros H6 Hp.
      destruct (LoadSceneTextures_room sm e Hok H6) as (sm1 & e1 & Hrun & Hok1 & Hc & Hp1).
      rewrite Hp in Hp1.
      eexists. eexists. split; [apply (PrepareScene_run sm e sm1 e1 Hrun Hp1)|].
      split; [exact Hok1 | exact Hc].
    + intros Hp. rewrite RenderScene_is_its_calls.
      destruct (perform_all_returns RenderScene_calls sm e Hw (or_introl Hp))
        as (e' & Hrun & _).
      exists e'. exact Hrun.
Qed.

(** The loading of the scene's textures into a new manager. *)
Lemma LoadSceneTextures_new p e :
  exists sm' e',
    LoadSceneTextures (SceneManager_new p) e = Ok (tt, sm', e') /\
    map texture_tag (loaded sm')
    = map snd (filter (fun l => loads_in e (fst l)) scene_textures) /\
    (forall n t, nth_error (loaded sm') n = Some t ->
                 gl_binding (Z.of_nat n) (gl e') = texture_ID t) /\
    0 <= m_loadedTextures sm' <= 10 /\
    List.length (m_textureIDs sm') = TEXTURE_SLOTS /\
    m_pShaderManager sm' = p /\
    m_objectMaterials sm' = [] /\
    uniforms e' = uniforms e /\
    meshes_loaded e' = meshes_loaded e /\ meshes_drawn e' = meshes_drawn e.
Proof.
  destruct (LoadAll_room scene_textures (SceneManager_new p) e)
    as (flags & sm1 & e1 & Hload); [cbn; lia | cbn; lia |].
  destruct (LoadAll_Ok scene_textures (SceneManager_new p) e flags sm1 e1
              ltac:(cbn; lia) Hload)
    as (_ & Htags & Hcount & Hlen & Hp & Hm & _ & Hu & Hl & Hd & _).
  cbn [SceneManager_new m_loadedTextures m_textureIDs m_pShaderManager
       m_objectMaterials] in Hcount, Hlen, Hp, Hm.
  rewrite repeat_length in Hlen.
  assert (Hw : within_slots sm1).
  { unfold within_slots. rewrite Hlen. unfold TEXTURE_SLOTS. cbn in Hcount. lia. }
  destruct (BindGLTextures_within sm1 e1 Hw) as (e2 & Hbind & Hbound & _ & _ & He2).
  exists sm1, e2. rewrite LoadSceneTextures_is_LoadAll.
  rewrite (bind_Ok _ _ _ _ _ _ _ Hload).
  split; [exact Hbind|]. split; [exact Htags|]. split; [exact Hbound|].
  split; [cbn in Hcount; lia|]. split; [exact Hlen|].
  split; [exact Hp|]. split; [exact Hm|].
  rewrite He2. env_simpl. auto.
Qed.

(** X10.  On a new manager [LoadSceneTextures] returns in every environment,
    whichever of its ten files are missing or have an unsupported channel
    count.  The slots in use then hold, in the order fur, black, glass, wall,
    keyboard, screen, book, pages, headphones, floor, the tags of exactly the
    files that decoded with 3 or 4 channels, so a tag's slot is the number of
    earlier files that loaded; and unit [n] is bound to the ID in slot [n]. *)
Theorem X10_LoadSceneTextures_loads_what_decodes_in_order :
  forall p e,
    exists sm' e',
      LoadSceneTextures (SceneManager_new p) e = Ok (tt, sm', e') /\
      map texture_tag (loaded sm')
      = map snd (filter (fun l => loads_in e (fst l)) scene_textures) /\
      (forall n t, nth_error (loaded sm') n = Some t ->
                   gl_binding (Z.of_nat n) (gl e') = texture_ID t) /\
      0 <= m_loadedTextures sm' <= 10.
Proof.
  intros p e.
  destruct (LoadSceneTextures_new p e)
    as (sm' & e' & Hrun & Htags & Hbound & Hcount & _).
  exists sm', e'. auto.
Qed.

Lemma PrepareScene_with_shader e :
  exists sm' e',
    PrepareScene (SceneManager_new TheShader) e = Ok (tt, sm', e') /\
    m_objectMaterials sm' = [furmaterial; furmaterial] /\
    uniforms e' = uniforms e ++ light_writes /\
    meshes_loaded e' = meshes_loaded e ++ all_meshes /\
    meshes_drawn e' = meshes_drawn e /\
    within_slots sm' /\ can_set_material sm'.
Proof.
  destruct (LoadSceneTextures_new TheShader e)
    as (sm1 & e1 & Hrun & _ & _ & Hcount & Hlen & Hp & Hm & Hu & Hl & Hd).
  eexists. eexists. split; [apply (PrepareScene_run _ _ _ _ Hrun Hp)|].
  cbn [m_objectMaterials m_pShaderManager]. env_simpl.
  rewrite Hm, Hu, Hl, Hd. cbn [app].
  split; [reflexivity|]. split; [reflexivity|]. split; [reflexivity|].
  split; [reflexivity|]. split.
  - unfold within_slots. cbn [m_loadedTextures m_textureIDs].
    rewrite Hlen. unfold TEXTURE_SLOTS. lia.
  - left. exact Hp.
Qed.

(** X11.  [PrepareScene] on a new manager returns exactly when the shader
    pointer is not null.  With a shader it leaves the materials [fur; fur],
    has written the twelve light uniforms and nothing else, has asked the
    mesh library for each of the eight meshes once, has drawn nothing, and
    leaves a manager on which a frame can run.  With a null pointer it
    crashes, in every environment. *)
Theorem X11_PrepareScene_needs_a_shader :
  forall e,
    (exists sm' e',
       PrepareScene (SceneManager_new TheShader) e = Ok (tt, sm', e') /\
       m_objectMaterials sm' = [furmaterial; furmaterial] /\
       uniforms e' = uniforms e ++ light_writes /\
       meshes_loaded e' = meshes_loaded e ++ all_meshes /\
       NoDup all_meshes /\
       meshes_drawn e' = meshes_drawn e /\
       within_slots sm' /\ can_set_material sm') /\
    PrepareScene (SceneManager_new NullShader) e = Crash NullDereference.
Proof.
  intros e. split.
  - destruct (PrepareScene_with_shader e)
      as (sm' & e' & Hrun & Hm & Hu & Hl & Hd & Hw & Hc).
    exists sm', e'. split; [exact Hrun|]. split; [exact Hm|]. split; [exact Hu|].
    split; [exact Hl|]. split; [|auto].
    unfold all_meshes. repeat constructor; cbn; intuition discriminate.
  - destruct (LoadSceneTextures_new NullShader e)
      as (sm1 & e1 & Hrun & _ & _ & _ & _ & Hp & _).
    apply (PrepareScene_null _ _ _ _ Hrun Hp).
Qed.

(* ------------------------------------------------------------------ *)
(** * What a frame leaves alone *)
(* ------------------------------------------------------------------ *)

Lemma only_uniforms_and_draws_refl e : only_uniforms_and_draws e e.
Proof. unfold only_uniforms_and_draws. repeat split. Qed.

Lemma only_uniforms_and_draws_trans e1 e2 e3 :
  only_uniforms_and_draws e1 e2 -> only_uniforms_and_draws e2 e3 ->
  only_uniforms_and_draws e1 e3.
Proof.
  unfold only_uniforms_and_draws.
  intros (A1 & A2 & A3 & A4 & A5 & A6 & A7) (B1 & B2 & B3 & B4 & B5 & B6 & B7).
  repeat split; congruence.
Qed.

Lemma perform_env c sm e u sm' e' :
  perform c sm e = Ok (u, sm', e') ->
  only_uniforms_and_draws e e' /\ exists w, uniforms e' = uniforms e ++ w.
Proof.
  assert (Hsame : only_uniforms_and_draws e e /\ exists w, uniforms e = uniforms e ++ w).
  { split; [apply only_uniforms_and_draws_refl|]. exists []. rewrite app_nil_r. reflexivity. }
  assert (Hwrite : forall w,
             only_uniforms_and_draws e (with_uniforms (uniforms e ++ w) e) /\
             exists w', uniforms (with_uniforms (uniforms e ++ w) e) = uniforms e ++ w').
  { intros w. split; [unfold only_uniforms_and_draws; repeat split|].
    exists w. reflexivity. }
  destruct c as [s rx ry rz p | t | t | a b | mesh]; cbn [perform]; intros H.
  - unfold SetTransformations in H. rewrite (bind_Ok _ _ _ _ _ _ _ (this_Ok sm e)) in H.
    destruct (m_pShaderManager sm) eqn:Hp.
    + injection H as _ _ <-. exact Hsame.
    + rewrite shader_set_bound in H by exact Hp. injection H as _ _ <-. apply Hwrite.
  - unfold SetShaderTexture in H. rewrite (bind_Ok _ _ _ _ _ _ _ (this_Ok sm e)) in H.
    destruct (m_pShaderManager sm) eqn:Hp.
    + injection H as _ _ <-. exact Hsame.
    + rewrite (bind_Ok _ _ _ _ _ _ _ (shader_set_bound _ _ sm e Hp)) in H.
      unfold bind at 1 in H.
      destruct (FindTextureSlot t sm _) as [[[j sm1] e1]|] eqn:Hfind; [|discriminate].
      apply FindTextureSlot_frame in Hfind. destruct Hfind as [-> ->].
      rewrite shader_set_bound in H by exact Hp. injection H as _ _ <-.
      env_simpl. rewrite <- app_assoc. apply Hwrite.
  - destruct (m_objectMaterials sm) as [|m ms] eqn:Hms.
    + rewrite SetShaderMaterial_empty in H by exact Hms. injection H as _ _ <-.
      exact Hsame.
    + assert (Hne : m_objectMaterials sm <> []) by congruence.
      destruct (m_pShaderManager sm) eqn:Hp.
      * rewrite SetShaderMaterial_null_nonempty in H by assumption. discriminate.
      * rewrite SetShaderMaterial_nonempty in H by exact Hne. cbv zeta in H.
        rewrite material_writes_bound in H by exact Hp.
        injection H as _ _ <-. apply Hwrite.
  - unfold SetTextureUVScale in H. rewrite (bind_Ok _ _ _ _ _ _ _ (this_Ok sm e)) in H.
    destruct (m_pShaderManager sm) eqn:Hp.
    + injection H as _ _ <-. exact Hsame.
    + rewrite shader_set_bound in H by exact Hp. injection H as _ _ <-. apply Hwrite.
  - injection H as _ _ <-. split; [unfold only_uniforms_and_draws; repeat split|].
    exists []. env_simpl. rewrite app_nil_r. reflexivity.
Qed.

Lemma perform_all_env cs :
  forall sm e u sm' e',
    perform_all cs sm e = Ok (u, sm', e') ->
    only_uniforms_and_draws e e' /\ exists w, uniforms e' = uniforms e ++ w.
Proof.
  induction cs as [|c cs IH]; intros sm e u sm' e' H; cbn [perform_all] in H.
  - injection H as _ _ <-. split; [apply only_uniforms_and_draws_refl|].
    exists []. rewrite app_nil_r. reflexivity.
  - apply bind_inv in H. destruct H as (a & sm1 & e1 & Hc & H).
    apply perform_env in Hc. destruct Hc as [H1 [w1 Hw1]].
    apply IH in H. destruct H as [H2 [w2 Hw2]].
    split; [apply (only_uniforms_and_draws_trans _ _ _ H1 H2)|].
    exists (w1 ++ w2). rewrite Hw2, Hw1, app_assoc. reflexivity.
Qed.

(** X12.  A frame that returns has made no OpenGL call, printed nothing,
    decoded nothing and loaded no mesh: apart from the draws it issued, the
    environment differs only by uniform writes appended to those already
    received. *)
Theorem X12_a_frame_only_writes_uniforms_and_draws :
  forall sm e u sm' e',
    RenderScene sm e = Ok (u, sm', e') ->
    gl e' = gl e /\ cout e' = cout e /\ stbi_images e' = stbi_images e /\
    meshes_loaded e' = meshes_loaded e /\
    exists w, uniforms e' = uniforms e ++ w.
Proof.
  intros sm e u sm' e' H. rewrite RenderScene_is_its_calls in H.
  apply perform_all_env in H.
  destruct H as [(_ & _ & Hi & Hc & Hg & Hl & _) Hw]. auto.
Qed.

Lemma frames_return n :
  forall sm e,
    within_slots sm -> can_set_material sm ->
    exists e',
      frames n sm e = Ok (tt, sm, e') /\
      meshes_drawn e' = meshes_drawn e ++ copies n (map drawn_mesh expected_frame) /\
      only_uniforms_and_draws e e'.
Proof.
  induction n as [|n IH]; intros sm e Hw Hm; cbn [frames copies].
  - exists e. split; [reflexivity|]. rewrite app_nil_r.
    split; [reflexivity | apply only_uniforms_and_draws_refl].
  - destruct (perform_all_returns RenderScene_calls sm e Hw Hm) as (e1 & Hrun & Hd1).
    pose proof (perform_all_env _ _ _ _ _ _ Hrun) as [Ho1 _].
    rewrite <- RenderScene_is_its_calls in Hrun.
    destruct (IH sm e1 Hw Hm) as (e2 & Hrest & Hd2 & Ho2).
    exists e2. rewrite (bind_Ok _ _ _ _ _ _ _ Hrun).
    split; [exact Hrest|]. split.
    + rewrite Hd2, Hd1, frame_draws, app_assoc. reflexivity.
    + apply (only_uniforms_and_draws_trans _ _ _ Ho1 Ho2).
Qed.

(** X13.  After [PrepareScene] on a new manager with a shader, in any
    environment, any number of frames run one after the other all return;
    the manager is the same after them, the meshes drawn are the twenty of a
    frame repeated once per frame, and the frames make no OpenGL call. *)
Theorem X13_frames_after_PrepareScene :
  forall e n,
    exists sm e1 e2,
      PrepareScene (SceneManager_new TheShader) e = Ok (tt, sm, e1) /\
      frames n sm e1 = Ok (tt, sm, e2) /\
      meshes_drawn e2
      = meshes_drawn e ++ copies n (map drawn_mesh expected_frame) /\
      gl e2 = gl e1.
Proof.
  intros e n.
  destruct (PrepareScene_with_shader e) as (sm & e1 & Hprep & _ & _ & _ & Hd & Hw & Hm).
  destruct (frames_return n sm e1 Hw Hm) as (e2 & Hrun & Hd2 & Ho).
  exists sm, e1, e2. split; [exact Hprep|]. split; [exact Hrun|].
  split; [rewrite Hd2, Hd; reflexivity|].
  destruct Ho as (_ & _ & _ & _ & Hg & _). exact Hg.
Qed.

Lemma perform_null c sm e :
  m_pShaderManager sm = NullShader ->
  m_objectMaterials sm = [] ->
  perform c sm e
  = Ok (tt, sm, with_meshes (meshes_loaded e) (meshes_drawn e ++ draws_of [c]) e).
Proof.
  intros Hp Hm.
  assert (Hsame : with_meshes (meshes_loaded e) (meshes_drawn e ++ []) e = e)
    by (destruct e; cbn; rewrite app_nil_r; reflexivity).
  destruct c as [s rx ry rz p | t | t | a b | mesh];
    cbn [perform draws_of flat_map app]; rewrite ?Hsame.
  - unfold SetTransformations. step. rewrite Hp. reflexivity.
  - unfold SetShaderTexture. step. rewrite Hp. reflexivity.
  - apply SetShaderMaterial_empty. exact Hm.
  - unfold SetTextureUVScale. step. rewrite Hp. reflexivity.
  - reflexivity.
Qed.

Lemma perform_all_null cs :
  forall sm e,
    m_pShaderManager sm = NullShader ->
    m_objectMaterials sm = [] ->
    perform_all cs sm e
    = Ok (tt, sm, with_meshes (meshes_loaded e) (meshes_drawn e ++ draws_of cs) e).
Proof.
  induction cs as [|c cs IH]; intros sm e Hp Hm; cbn [perform_all].
  - destruct e; cbn. rewrite app_nil_r. reflexivity.
  - rewrite (bind_Ok _ _ _ _ _ _ _ (perform_null c sm e Hp Hm)).
    rewrite IH by assumption. env_simpl.
    rewrite (draws_of_cons c cs), app_assoc. reflexivity.
Qed.

(** X14.  A frame on a manager with a null shader pointer: with no material
    registered it returns, having issued its twenty draws and written no
    uniform; with a material registered it crashes on the null pointer, at
    the first [SetShaderMaterial]. *)
Theorem X14_a_frame_without_a_shader :
  forall sm e,
    m_pShaderManager sm = NullShader ->
    (m_objectMaterials sm = [] ->
     RenderScene sm e
     = Ok (tt, sm,
           with_meshes (meshes_loaded e)
             (meshes_drawn e ++ map drawn_mesh expected_frame) e)) /\
    (m_objectMaterials sm <> [] -> RenderScene sm e = Crash NullDereference).
Proof.
  intros sm e Hp. split; intros Hm.
  - rewrite RenderScene_is_its_calls, <- frame_draws.
    apply perform_all_null; assumption.
  - rewrite RenderScene_is_its_calls.
    unfold RenderScene_calls, RenderScene_own. cbn [app perform_all perform].
    assert (H1 : forall s rx ry rz p, SetTransformations s rx ry rz p sm e = Ok (tt, sm, e))
      by (intros; unfold SetTransformations; step; rewrite Hp; reflexivity).
    assert (H2 : forall t, SetShaderTexture t sm e = Ok (tt, sm, e))
      by (intros; unfold SetShaderTexture; step; rewrite Hp; reflexivity).
    rewrite (bind_Ok _ _ _ _ _ _ _ (H1 _ _ _ _ _)).
    rewrite (bind_Ok _ _ _ _ _ _ _ (H2 _)).
    apply bind_Crash. apply SetShaderMaterial_null_nonempty; assumption.
Qed.

(* ------------------------------------------------------------------ *)
(** * What a frame is seen to do *)
(* ------------------------------------------------------------------ *)

(** The calls of a frame, seen with a shader bound: the twenty draws, each
    after its own transform, texture and material writes. *)
Lemma frame_seen slot materials u :
  map seen (observed (flat_map (events_of slot materials u) RenderScene_calls))
  = map (expected_seen slot materials u) expected_frame.
Proof. destruct materials; reflexivity. Qed.

Lemma frame_meshes slot materials u :
  map observed_mesh (observed (flat_map (events_of slot materials u) RenderScene_calls))
  = map drawn_mesh expected_frame.
Proof. destruct materials; reflexivity. Qed.

Lemma frame_model_first slot materials u :
  forallb (fun o => model_first (observed_writes o))
    (observed (flat_map (events_of slot materials u) RenderScene_calls)) = true.
Proof. destruct materials; reflexivity. Qed.

(** The draws of a frame alone, as they are seen when nothing is written. *)
Lemma frame_draws_only :
  observed (map Drew (draws_of RenderScene_calls))
  = map (fun r => mkObserved (drawn_mesh r) []) expected_frame.
Proof. vm_compute. reflexivity. Qed.

Lemma skipn_length_app {A} (l r : list A) : skipn (List.length l) (l ++ r) = r.
Proof. induction l as [|x l IH]; [reflexivity | exact IH]. Qed.

Lemma events_between_writes e w :
  events_between e (with_uniforms (uniforms e ++ w) e) = map wrote w.
Proof.
  unfold events_between. env_simpl. rewrite skipn_length_app, skipn_all.
  apply app_nil_r.
Qed.

Lemma events_between_draws e d :
  events_between e (with_meshes (meshes_loaded e) (meshes_drawn e ++ d) e) = map Drew d.
Proof.
  unfold events_between. env_simpl. rewrite skipn_length_app, skipn_all. reflexivity.
Qed.

Lemma events_between_same e : events_between e e = [].
Proof. unfold events_between. rewrite !skipn_all. reflexivity. Qed.

Lemma found_slot_is_FindTextureSlot tag sm e :
  within_slots sm -> FindTextureSlot tag sm e = Ok (found_slot tag sm, sm, e).
Proof. intros Hw. apply (Find_loaded tag sm e Hw). Qed.

Lemma material_written_is_SetShaderMaterial tag sm e :
  m_pShaderManager sm = TheShader ->
  SetShaderMaterial tag sm e
  = Ok (tt, sm,
        with_uniforms
          (uniforms e ++ material_written tag (m_objectMaterials sm) (uninitialized e))
          e).
Proof.
  intros Hp. unfold material_written.
  destruct (m_objectMaterials sm) as [|m ms] eqn:Hms.
  - rewrite SetShaderMaterial_empty by exact Hms.
    destruct e; cbn. rewrite app_nil_r. reflexivity.
  - assert (Hne : m_objectMaterials sm <> []) by congruence.
    rewrite SetShaderMaterial_nonempty by exact Hne. cbv zeta.
    rewrite material_writes_bound by exact Hp. rewrite Hms. reflexivity.
Qed.

(** With a shader bound and the count within the array, a call returns and
    the collaborators receive what [events_of] says. *)
Lemma perform_seen c sm e :
  m_pShaderManager sm = TheShader ->
  within_slots sm ->
  exists e',
    perform c sm e = Ok (tt, sm, e') /\
    events_between e e'
    = events_of (fun tag => found_slot tag sm) (m_objectMaterials sm) (uninitialized e) c /\
    uninitialized e' = uninitialized e.
Proof.
  intros Hp Hw.
  destruct c as [s rx ry rz p | t | t | a b | mesh]; cbn [perform events_of].
  - unfold SetTransformations. step. rewrite Hp, shader_set_bound by exact Hp.
    eexists. split; [reflexivity|].
    split; [rewrite events_between_writes|]; reflexivity.
  - rewrite SetShaderTexture_bound by assumption.
    eexists. split; [reflexivity|].
    split; [rewrite events_between_writes|]; reflexivity.
  - unfold material_written.
    destruct (m_objectMaterials sm) as [|m ms] eqn:Hms.
    + rewrite SetShaderMaterial_empty by exact Hms.
      exists e. split; [reflexivity|]. split; [apply events_between_same | reflexivity].
    + assert (Hne : m_objectMaterials sm <> []) by congruence.
      rewrite SetShaderMaterial_nonempty by exact Hne. cbv zeta.
      rewrite material_writes_bound by exact Hp. rewrite Hms.
      eexists. split; [reflexivity|].
      split; [rewrite events_between_writes|]; reflexivity.
  - unfold SetTextureUVScale. step. rewrite Hp, shader_set_bound by exact Hp.
    eexists. split; [reflexivity|].
    split; [rewrite events_between_writes|]; reflexivity.
  - unfold DrawMesh. rewrite on_env_Ok.
    eexists. split; [reflexivity|].
    split; [rewrite events_between_draws|]; reflexivity.
Qed.

Lemma observe_seen cs :
  forall sm e,
    m_pShaderManager sm = TheShader ->
    within_slots sm ->
    exists e',
      observe cs sm e
      = Ok (flat_map (events_of (fun tag => found_slot tag sm) (m_objectMaterials sm)
                        (uninitialized e)) cs, sm, e') /\
      uninitialized e' = uninitialized e.
Proof.
  induction cs as [|c cs IH]; intros sm e Hp Hw; cbn [observe flat_map].
  - exists e. split; reflexivity.
  - destruct (perform_seen c sm e Hp Hw) as (e1 & Hc & Hev & Hu).
    destruct (IH sm e1 Hp Hw) as (e2 & Hcs & Hu2).
    exists e2.
    rewrite (bind_Ok _ _ _ _ _ _ _ (env_Ok sm e)).
    rewrite (bind_Ok _ _ _ _ _ _ _ Hc).
    rewrite (bind_Ok _ _ _ _ _ _ _ (env_Ok sm e1)).
    rewrite (bind_Ok _ _ _ _ _ _ _ Hcs).
    cbv [ret]. rewrite Hev, Hu. split; [reflexivity | congruence].
Qed.

(** Observing does not change the run: a method is its calls, observed or
    not. *)
Lemma observe_runs cs :
  forall sm e, perform_all cs sm e = (observe cs ;; ret tt) sm e.
Proof.
  induction cs as [|c cs IH]; intros sm e; cbn [perform_all observe].
  - reflexivity.
  - unfold bind, env.
    destruct (perform c sm e) as [[[u sm1] e1]|]; [|reflexivity].
    rewrite IH. unfold bind.
    destruct (observe cs sm1 e1) as [[[events sm2] e2]|]; reflexivity.
Qed.

(** With a null shader pointer and no material registered only the draws
    are received. *)
Lemma observe_null cs :
  forall sm e,
    m_pShaderManager sm = NullShader ->
    m_objectMaterials sm = [] ->
    observe cs sm e
    = Ok (map Drew (draws_of cs), sm,
          with_meshes (meshes_loaded e) (meshes_drawn e ++ draws_of cs) e).
Proof.
  induction cs as [|c cs IH]; intros sm e Hp Hm; cbn [observe].
  - destruct e; cbn. rewrite app_nil_r. reflexivity.
  - rewrite (bind_Ok _ _ _ _ _ _ _ (env_Ok sm e)).
    rewrite (bind_Ok _ _ _ _ _ _ _ (perform_null c sm e Hp Hm)).
    rewrite (bind_Ok _ _ _ _ _ _ _ (env_Ok sm _)).
    rewrite (bind_Ok _ _ _ _ _ _ _ (IH sm _ Hp Hm)).
    cbv [ret]. rewrite events_between_draws. env_simpl.
    rewrite (draws_of_cons c cs), map_app, app_assoc. reflexivity.
Qed.

(** C6 (as the code has it).  A frame is its calls, observed or not.  With a
    shader bound and the count of loaded textures within the array, the
    frame returns and is as specified: the shader manager and the mesh
    library receive the twenty expected draws in order, and between one draw
    and the next first a write of [model], and no second one, the writes
    [bUseTexture] = 1 and [objectTexture] = the slot [FindTextureSlot] gives
    for the expected texture tag, and the material writes of
    [SetShaderMaterial] for the expected material tag, or none where no
    material is expected; [found_slot] and [material_written] are what the
    two methods find and write.  With a null shader pointer and no material
    registered the same twenty draws are received and no write at all. *)
Theorem C6_each_draw_follows_its_own_writes :
  forall sm e,
    RenderScene sm e = (observe RenderScene_calls ;; ret tt) sm e /\
    (m_pShaderManager sm = TheShader ->
     within_slots sm ->
     frame_as_specified sm e /\
     (forall tag e0, FindTextureSlot tag sm e0 = Ok (found_slot tag sm, sm, e0)) /\
     (forall tag e0,
         SetShaderMaterial tag sm e0
         = Ok (tt, sm,
               with_uniforms
                 (uniforms e0
                  ++ material_written tag (m_objectMaterials sm) (uninitialized e0))
                 e0)) /\
     exists events e',
       observe RenderScene_calls sm e = Ok (events, sm, e') /\
       map seen (observed events)
       = map (expected_seen (fun tag => found_slot tag sm) (m_objectMaterials sm)
                (uninitialized e)) expected_frame) /\
    (m_pShaderManager sm = NullShader ->
     m_objectMaterials sm = [] ->
     exists events e',
       observe RenderScene_calls sm e = Ok (events, sm, e') /\
       uniforms e' = uniforms e /\
       observed events = map (fun r => mkObserved (drawn_mesh r) []) expected_frame).
Proof.
  intros sm e. split; [|split].
  - rewrite RenderScene_is_its_calls. apply observe_runs.
  - intros Hp Hw.
    destruct (observe_seen RenderScene_calls sm e Hp Hw) as (e' & Hobs & _).
    split; [|split; [|split]].
    + eexists. exists sm, e'. split; [exact Hobs|].
      split; [apply frame_meshes | apply frame_model_first].
    + intros tag e0. apply found_slot_is_FindTextureSlot. exact Hw.
    + intros tag e0. apply material_written_is_SetShaderMaterial. exact Hp.
    + eexists. exists e'. split; [exact Hobs | apply frame_seen].
  - intros Hp Hm. eexists. eexists.
    split; [apply observe_null; assumption|].
    split; [reflexivity | apply frame_draws_only].
Qed.

(* ------------------------------------------------------------------ *)
(** * The geometry of the model matrix *)
(* ------------------------------------------------------------------ *)

Section ModelGeometry.
Local Open Scope R_scope.

Lemma rad_0 : Textbook.rad 0 = 0.
Proof. unfold Textbook.rad. field. Qed.

End ModelGeometry.

(** X15.  Whatever the scale and the three angles, the model matrix is
    affine and carries the origin of the mesh to the position given: its
    last column is (tx, ty, tz, 1) and its other three columns have 0 as
    their fourth component. *)
Theorem X15_the_model_matrix_places_the_origin_at_the_position :
  forall s rx ry rz t,
    mat4_mul_vec (modelView s rx ry rz t) (mkvec4 0 0 0 1)
    = mkvec4 (v3x t) (v3y t) (v3z t) 1 /\
    col3 (modelView s rx ry rz t) = mkvec4 (v3x t) (v3y t) (v3z t) 1 /\
    v4w (col0 (modelView s rx ry rz t)) = 0%R /\
    v4w (col1 (modelView s rx ry rz t)) = 0%R /\
    v4w (col2 (modelView s rx ry rz t)) = 0%R.
Proof.
  intros s rx ry rz t. rewrite modelView_model. unfold Textbook.model.
  destruct s, t.
  cbv [mat4_mul mat4_mul_vec vec4_add vec4_scale col0 col1 col2 col3
       v4x v4y v4z v4w v3x v3y v3z
       Textbook.T Textbook.S Textbook.Rx Textbook.Ry Textbook.Rz].
  repeat split; try (f_equal; ring); ring.
Qed.

(** X17.  Each rotation turns counter-clockwise about its axis, seen from the
    positive end of the axis: alone, with unit scale and no translation, a
    rotation of [a] degrees about x carries +y to (0, cos r, sin r), one
    about y carries +z to (sin r, 0, cos r) and +x to (cos r, 0, - sin r),
    one about z carries +x to (cos r, sin r, 0), where r is [radians a]. *)
Theorem X17_rotations_are_counter_clockwise :
  forall a,
    mat4_mul_vec (modelView (mkvec3 1 1 1) a 0 0 (mkvec3 0 0 0)) (mkvec4 0 1 0 0)
    = mkvec4 0 (cos (radians a)) (sin (radians a)) 0 /\
    mat4_mul_vec (modelView (mkvec3 1 1 1) 0 a 0 (mkvec3 0 0 0)) (mkvec4 0 0 1 0)
    = mkvec4 (sin (radians a)) 0 (cos (radians a)) 0 /\
    mat4_mul_vec (modelView (mkvec3 1 1 1) 0 0 a (mkvec3 0 0 0)) (mkvec4 1 0 0 0)
    = mkvec4 (cos (radians a)) (sin (radians a)) 0 0 /\
    mat4_mul_vec (modelView (mkvec3 1 1 1) 0 a 0 (mkvec3 0 0 0)) (mkvec4 1 0 0 0)
    = mkvec4 (cos (radians a)) 0 (- sin (radians a)) 0.
Proof.
  intros a. rewrite !modelView_model, !radians_rad. unfold Textbook.model.
  rewrite rad_0.
  unfold Textbook.Rx, Textbook.Ry, Textbook.Rz.
  rewrite cos_0, sin_0.
  cbv [mat4_mul mat4_mul_vec vec4_add vec4_scale col0 col1 col2 col3
       v4x v4y v4z v4w v3x v3y v3z Textbook.T Textbook.S].
  repeat split; f_equal; ring.
Qed.

(** X19.  Without rotation, and with a shader bound, [SetTransformations]
    writes to [model] the matrix with (sx, sy, sz, 1) on its diagonal and
    (tx, ty, tz, 1) as its last column. *)
Theorem X19_without_rotation_the_matrix_is_scale_and_position :
  forall s t sm e,
    m_pShaderManager sm = TheShader ->
    SetTransformations s 0 0 0 t sm e
    = Ok (tt, sm,
          with_uniforms
            (uniforms e ++
             [("model",
               Mat4Value (mkmat4 (mkvec4 (v3x s) 0 0 0) (mkvec4 0 (v3y s) 0 0)
                                 (mkvec4 0 0 (v3z s) 0)
                                 (mkvec4 (v3x t) (v3y t) (v3z t) 1)))]) e).
Proof.
  intros s t sm e Hp. unfold SetTransformations. step. rewrite Hp.
  rewrite shader_set_bound by exact Hp.
  rewrite modelView_model, model_without_rotation. reflexivity.
Qed.

(* ------------------------------------------------------------------ *)
(** * What teardown leaves in the table *)
(* ------------------------------------------------------------------ *)

Lemma DestroyGLTextures_loop_ids count :
  forall i sm e,
    0 <= i ->
    i + Z.of_nat count <= Z.of_nat (List.length (m_textureIDs sm)) ->
    exists sm' e',
      for_count count i
        (fun i => name <- glGenTextures ;; textureIDs_assign i (set_ID name)) sm e
      = Ok (tt, sm', e') /\
      (forall u t, i <= u < i + Z.of_nat count ->
                   slot (m_textureIDs sm) u = Some t ->
                   slot (m_textureIDs sm') u
                   = Some (mkTexture (texture_tag t) (gl_next (gl e) + (u - i)))) /\
      (forall u, ~ (i <= u < i + Z.of_nat count) ->
                 slot (m_textureIDs sm') u = slot (m_textureIDs sm) u) /\
      m_loadedTextures sm' = m_loadedTextures sm /\
      List.length (m_textureIDs sm') = List.length (m_textureIDs sm).
Proof.
  induction count as [|count IH]; intros i sm e Hi Hbound.
  - exists sm, e. cbn [for_count]. split; [reflexivity|].
    split; [intros; lia|]. auto.
  - destruct (slot_inside (m_textureIDs sm) i) as [t Ht]; [lia|].
    set (sm1 := mkSceneManager (m_pShaderManager sm)
                  (replace_nth (Z.to_nat i) (set_ID (gl_next (gl e)) t) (m_textureIDs sm))
                  (m_loadedTextures sm) (m_objectMaterials sm)).
    set (e1 := with_gl (snd (gl_GenTextures (gl e))) e).
    assert (Hbody :
      (name <- glGenTextures ;; textureIDs_assign i (set_ID name)) sm e
      = Ok (tt, sm1, e1)).
    { run_primitives. cbv [gl_GenTextures]. rewrite Ht. reflexivity. }
    destruct (IH (i + 1) sm1 e1) as (sm' & e' & Hrun & Hin & Hout & Hn & Hl).
    { lia. }
    { subst sm1. cbn [m_textureIDs]. rewrite length_replace_nth. lia. }
    exists sm', e'. cbn [for_count]. rewrite (bind_Ok _ _ _ _ _ _ _ Hbody).
    split; [exact Hrun|]. split; [|split; [|split]].
    + intros u t' Hu Hu'. destruct (Z.eq_dec u i) as [->|Hne].
      * rewrite Hout by lia. subst sm1. cbn [m_textureIDs].
        rewrite (slot_replace_nth _ _ t _ Ht).
        rewrite Ht in Hu'. injection Hu' as <-. unfold set_ID. do 2 f_equal. lia.
      * rewrite (Hin u t') by
          (try lia; subst sm1; cbn [m_textureIDs];
           rewrite slot_replace_nth_other by lia; exact Hu').
        subst e1. cbn [gl with_gl gl_GenTextures snd gl_next]. do 2 f_equal. lia.
    + intros u Hu. rewrite Hout by lia. subst sm1. cbn [m_textureIDs].
      apply slot_replace_nth_other; lia.
    + rewrite Hn. reflexivity.
    + rewrite Hl. subst sm1. cbn [m_textureIDs]. apply length_replace_nth.
Qed.

Lemma slot_loaded sm n t :
  within_slots sm ->
  slot (m_textureIDs sm) (Z.of_nat n) = Some t ->
  Z.of_nat n < m_loadedTextures sm ->
  nth_error (loaded sm) n = Some t.
Proof.
  intros Hw Hs Hlt. destruct (loaded_split sm Hw) as [Harr Hlen].
  unfold slot in Hs. destruct (Z.ltb_spec (Z.of_nat n) 0); [lia|].
  rewrite Nat2Z.id, Harr, nth_error_app1 in Hs by lia. exact Hs.
Qed.

(** X18.  After [DestroyGLTextures] the manager no longer knows the textures
    it loaded: each slot in use keeps its tag, but slot [n] now holds the
    n-th of the names generated by the teardown itself, so a tag still
    resolves to its slot while [FindTextureID] returns the name generated
    for that slot; and when the names held before were all generated
    earlier by the context, none of them is held by a slot in use any
    more. *)
Theorem X18_teardown_forgets_the_loaded_handles :
  forall sm e,
    slots_ok sm ->
    exists sm' e',
      DestroyGLTextures sm e = Ok (tt, sm', e') /\
      m_loadedTextures sm' = m_loadedTextures sm /\
      (forall n t,
          nth_error (loaded sm) n = Some t ->
          nth_error (loaded sm') n
          = Some (mkTexture (texture_tag t) (gl_next (gl e) + Z.of_nat n)) /\
          forall e'',
            (forall k t', (k < n)%nat -> nth_error (loaded sm) k = Some t' ->
                          texture_tag t' <> texture_tag t) ->
            FindTextureSlot (texture_tag t) sm' e'' = Ok (Z.of_nat n, sm', e'') /\
            FindTextureID (texture_tag t) sm' e''
            = Ok (int_of_uint32 (gl_next (gl e) + Z.of_nat n), sm', e'')) /\
      ((forall t, In t (loaded sm) -> texture_ID t < gl_next (gl e)) ->
       forall t t', In t (loaded sm) -> In t' (loaded sm') ->
                    texture_ID t' <> texture_ID t).
Proof.
  intros sm e Hok. pose proof (slots_ok_within sm Hok) as Hw.
  destruct Hok as [Hlen Hn].
  destruct (DestroyGLTextures_loop_ids (Z.to_nat (m_loadedTextures sm - 0)) 0 sm e)
    as (sm' & e' & Hrun & Hin & _ & Hcount & Hlen').
  { lia. }
  { rewrite Hlen. unfold TEXTURE_SLOTS. lia. }
  assert (Hw' : within_slots sm').
  { unfold within_slots. rewrite Hcount, Hlen', Hlen. unfold TEXTURE_SLOTS. lia. }
  assert (Hnew : forall n t, nth_error (loaded sm) n = Some t ->
             nth_error (loaded sm') n
             = Some (mkTexture (texture_tag t) (gl_next (gl e) + Z.of_nat n))).
  { intros n t Hnth. destruct (nth_error_loaded sm n t Hw Hnth) as [Hs Hlt].
    apply (slot_loaded sm' n _ Hw'); [|lia].
    rewrite (Hin (Z.of_nat n) t) by (try lia; exact Hs). do 2 f_equal. lia. }
  exists sm', e'. unfold DestroyGLTextures. step. unfold for_range.
  split; [exact Hrun|]. split; [exact Hcount|]. split.
  - intros n t Hnth. split; [apply Hnew; exact Hnth|].
    intros e'' Hfirst. destruct (Find_loaded (texture_tag t) sm' e'' Hw') as [Hslot Hid].
    rewrite Hslot, Hid.
    assert (Hpos : position (texture_tag t) (loaded sm') 0
                   = Some (0 + Z.of_nat n,
                           mkTexture (texture_tag t) (gl_next (gl e) + Z.of_nat n))).
    { apply (position_first (loaded sm') n
               (mkTexture (texture_tag t) (gl_next (gl e) + Z.of_nat n)) 0
               (Hnew n t Hnth)).
      intros k t' Hk Hk'. cbn [texture_tag].
      destruct (nth_error (loaded sm) k) as [tk|] eqn:Hold.
      - rewrite (Hnew k tk Hold) in Hk'. injection Hk' as <-. cbn [texture_tag].
        apply (Hfirst k tk Hk Hold).
      - apply nth_error_None in Hold.
        assert (n < List.length (loaded sm))%nat by (apply nth_error_Some; congruence).
        lia. }
    rewrite Hpos. split; reflexivity.
  - intros Hbelow t t' Ht Ht'.
    apply In_nth_error in Ht'. destruct Ht' as [n Hn'].
    assert (Hlt : (n < List.length (loaded sm'))%nat)
      by (apply nth_error_Some; congruence).
    rewrite (proj2 (loaded_split sm' Hw')), Hcount,
      <- (proj2 (loaded_split sm Hw)) in Hlt.
    destruct (nth_error (loaded sm) n) as [told|] eqn:Hold;
      [|apply nth_error_None in Hold; lia].
    rewrite (Hnew n told Hold) in Hn'. injection Hn' as <-. cbn [texture_ID].
    specialize (Hbelow t Ht). lia.
Qed.

(* ------------------------------------------------------------------ *)
(** * The further theorems at concrete states *)
(* ------------------------------------------------------------------ *)

Lemma two_textures_within p : within_slots (two_textures p).
Proof. unfold within_slots. cbn. lia. Defined.

Lemma two_textures_slots p : slots_ok (two_textures p).
Proof. split; [reflexivity | cbn; lia]. Defined.

(** The frame on a manager with a shader and two textures loaded. *)
Lemma C6_frame_with_a_shader_example :
  frame_as_specified (two_textures TheShader) two_textures_env /\
  exists events e',
    observe RenderScene_calls (two_textures TheShader) two_textures_env
    = Ok (events, two_textures TheShader, e') /\
    map seen (observed events)
    = map (expected_seen (fun tag => found_slot tag (two_textures TheShader))
             [furmaterial; furmaterial] zero_material) expected_frame.
Proof.
  destruct (C6_each_draw_follows_its_own_writes (two_textures TheShader)
              two_textures_env) as (_ & H & _).
  destruct (H eq_refl (two_textures_within TheShader)) as (Hspec & _ & _ & Hseen).
  split; [exact Hspec | exact Hseen].
Defined.

(** C6 (as stated) fails on a manager with a null shader pointer.  On a new
    one the frame returns with its twenty draws and not one uniform written,
    so no draw comes after a transform write; with a material registered it
    does not return at all. *)
Lemma C6_frame_without_a_shader_writes_no_transform :
  ~ frame_as_specified (SceneManager_new NullShader) example_env /\
  (exists e',
      RenderScene (SceneManager_new NullShader) example_env
      = Ok (tt, SceneManager_new NullShader, e') /\
      meshes_drawn e' = map drawn_mesh expected_frame /\
      uniforms e' = []) /\
  ~ frame_as_specified (two_textures NullShader) example_env.
Proof.
  split; [|split].
  - intros (events & sm' & e' & Hobs & _ & Hall).
    rewrite observe_null in Hobs by reflexivity. injection Hobs as <- _ _.
    vm_compute in Hall. discriminate.
  - eexists. rewrite RenderScene_is_its_calls, perform_all_null by reflexivity.
    split; [reflexivity|]. split; [|reflexivity].
    env_simpl. rewrite frame_draws. reflexivity.
  - intros (events & sm' & e' & Hobs & _).
    vm_compute in Hobs. discriminate.
Qed.

Lemma X1_pages_example :
  (FindTextureSlot "pages" (two_textures TheShader) example_env
   = Ok (-1, two_textures TheShader, example_env) /\
   FindTextureID "pages" (two_textures TheShader) example_env
   = Ok (-1, two_textures TheShader, example_env) /\
   ~ In "pages" (map texture_tag (loaded (two_textures TheShader))))
  \/
  (exists n t,
     FindTextureSlot "pages" (two_textures TheShader) example_env
     = Ok (Z.of_nat n, two_textures TheShader, example_env) /\
     FindTextureID "pages" (two_textures TheShader) example_env
     = Ok (int_of_uint32 (texture_ID t), two_textures TheShader, example_env) /\
     Z.of_nat n < m_loadedTextures (two_textures TheShader) /\
     nth_error (m_textureIDs (two_textures TheShader)) n = Some t /\
     texture_tag t = "pages" /\
     forall k t', (k < n)%nat ->
                  nth_error (m_textureIDs (two_textures TheShader)) k = Some t' ->
                  texture_tag t' <> "pages").
Proof.
  apply (X1_lookups_return_the_first_slot_with_the_tag "pages"
           (two_textures TheShader) example_env (two_textures_within TheShader)).
Defined.

Lemma X2_same_tag_example :
  exists sm e,
    LoadAll same_tag_loads (SceneManager_new TheShader) example_env
    = Ok ([true; true], sm, e) /\
    m_loadedTextures sm = 2 /\
    FindTextureSlot "fur" sm e = Ok (0, sm, e) /\
    FindTextureID "fur" sm e = Ok (1, sm, e).
Proof.
  eexists. eexists. split; [vm_compute; reflexivity|].
  match goal with
  | |- context [FindTextureSlot "fur" ?sm ?e] =>
      assert (Hrun : LoadAll same_tag_loads (SceneManager_new TheShader) example_env
                     = Ok ([true; true], sm, e)) by (vm_compute; reflexivity);
      destruct (X2_the_earliest_load_of_a_tag_is_the_one_resolved
                  same_tag_loads TheShader example_env [true; true] sm e Hrun
                  (Forall_cons _ eq_refl (Forall_cons _ eq_refl (Forall_nil _))))
        as (handles & Hlen & Hgl & Hcount & Hfirst)
  end.
  cbn in Hgl. subst handles. split; [exact Hcount|].
  match goal with
  | |- context [FindTextureSlot "fur" ?sm ?e] =>
      apply (Hfirst 0%nat "fur.jpg" "fur" 1 eq_refl eq_refl
               ltac:(intros k f' t' Hk; lia) e)
  end.
Defined.

Lemma X3_unloaded_tag_example :
  exists j,
    FindTextureSlot "glass" (two_textures TheShader) example_env
    = Ok (j, two_textures TheShader, example_env) /\
    SetShaderTexture "glass" (two_textures TheShader) example_env
    = Ok (tt, two_textures TheShader,
          with_uniforms
            (uniforms example_env ++ [("bUseTexture", IntValue 1);
                                      ("objectTexture", Sampler2DValue j)])
            example_env) /\
    (~ In "glass" (map texture_tag (loaded (two_textures TheShader))) -> j = -1).
Proof.
  apply (X3_SetShaderTexture_writes_the_slot_found "glass" (two_textures TheShader)
           example_env eq_refl (two_textures_within TheShader)).
Defined.

Lemma X4_colour_and_texture_example :
  exists e1 e2,
    (SetShaderColor 1 0 0 1 ;; SetShaderTexture "fur")
      (two_textures TheShader) example_env
    = Ok (tt, two_textures TheShader, e1) /\
    last_write "bUseTexture" (uniforms e1) = Some (IntValue 1) /\
    last_write "objectColor" (uniforms e1) = Some (Vec4Value (mkvec4 1 0 0 1)) /\
    (SetShaderTexture "fur" ;; SetShaderColor 1 0 0 1)
      (two_textures TheShader) example_env
    = Ok (tt, two_textures TheShader, e2) /\
    last_write "bUseTexture" (uniforms e2) = Some (IntValue 0) /\
    last_write "objectColor" (uniforms e2) = Some (Vec4Value (mkvec4 1 0 0 1)).
Proof.
  apply (X4_the_later_of_colour_and_texture_decides 1 0 0 1 "fur"
           (two_textures TheShader) example_env eq_refl (two_textures_within TheShader)).
Defined.

Lemma X5_fur_example :
  FindMaterial "fur" zero_material (two_textures TheShader) example_env
  = Ok ((true,
         mkMaterial (ambientColor furmaterial) (ambientStrength furmaterial)
                    (diffuseColor furmaterial) (specularColor furmaterial)
                    (shininess furmaterial) ""),
        two_textures TheShader, example_env) /\
  SetShaderMaterial "fur" (two_textures TheShader) example_env
  = Ok (tt, two_textures TheShader,
        with_uniforms (uniforms example_env ++ material_writes furmaterial) example_env).
Proof.
  apply (X5_the_first_material_of_a_tag_is_written (two_textures TheShader)
           example_env [] furmaterial [furmaterial] zero_material eq_refl eq_refl).
  intros x [].
Defined.

Lemma X6_two_units_example :
  exists e',
    BindGLTextures (two_textures TheShader) example_env
    = Ok (tt, two_textures TheShader, e') /\
    (forall n t, nth_error (loaded (two_textures TheShader)) n = Some t ->
                 gl_binding (Z.of_nat n) (gl e') = texture_ID t) /\
    gl_textures (gl e') = gl_textures (gl example_env) /\
    e' = with_gl (gl e') example_env.
Proof.
  apply (X6_BindGLTextures_binds_slot_n_to_unit_n (two_textures TheShader)
           example_env (two_textures_within TheShader)).
Defined.

Lemma X7_first_load_example :
  exists sm' e',
    CreateGLTexture "pages.jpg" "pages" (SceneManager_new TheShader) example_env
    = Ok (true, sm', e') /\
    m_loadedTextures sm' = 1 /\
    slot (m_textureIDs sm') 0 = Some (mkTexture "pages" 1) /\
    gl_calls (gl e') = upload_calls 1 (mkImage 128 128 4) /\
    gl_textures (gl e') = [1] /\
    gl_binding (gl_active (gl e')) (gl e') = 0 /\
    stbi_images e' = 0.
Proof.
  destruct (X7_a_load_that_succeeds "pages.jpg" "pages" (SceneManager_new TheShader)
              example_env (mkImage 128 128 4) eq_refl (or_intror eq_refl)
              ltac:(cbn; lia))
    as (sm' & e' & Hrun & Hcount & Hslot & _ & Hcalls & Htex & _ & Hbound & Hbuf).
  exists sm', e'. repeat split; assumption.
Defined.

Lemma X8_missing_file_example :
  exists e',
    CreateGLTexture "nothing.jpg" "nothing" (SceneManager_new TheShader) example_env
    = Ok (false, SceneManager_new TheShader, e') /\
    cout e' = cout example_env ++ [CouldNotLoad "nothing.jpg"] /\
    gl e' = gl example_env /\
    stbi_images e' = stbi_images example_env /\
    uniforms e' = uniforms example_env.
Proof.
  apply (X8_a_load_of_a_missing_file "nothing.jpg" "nothing"
           (SceneManager_new TheShader) example_env eq_refl).
Defined.

Lemma X9_teardown_example :
  exists sm' e',
    DestroyGLTextures (two_textures TheShader) two_textures_env = Ok (tt, sm', e') /\
    slots_ok sm' /\ m_loadedTextures sm' = 2.
Proof.
  destruct X9_the_count_stays_within_the_sixteen_slots as [_ H].
  destruct (H (two_textures TheShader) two_textures_env (two_textures_slots TheShader))
    as (_ & _ & Hdestroy & _).
  exact Hdestroy.
Defined.

Lemma X12_frame_example :
  exists e',
    RenderScene (two_textures TheShader) example_env
    = Ok (tt, two_textures TheShader, e') /\
    gl e' = gl example_env /\ cout e' = cout example_env /\
    meshes_loaded e' = meshes_loaded example_env.
Proof.
  destruct (perform_all_returns RenderScene_calls (two_textures TheShader) example_env
              (two_textures_within TheShader) (or_introl eq_refl)) as (e' & Hrun & _).
  rewrite <- RenderScene_is_its_calls in Hrun.
  destruct (X12_a_frame_only_writes_uniforms_and_draws _ _ _ _ _ Hrun)
    as (Hg & Hc & _ & Hl & _).
  exists e'. auto.
Defined.

Lemma X14_no_shader_example :
  RenderScene (SceneManager_new NullShader) example_env
  = Ok (tt, SceneManager_new NullShader,
        with_meshes (meshes_loaded example_env)
          (meshes_drawn example_env ++ map drawn_mesh expected_frame) example_env) /\
  RenderScene (two_textures NullShader) example_env = Crash NullDereference.
Proof.
  split.
  - apply (X14_a_frame_without_a_shader (SceneManager_new NullShader) example_env
             eq_refl). reflexivity.
  - apply (X14_a_frame_without_a_shader (two_textures NullShader) example_env eq_refl).
    discriminate.
Defined.

Lemma X18_teardown_example :
  exists sm' e',
    DestroyGLTextures (two_textures TheShader) two_textures_env = Ok (tt, sm', e') /\
    m_loadedTextures sm' = 2 /\
    nth_error (loaded sm') 1 = Some (mkTexture "pages" 4) /\
    FindTextureSlot "pages" sm' two_textures_env = Ok (1, sm', two_textures_env) /\
    FindTextureID "pages" sm' two_textures_env = Ok (4, sm', two_textures_env) /\
    forall t', In t' (loaded sm') -> texture_ID t' <> 1 /\ texture_ID t' <> 2.
Proof.
  destruct (X18_teardown_forgets_the_loaded_handles (two_textures TheShader)
              two_textures_env (two_textures_slots TheShader))
    as (sm' & e' & Hrun & Hcount & Hslots & Hforgets).
  destruct (Hslots 1%nat (mkTexture "pages" 2) eq_refl) as [Hnew Hfind].
  destruct (Hfind two_textures_env) as [Hslot Hid].
  { intros [|k] t' Hk Hk'; [|lia]. injection Hk' as <-. discriminate. }
  assert (Hbelow : forall t, In t (loaded (two_textures TheShader)) ->
                             texture_ID t < gl_next (gl two_textures_env)).
  { intros t [<-|[<-|[]]]; cbn; lia. }
  exists sm', e'. split; [exact Hrun|]. split; [exact Hcount|].
  split; [exact Hnew|]. split; [exact Hslot|]. split; [exact Hid|].
  intros t' Ht'. split.
  - apply (Hforgets Hbelow (mkTexture "fur" 1) t'); [left; reflexivity | exact Ht'].
  - apply (Hforgets Hbelow (mkTexture "pages" 2) t');
      [right; left; reflexivity | exact Ht'].
Defined.

Lemma X19_scale_and_translate_example :
  SetTransformations (mkvec3 2 3 4) 0 0 0 (mkvec3 5 6 7)
    (SceneManager_new TheShader) example_env
  = Ok (tt, SceneManager_new TheShader,
        with_uniforms
          [("model",
            Mat4Value (mkmat4 (mkvec4 2 0 0 0) (mkvec4 0 3 0 0) (mkvec4 0 0 4 0)
                              (mkvec4 5 6 7 1)))]
          example_env).
Proof.
  apply (X19_without_rotation_the_matrix_is_scale_and_position
           (mkvec3 2 3 4) (mkvec3 5 6 7) (SceneManager_new TheShader) example_env
           eq_refl).
Defined.
